(** * markdown2pdf-mcp: the markdown to PDF call handler

    A shallow embedding of [MarkdownPdfServer] (the call handler, the output
    path resolver, the mermaid protector and the document composer) and the
    properties its specification states about it.

    JavaScript strings are sequences of UTF-16 code units; they are modelled
    as lists of integers.  Library calls whose code is not part of the
    repository (Node's [path], [hljs], the markdown engine, the PDF renderer)
    are parameters of the sections that use them. *)

From Stdlib Require Import ZArith List Bool Lia String Ascii Arith ZifyBool.
From Stdlib Require Import DecimalString DecimalNat FinFun.
Import ListNotations.

Local Open Scope Z_scope.

(** ** JavaScript strings *)

Definition jsstring := list Z.

(** A literal of the source text, as a sequence of code units. *)
Definition js (s : string) : jsstring :=
  map (fun a => Z.of_N (N_of_ascii a)) (list_ascii_of_string s).

Fixpoint jseqb (a b : jsstring) : bool :=
  match a, b with
  | [], [] => true
  | x :: a', y :: b' => (x =? y) && jseqb a' b'
  | _, _ => false
  end.

(** [s.startsWith(p)] *)
Fixpoint startsWith (p s : jsstring) : bool :=
  match p, s with
  | [], _ => true
  | x :: p', y :: s' => (x =? y) && startsWith p' s'
  | _ :: _, [] => false
  end.

(** [s.endsWith(p)] *)
Definition endsWith (p s : jsstring) : bool :=
  startsWith (rev p) (rev s).

(** White space and line terminators, the code units [String.prototype.trim]
    strips. *)
Definition isWhiteSpace (c : Z) : bool :=
  ((9 <=? c) && (c <=? 13)) || (c =? 32) || (c =? 160) || (c =? 5760)
  || ((8192 <=? c) && (c <=? 8202)) || (c =? 8232) || (c =? 8233)
  || (c =? 8239) || (c =? 8287) || (c =? 12288) || (c =? 65279).

Fixpoint trimStart (s : jsstring) : jsstring :=
  match s with
  | [] => []
  | c :: s' => if isWhiteSpace c then trimStart s' else s
  end.

Definition trimEnd (s : jsstring) : jsstring := rev (trimStart (rev s)).

Definition trim (s : jsstring) : jsstring := trimEnd (trimStart s).

(** ** [Buffer.from(s)]: the UTF-8 bytes of a string *)

Definition isHighSurrogate (c : Z) : bool := (55296 <=? c) && (c <=? 56319).
Definition isLowSurrogate (c : Z) : bool := (56320 <=? c) && (c <=? 57343).

(** The UTF-8 bytes of one scalar value. *)
Definition utf8_of_scalar (c : Z) : list Z :=
  if c <? 128 then [c]
  else if c <? 2048 then [192 + c / 64; 128 + c mod 64]
  else if c <? 65536 then
    [224 + c / 4096; 128 + (c / 64) mod 64; 128 + c mod 64]
  else
    [240 + c / 262144; 128 + (c / 4096) mod 64;
     128 + (c / 64) mod 64; 128 + c mod 64].

(** A surrogate pair is one scalar value; an unpaired surrogate is encoded as
    U+FFFD. *)
Fixpoint utf8_encode (s : jsstring) : list Z :=
  match s with
  | [] => []
  | c :: s' =>
    if isHighSurrogate c then
      match s' with
      | d :: s'' =>
        if isLowSurrogate d then
          utf8_of_scalar (65536 + (c - 55296) * 1024 + (d - 56320))
            ++ utf8_encode s''
        else [239; 191; 189] ++ utf8_encode s'
      | [] => [239; 191; 189]
      end
    else if isLowSurrogate c then [239; 191; 189] ++ utf8_encode s'
    else utf8_of_scalar c ++ utf8_encode s'
  end.

(** ** [buf.toString('utf-8')]: decoding bytes to a string

    The decoder replaces every ill-formed subsequence by U+FFFD and never
    fails.  A state is [None] between characters and
    [Some (cp, remaining, lower, upper)] inside a multi-byte sequence. *)

Definition utf8_state : Type := option (Z * nat * Z * Z).

Definition utf16_of_scalar (cp : Z) : jsstring :=
  if cp <? 65536 then [cp]
  else [55296 + (cp - 65536) / 1024; 56320 + (cp - 65536) mod 1024].

(** A byte read between characters. *)
Definition utf8_lead (b : Z) : jsstring * utf8_state :=
  if (0 <=? b) && (b <=? 127) then ([b], None)
  else if (194 <=? b) && (b <=? 223) then ([], Some (b mod 32, 1%nat, 128, 191))
  else if (224 <=? b) && (b <=? 239) then
    ([], Some (b mod 16, 2%nat,
               (if b =? 224 then 160 else 128),
               (if b =? 237 then 159 else 191)))
  else if (240 <=? b) && (b <=? 244) then
    ([], Some (b mod 8, 3%nat,
               (if b =? 240 then 144 else 128),
               (if b =? 244 then 143 else 191)))
  else ([65533], None).

Fixpoint utf8_decode_go (st : utf8_state) (bs : list Z) : jsstring :=
  match bs with
  | [] => match st with None => [] | Some _ => [65533] end
  | b :: bs' =>
    match st with
    | None =>
      let '(out, st') := utf8_lead b in out ++ utf8_decode_go st' bs'
    | Some (cp, remaining, lower, upper) =>
      if (lower <=? b) && (b <=? upper) then
        let cp' := cp * 64 + b mod 64 in
        match remaining with
        | S (S r) => utf8_decode_go (Some (cp', S r, 128, 191)) bs'
        | _ => utf16_of_scalar cp' ++ utf8_decode_go None bs'
        end
      else
        let '(out, st') := utf8_lead b in
        65533 :: out ++ utf8_decode_go st' bs'
    end
  end.

Definition utf8_decode (bs : list Z) : jsstring := utf8_decode_go None bs.

(** ** Base64, as [Buffer] reads and writes it *)

Definition b64_char (v : Z) : Z :=
  if v <? 26 then 65 + v
  else if v <? 52 then 97 + (v - 26)
  else if v <? 62 then 48 + (v - 52)
  else if v =? 62 then 43
  else 47.

Definition b64_value (c : Z) : option Z :=
  if (65 <=? c) && (c <=? 90) then Some (c - 65)
  else if (97 <=? c) && (c <=? 122) then Some (c - 97 + 26)
  else if (48 <=? c) && (c <=? 57) then Some (c - 48 + 52)
  else if c =? 43 then Some 62
  else if c =? 47 then Some 63
  else None.

(** [buf.toString('base64')] *)
Fixpoint base64_encode (bs : list Z) : jsstring :=
  match bs with
  | [] => []
  | [a] => [b64_char (a / 4); b64_char ((a mod 4) * 16); 61; 61]
  | [a; b] =>
    [b64_char (a / 4); b64_char ((a mod 4) * 16 + b / 16);
     b64_char ((b mod 16) * 4); 61]
  | a :: b :: c :: rest =>
    [b64_char (a / 4); b64_char ((a mod 4) * 16 + b / 16);
     b64_char ((b mod 16) * 4 + c / 64); b64_char (c mod 64)]
      ++ base64_encode rest
  end.

(** The six-bit values of the text, up to the first padding character;
    characters outside the alphabet are skipped. *)
Fixpoint b64_sextets (s : jsstring) : list Z :=
  match s with
  | [] => []
  | c :: s' =>
    if c =? 61 then []
    else match b64_value c with
         | Some v => v :: b64_sextets s'
         | None => b64_sextets s'
         end
  end.

Fixpoint b64_bytes (vs : list Z) : list Z :=
  match vs with
  | a :: b :: c :: d :: rest =>
    [a * 4 + b / 16; (b mod 16) * 16 + c / 4; (c mod 4) * 64 + d]
      ++ b64_bytes rest
  | [a; b; c] => [a * 4 + b / 16; (b mod 16) * 16 + c / 4]
  | [a; b] => [a * 4 + b / 16]
  | _ => []
  end.

(** [Buffer.from(s, 'base64')]: it never throws. *)
Definition base64_decode (s : jsstring) : list Z := b64_bytes (b64_sextets s).

(** ** [String.prototype.replace] with a global regular expression

    [matchAt s] is the match of the expression at the start of [s]: what it
    captures and how many code units it covers (never zero for the two
    expressions of this program).  The callback may change a state, as the
    closures of the source do with the variables they capture. *)

Section Replace.
Context {A St : Type}.
Variable matchAt : jsstring -> option (A * nat).
Variable callback : A -> St -> jsstring * St.

Fixpoint replaceAll (skip : nat) (s : jsstring) (st : St) : jsstring * St :=
  match s with
  | [] => ([], st)
  | c :: s' =>
    match skip with
    | S k => replaceAll k s' st
    | O =>
      match matchAt s with
      | Some (a, n) =>
        let '(out, st1) := callback a st in
        let '(rest, st2) := replaceAll (n - 1) s' st1 in
        (out ++ rest, st2)
      | None =>
        let '(rest, st1) := replaceAll 0 s' st in (c :: rest, st1)
      end
    end
  end.

(** The matches of the expression, in order, with the text between them. *)
Inductive piece : Type :=
| Lit (c : Z)
| Match (a : A).

Fixpoint pieces (skip : nat) (s : jsstring) : list piece :=
  match s with
  | [] => []
  | c :: s' =>
    match skip with
    | S k => pieces k s'
    | O =>
      match matchAt s with
      | Some (a, n) => Match a :: pieces (n - 1) s'
      | None => Lit c :: pieces 0 s'
      end
    end
  end.
End Replace.

Arguments Lit {A} c.
Arguments Match {A} a.

Definition matches {A} (ps : list (@piece A)) : list A :=
  flat_map (fun p => match p with Lit _ => [] | Match a => [a] end) ps.

(** ** Diagram protector *)

Definition fenceOpen : jsstring := js "```mermaid" ++ [10].
Definition fenceClose : jsstring := js "```".
Definition placeholderPrefix : jsstring := js "MERMAID_DIAGRAM_PLACEHOLDER_".

(** [([\s\S]*?)```], lazily: the text before the first closing fence, and how
    many code units text and fence cover. *)
Fixpoint lazyUntilFence (s : jsstring) : option (jsstring * nat) :=
  if startsWith fenceClose s then Some ([], 3%nat)
  else match s with
       | [] => None
       | c :: s' =>
         match lazyUntilFence s' with
         | Some (body, n) => Some (c :: body, S n)
         | None => None
         end
       end.

(** [/```mermaid\n([\s\S]*?)```/] at the start of [s]. *)
Definition mermaidRegex (s : jsstring) : option (jsstring * nat) :=
  if startsWith fenceOpen s then
    match lazyUntilFence (skipn 11 s) with
    | Some (code, n) => Some (code, (11 + n)%nat)
    | None => None
    end
  else None.

Definition placeholderOf (code : jsstring) : jsstring :=
  placeholderPrefix ++ base64_encode (utf8_encode (trim code)).

Record Processed : Type := {
  processedMarkdown : jsstring;
  hasMermaidDiagrams : bool
}.

Definition processMermaidDiagrams (markdownContent : jsstring) : Processed :=
  let '(out, flag) :=
    replaceAll mermaidRegex (fun code (_ : bool) => (placeholderOf code, true))
               0 markdownContent false in
  {| processedMarkdown := out; hasMermaidDiagrams := flag |}.

(** The fenced diagram blocks of a document: the captures of [mermaidRegex],
    in document order. *)
Definition diagramBlocks (markdownContent : jsstring) : list jsstring :=
  matches (pieces mermaidRegex 0 markdownContent).

(** [[A-Za-z0-9+/=]] *)
Definition isPayloadChar (c : Z) : bool :=
  ((65 <=? c) && (c <=? 90)) || ((97 <=? c) && (c <=? 122))
  || ((48 <=? c) && (c <=? 57)) || (c =? 43) || (c =? 47) || (c =? 61).

Fixpoint takePayload (s : jsstring) : jsstring :=
  match s with
  | [] => []
  | c :: s' => if isPayloadChar c then c :: takePayload s' else []
  end.

(** [/MERMAID_DIAGRAM_PLACEHOLDER_([A-Za-z0-9+/=]+)/] at the start of [s]. *)
Definition placeholderRegex (s : jsstring) : option (jsstring * nat) :=
  if startsWith placeholderPrefix s then
    match takePayload (skipn 28 s) with
    | [] => None
    | payload => Some (payload, (28 + List.length payload)%nat)
    end
  else None.

Definition mermaidDiv (mermaidCode : jsstring) : jsstring :=
  js "<div class=" ++ [34] ++ js "mermaid" ++ [34] ++ js ">"
    ++ mermaidCode ++ js "</div>".

Definition mermaidErrorDiv : jsstring :=
  js "<div class=" ++ [34] ++ js "mermaid-error" ++ [34]
    ++ js ">Error processing diagram</div>".

Section Restore.
(** [Buffer.from(encodedCode, 'base64').toString('utf-8')]; [None] when it
    throws.  The state of the callback is what it wrote with
    [console.error]: the tokens it could not decode. *)
Variable decode : jsstring -> option jsstring.

Definition restoreCallback (encodedCode : jsstring) (log : list jsstring)
  : jsstring * list jsstring :=
  match decode encodedCode with
  | Some mermaidCode => (mermaidDiv mermaidCode, log)
  | None => (mermaidErrorDiv, log ++ [encodedCode])
  end.

Definition restoreWith (htmlContent : jsstring) : jsstring * list jsstring :=
  replaceAll placeholderRegex restoreCallback 0 htmlContent [].
End Restore.

(** The decoding Node performs: neither step throws. *)
Definition bufferDecode (encodedCode : jsstring) : option jsstring :=
  Some (utf8_decode (base64_decode encodedCode)).

Definition restoreMermaidDiagrams (htmlContent : jsstring) : jsstring :=
  fst (restoreWith bufferDecode htmlContent).

(** The placeholder tokens in a text, in order. *)
Definition placeholderTokens (htmlContent : jsstring) : list jsstring :=
  matches (pieces placeholderRegex 0 htmlContent).

(** ** Exceptions

    A JavaScript computation completes normally or throws.  What is thrown is
    an [Error] with its message, or some other value with its [String(..)]. *)

Inductive jsError : Type :=
| ErrorObject (message : jsstring)
| Thrown (text : jsstring).

Inductive completion (A : Type) : Type :=
| Normal (a : A)
| Throw (e : jsError).

Arguments Normal {A} a.
Arguments Throw {A} e.

Definition bindC {A B} (c : completion A) (k : A -> completion B)
  : completion B :=
  match c with
  | Normal a => k a
  | Throw e => Throw e
  end.

(** [try { c } catch (err) { h err }] *)
Definition tryCatch {A} (c : completion A) (h : jsError -> completion A)
  : completion A :=
  match c with
  | Normal a => Normal a
  | Throw e => h e
  end.

Notation "x <- c ;; k" := (bindC c (fun x => k))
  (at level 61, c at next level, right associativity).

(** [error instanceof Error ? error.message : String(error)] *)
Definition errorMessageOf (error : jsError) : jsstring :=
  match error with
  | ErrorObject message => message
  | Thrown text => text
  end.

(** A string is truthy when it is not empty. *)
Definition truthy (s : jsstring) : bool :=
  match s with [] => false | _ :: _ => true end.

(** ** Values that may not be strings

    A JSON value the program expects to be a string: it is one, or it is
    missing ([undefined]), [null], or of another type (a boolean, a number,
    an array, an object). *)

Inductive jsValue : Type :=
| Undefined
| Null
| Str (s : jsstring)
| Other.

(** A default of a destructuring pattern or of a parameter: it stands in for
    [undefined] only. *)
Definition valueOrDefault (v : jsValue) (d : jsstring) : jsValue :=
  match v with
  | Undefined => Str d
  | _ => v
  end.

(** The [TypeError]s of the engine, in V8's words. *)
Definition cannotDestructure : jsError :=
  ErrorObject
    (js "Cannot destructure property 'markdown' of 'request.params.arguments' as it is undefined.").

Definition cannotRead (what property : jsstring) : jsError :=
  ErrorObject (js "Cannot read properties of " ++ what ++ js " (reading '"
               ++ property ++ js "')").

Definition notAFunction (expression property : jsstring) : jsError :=
  ErrorObject (expression ++ js "." ++ property ++ js " is not a function").

(** [v.method(...)] for a method of strings: the string it is called on, or
    the [TypeError] thrown when [v] is no string. *)
Definition stringReceiver (v : jsValue) (expression method : jsstring)
  : completion jsstring :=
  match v with
  | Str s => Normal s
  | Undefined => Throw (cannotRead (js "undefined") method)
  | Null => Throw (cannotRead (js "null") method)
  | Other => Throw (notAFunction expression method)
  end.

(** ** The highlighter given to the markdown engine *)

Section Highlighter.
(** [hljs.getLanguage(language)] is an object or [undefined];
    [hljs.highlight(str, {language}).value] and [hljs.highlightAuto(str).value]
    may throw. *)
Variable getLanguage : jsstring -> bool.
Variable hljsHighlight : jsstring -> jsstring -> completion jsstring.
Variable hljsHighlightAuto : jsstring -> completion jsstring.

(** The body of the function after its first [if] statement. *)
Definition highlightAuto (str : jsstring) : completion jsstring :=
  tryCatch (hljsHighlightAuto str) (fun _ => Normal []).

Definition highlight (str language : jsstring) : completion jsstring :=
  if truthy language && getLanguage language then
    match hljsHighlight str language with
    | Normal value => Normal value
    | Throw _ => highlightAuto str
    end
  else highlightAuto str.
End Highlighter.

(** ** Output file name *)

Definition dotPdf : jsstring := js ".pdf".

Section Filename.
(** [String.prototype.toLowerCase] *)
Variable toLowerCase : jsstring -> jsstring.

Definition hasPdfSuffix (outputFilename : jsstring) : bool :=
  endsWith dotPdf (toLowerCase outputFilename).

Definition normalizeFilename (outputFilename : jsstring) : jsstring :=
  if hasPdfSuffix outputFilename then outputFilename
  else outputFilename ++ dotPdf.
End Filename.

(** Lower case of the letters A to Z, code unit by code unit: what
    [toLowerCase] does on ASCII text. *)
Definition asciiLowerCase (s : jsstring) : jsstring :=
  map (fun c => if (65 <=? c) && (c <=? 90) then c + 32 else c) s.

(** ** Node's [path] module, as far as the program uses it *)

Record PathModule : Type := {
  dirname : jsstring -> jsstring;
  extname : jsstring -> jsstring;
  basename : jsstring -> jsstring -> jsstring;
  join : jsstring -> jsstring -> jsstring;
  resolve : list jsstring -> jsstring
}.

(** [`${counter}`] for a counter that starts at 1 and is incremented. *)
Definition decimal (n : nat) : jsstring :=
  js (NilEmpty.string_of_uint (Nat.to_uint n)).

(** ** File path resolver *)

Section IncrementalPath.
Variable path : PathModule.
(** [fs.existsSync] *)
Variable existsSync : jsstring -> bool.

(** [path.join(dir, `${name}-${counter}${ext}`)] *)
Definition candidate (basePath : jsstring) (counter : nat) : jsstring :=
  let dir := dirname path basePath in
  let ext := extname path basePath in
  let name := basename path basePath ext in
  join path dir (name ++ js "-" ++ decimal counter ++ ext).

(** The [while] loop; [None] when the fuel runs out before it ends. *)
Fixpoint incrementalLoop (fuel : nat) (basePath : jsstring)
         (counter : nat) (newPath : jsstring) : option jsstring :=
  match fuel with
  | O => None
  | S fuel' =>
    if existsSync newPath then
      incrementalLoop fuel' basePath (S counter) (candidate basePath counter)
    else Some newPath
  end.

Definition getIncrementalPath (fuel : nat) (basePath : jsstring)
  : option jsstring :=
  incrementalLoop fuel basePath 1 basePath.
End IncrementalPath.

(** A file system with finitely many paths in use. *)
Definition existsIn (files : list jsstring) (p : jsstring) : bool :=
  existsb (jseqb p) files.

(** ** Document composer: the page template *)

Definition tplPageRule : jsstring :=
  js "
<!DOCTYPE html>
<html>
<head>
  <meta charset=" ++ [34] ++ js "utf-8" ++ [34] ++ js ">
  <style>
    @page {
      margin: 20px;
      size: ".

Definition tplSpace : jsstring :=
  js " ".

Definition tplPageBox : jsstring :=
  js ";
    }
    html, body {
      margin: 0;
      padding: 0;
      width: 100%;
      height: 100%;
    }
    .page {
      position: relative;
      width: ".

Definition tplHeight : jsstring :=
  js ";
      height: ".

Definition tplContentCss : jsstring :=
  js ";
      margin: 0;
      padding: 20px;
      box-sizing: border-box;
    }
    .content {
      position: relative;
      z-index: 1;
    }
    .watermark {
      position: absolute;
      left: 0;
      top: 0;
      right: 0;
      bottom: 0;
      display: flex;
      justify-content: center;
      align-items: center;
      font-size: calc(".

Definition tplMermaidCss : jsstring :=
  js " * 0.14);
      color: rgba(0, 0, 0, 0.15);
      font-family: Arial, sans-serif;
      white-space: nowrap;
      pointer-events: none;
      z-index: 0;
      transform: rotate(-45deg);
    }
    /* Mermaid styling */
    .mermaid {
      text-align: center;
      margin: 20px 0;
    }
    .mermaid-error {
      color: red;
      border: 1px solid red;
      padding: 10px;
      margin: 10px 0;
    }
  </style>
  ".

Definition tplBodyOpen : jsstring :=
  js "
</head>
<body>
  <div class=" ++ [34] ++ js "page" ++ [34] ++ js ">
    <div class=" ++ [34] ++ js "content" ++ [34] ++ js ">
      ".

Definition tplContentClose : jsstring :=
  js "
    </div>
    ".

Definition tplBodyClose : jsstring :=
  js "
  </div>
</body>
</html>".

Definition mermaidScriptText : jsstring :=
  js "
      <script src=" ++ [34] ++ js "https://cdn.jsdelivr.net/npm/mermaid@10.6.0/dist/mermaid.min.js" ++ [34] ++ js "></script>
      <script>
        // Initialize mermaid with specific configuration for PDF rendering
        document.addEventListener('DOMContentLoaded', function() {
          try {
            // Initialize mermaid
            mermaid.initialize({
              startOnLoad: true,
              theme: 'default',
              securityLevel: 'loose',
              flowchart: { 
                useMaxWidth: false, 
                htmlLabels: true 
              }
            });
            
            // Let puppeteer know when mermaid is done rendering
            window.mermaidRendered = false;
            mermaid.run().then(() => {
              window.mermaidRendered = true;
              document.dispatchEvent(new CustomEvent('mermaid-rendered'));
              console.log('Mermaid diagrams rendered successfully');
            }).catch(err => {
              console.error('Mermaid rendering error:', err);
              window.mermaidRendered = true; // Still mark as rendered to avoid hanging
              document.dispatchEvent(new CustomEvent('mermaid-error'));
            });
          } catch (error) {
            console.error('Mermaid initialization error:', error);
            window.mermaidRendered = true; // Still mark as rendered to avoid hanging
          }
        });
      </script>
      ".

Definition letter : jsstring := js "letter".

(** [paperFormat === 'letter' ? '8.5in' : '210mm'] *)
Definition pageWidth (paperFormat : jsstring) : jsstring :=
  if jseqb paperFormat letter then js "8.5in" else js "210mm".

(** [paperFormat === 'letter' ? '11in' : '297mm'] *)
Definition pageHeight (paperFormat : jsstring) : jsstring :=
  if jseqb paperFormat letter then js "11in" else js "297mm".

Definition watermarkOpen : jsstring :=
  js "<div class=" ++ [34] ++ js "watermark" ++ [34] ++ js ">".

(** [watermark ? `<div class="watermark">${watermark}</div>` : ''] *)
Definition watermarkLayer (watermark : jsstring) : jsstring :=
  if truthy watermark then watermarkOpen ++ watermark ++ js "</div>" else [].

Definition mermaidScript (hasDiagrams : bool) : jsstring :=
  if hasDiagrams then mermaidScriptText else [].

Definition composeHtml (paperFormat paperOrientation : jsstring)
           (hasDiagrams : bool) (htmlContent watermark : jsstring) : jsstring :=
  tplPageRule ++ paperFormat ++ tplSpace ++ paperOrientation
  ++ tplPageBox ++ pageWidth paperFormat
  ++ tplHeight ++ pageHeight paperFormat
  ++ tplContentCss ++ pageWidth paperFormat
  ++ tplMermaidCss ++ mermaidScript hasDiagrams
  ++ tplBodyOpen ++ htmlContent
  ++ tplContentClose ++ watermarkLayer watermark
  ++ tplBodyClose.

(** Occurrences of a text in another, overlapping ones included. *)
Fixpoint countOccurrences (pat s : jsstring) : nat :=
  match s with
  | [] => 0%nat
  | _ :: s' =>
    ((if startsWith pat s then 1 else 0) + countOccurrences pat s')%nat
  end.

(** ** Elements of an HTML text

    What the browser makes of the composed document is decided by its HTML
    tokenizer.  The scanner below follows it as far as tags, their [class]
    attribute and the text between them go: tags with quoted and unquoted
    attributes, comments and declarations, the raw text of [script], [style]
    and the like, character references by number and by name.  Foreign
    content (SVG, MathML) and the tags the tree builder drops are not told
    apart. *)

Definition isSpaceChar (c : Z) : bool :=
  (c =? 9) || (c =? 10) || (c =? 12) || (c =? 13) || (c =? 32).

Definition isAsciiAlpha (c : Z) : bool :=
  ((65 <=? c) && (c <=? 90)) || ((97 <=? c) && (c <=? 122)).

Definition lowerChar (c : Z) : Z :=
  if (65 <=? c) && (c <=? 90) then c + 32 else c.

Definition hexValue (c : Z) : option Z :=
  if (48 <=? c) && (c <=? 57) then Some (c - 48)
  else if (65 <=? c) && (c <=? 70) then Some (c - 55)
  else if (97 <=? c) && (c <=? 102) then Some (c - 87)
  else None.

(** The digits at the start of a text in a base: their value (capped above
    the last code point) and their number. *)
Fixpoint digitsValue (base : Z) (acc : Z) (n : nat) (s : jsstring)
  : Z * nat :=
  match s with
  | [] => (acc, n)
  | c :: s' =>
    match hexValue c with
    | Some v =>
      if v <? base
      then digitsValue base (Z.min 1114112 (acc * base + v)) (S n) s'
      else (acc, n)
    | None => (acc, n)
    end
  end.

(** The characters Windows-1252 has where Unicode has controls: numeric
    references to 128 ... 159 are read in that code page. *)
Definition windows1252 : list (Z * Z) :=
  [(128, 8364); (130, 8218); (131, 402); (132, 8222); (133, 8230);
   (134, 8224); (135, 8225); (136, 710); (137, 8240); (138, 352);
   (139, 8249); (140, 338); (142, 381); (145, 8216); (146, 8217);
   (147, 8220); (148, 8221); (149, 8226); (150, 8211); (151, 8212);
   (152, 732); (153, 8482); (154, 353); (155, 8250); (156, 339);
   (158, 382); (159, 376)].

(** The code units a numeric reference stands for: U+FFFD for zero,
    surrogates and numbers above the last code point. *)
Definition referenceUnits (v : Z) : jsstring :=
  if (v =? 0) || (1114111 <? v) || ((55296 <=? v) && (v <=? 57343))
  then [65533]
  else
    match find (fun p => fst p =? v) windows1252 with
    | Some (_, u) => [u]
    | None => utf16_of_scalar v
    end.

Definition numericReference (base : Z) (lead : nat) (s : jsstring)
  : option (jsstring * nat) :=
  match digitsValue base 0 0 s with
  | (_, O) => None
  | (v, n) =>
    Some (referenceUnits v,
          (lead + n + (if startsWith (js ";") (skipn n s) then 1 else 0))%nat)
  end.

Local Open Scope string_scope.

Definition namedReferences_capA : list (string * jsstring) :=
  [("AElig", [198]); ("AElig;", [198]); ("AMP", [38]); ("AMP;", [38]);
   ("Aacute", [193]); ("Aacute;", [193]); ("Abreve;", [258]); ("Acirc", [194]);
   ("Acirc;", [194]); ("Acy;", [1040]); ("Afr;", [55349; 56580]);
   ("Agrave", [192]); ("Agrave;", [192]); ("Alpha;", [913]); ("Amacr;", [256]);
   ("And;", [10835]); ("Aogon;", [260]); ("Aopf;", [55349; 56632]);
   ("ApplyFunction;", [8289]); ("Aring", [197]); ("Aring;", [197]);
   ("Ascr;", [55349; 56476]); ("Assign;", [8788]); ("Atilde", [195]);
   ("Atilde;", [195]); ("Auml", [196]); ("Auml;", [196])].

Definition namedReferences_capB : list (string * jsstring) :=
  [("Backslash;", [8726]); ("Barv;", [10983]); ("Barwed;", [8966]);
   ("Bcy;", [1041]); ("Because;", [8757]); ("Bernoullis;", [8492]);
   ("Beta;", [914]); ("Bfr;", [55349; 56581]); ("Bopf;", [55349; 56633]);
   ("Breve;", [728]); ("Bscr;", [8492]); ("Bumpeq;", [8782])].

Definition namedReferences_capC : list (string * jsstring) :=
  [("CHcy;", [1063]); ("COPY", [169]); ("COPY;", [169]); ("Cacute;", [262]);
   ("Cap;", [8914]); ("CapitalDifferentialD;", [8517]); ("Cayleys;", [8493]);
   ("Ccaron;", [268]); ("Ccedil", [199]); ("Ccedil;", [199]);
   ("Ccirc;", [264]); ("Cconint;", [8752]); ("Cdot;", [266]);
   ("Cedilla;", [184]); ("CenterDot;", [183]); ("Cfr;", [8493]);
   ("Chi;", [935]); ("CircleDot;", [8857]); ("CircleMinus;", [8854]);
   ("CirclePlus;", [8853]); ("CircleTimes;", [8855]);
   ("ClockwiseContourIntegral;", [8754]); ("CloseCurlyDoubleQuote;", [8221]);
   ("CloseCurlyQuote;", [8217]); ("Colon;", [8759]); ("Colone;", [10868]);
   ("Congruent;", [8801]); ("Conint;", [8751]); ("ContourIntegral;", [8750]);
   ("Copf;", [8450]); ("Coproduct;", [8720]);
   ("CounterClockwiseContourIntegral;", [8755]); ("Cross;", [10799]);
   ("Cscr;", [55349; 56478]); ("Cup;", [8915]); ("CupCap;", [8781])].

Definition namedReferences_capD : list (string * jsstring) :=
  [("DD;", [8517]); ("DDotrahd;", [10513]); ("DJcy;", [1026]);
   ("DScy;", [1029]); ("DZcy;", [1039]); ("Dagger;", [8225]);
   ("Darr;", [8609]); ("Dashv;", [10980]); ("Dcaron;", [270]);
   ("Dcy;", [1044]); ("Del;", [8711]); ("Delta;", [916]);
   ("Dfr;", [55349; 56583]); ("DiacriticalAcute;", [180]);
   ("DiacriticalDot;", [729]); ("DiacriticalDoubleAcute;", [733]);
   ("DiacriticalGrave;", [96]); ("DiacriticalTilde;", [732]);
   ("Diamond;", [8900]); ("DifferentialD;", [8518]); ("Dopf;", [55349; 56635]);
   ("Dot;", [168]); ("DotDot;", [8412]); ("DotEqual;", [8784]);
   ("DoubleContourIntegral;", [8751]); ("DoubleDot;", [168]);
   ("DoubleDownArrow;", [8659]); ("DoubleLeftArrow;", [8656]);
   ("DoubleLeftRightArrow;", [8660]); ("DoubleLeftTee;", [10980]);
   ("DoubleLongLeftArrow;", [10232]); ("DoubleLongLeftRightArrow;", [10234]);
   ("DoubleLongRightArrow;", [10233]); ("DoubleRightArrow;", [8658]);
   ("DoubleRightTee;", [8872]); ("DoubleUpArrow;", [8657]);
   ("DoubleUpDownArrow;", [8661]); ("DoubleVerticalBar;", [8741]);
   ("DownArrow;", [8595]); ("DownArrowBar;", [10515]);
   ("DownArrowUpArrow;", [8693]); ("DownBreve;", [785]);
   ("DownLeftRightVector;", [10576]); ("DownLeftTeeVector;", [10590]);
   ("DownLeftVector;", [8637]); ("DownLeftVectorBar;", [10582]);
   ("DownRightTeeVector;", [10591]); ("DownRightVector;", [8641]);
   ("DownRightVectorBar;", [10583]); ("DownTee;", [8868]);
   ("DownTeeArrow;", [8615]); ("Downarrow;", [8659]);
   ("Dscr;", [55349; 56479]); ("Dstrok;", [272])].

Definition namedReferences_capE : list (string * jsstring) :=
  [("ENG;", [330]); ("ETH", [208]); ("ETH;", [208]); ("Eacute", [201]);
   ("Eacute;", [201]); ("Ecaron;", [282]); ("Ecirc", [202]); ("Ecirc;", [202]);
   ("Ecy;", [1069]); ("Edot;", [278]); ("Efr;", [55349; 56584]);
   ("Egrave", [200]); ("Egrave;", [200]); ("Element;", [8712]);
   ("Emacr;", [274]); ("EmptySmallSquare;", [9723]);
   ("EmptyVerySmallSquare;", [9643]); ("Eogon;", [280]);
   ("Eopf;", [55349; 56636]); ("Epsilon;", [917]); ("Equal;", [10869]);
   ("EqualTilde;", [8770]); ("Equilibrium;", [8652]); ("Escr;", [8496]);
   ("Esim;", [10867]); ("Eta;", [919]); ("Euml", [203]); ("Euml;", [203]);
   ("Exists;", [8707]); ("ExponentialE;", [8519])].

Definition namedReferences_capF : list (string * jsstring) :=
  [("Fcy;", [1060]); ("Ffr;", [55349; 56585]); ("FilledSmallSquare;", [9724]);
   ("FilledVerySmallSquare;", [9642]); ("Fopf;", [55349; 56637]);
   ("ForAll;", [8704]); ("Fouriertrf;", [8497]); ("Fscr;", [8497])].

Definition namedReferences_capG : list (string * jsstring) :=
  [("GJcy;", [1027]); ("GT", [62]); ("GT;", [62]); ("Gamma;", [915]);
   ("Gammad;", [988]); ("Gbreve;", [286]); ("Gcedil;", [290]);
   ("Gcirc;", [284]); ("Gcy;", [1043]); ("Gdot;", [288]);
   ("Gfr;", [55349; 56586]); ("Gg;", [8921]); ("Gopf;", [55349; 56638]);
   ("GreaterEqual;", [8805]); ("GreaterEqualLess;", [8923]);
   ("GreaterFullEqual;", [8807]); ("GreaterGreater;", [10914]);
   ("GreaterLess;", [8823]); ("GreaterSlantEqual;", [10878]);
   ("GreaterTilde;", [8819]); ("Gscr;", [55349; 56482]); ("Gt;", [8811])].

Definition namedReferences_capH : list (string * jsstring) :=
  [("HARDcy;", [1066]); ("Hacek;", [711]); ("Hat;", [94]); ("Hcirc;", [292]);
   ("Hfr;", [8460]); ("HilbertSpace;", [8459]); ("Hopf;", [8461]);
   ("HorizontalLine;", [9472]); ("Hscr;", [8459]); ("Hstrok;", [294]);
   ("HumpDownHump;", [8782]); ("HumpEqual;", [8783])].

Definition namedReferences_capI : list (string * jsstring) :=
  [("IEcy;", [1045]); ("IJlig;", [306]); ("IOcy;", [1025]); ("Iacute", [205]);
   ("Iacute;", [205]); ("Icirc", [206]); ("Icirc;", [206]); ("Icy;", [1048]);
   ("Idot;", [304]); ("Ifr;", [8465]); ("Igrave", [204]); ("Igrave;", [204]);
   ("Im;", [8465]); ("Imacr;", [298]); ("ImaginaryI;", [8520]);
   ("Implies;", [8658]); ("Int;", [8748]); ("Integral;", [8747]);
   ("Intersection;", [8898]); ("InvisibleComma;", [8291]);
   ("InvisibleTimes;", [8290]); ("Iogon;", [302]); ("Iopf;", [55349; 56640]);
   ("Iota;", [921]); ("Iscr;", [8464]); ("Itilde;", [296]); ("Iukcy;", [1030]);
   ("Iuml", [207]); ("Iuml;", [207])].

Definition namedReferences_capJ : list (string * jsstring) :=
  [("Jcirc;", [308]); ("Jcy;", [1049]); ("Jfr;", [55349; 56589]);
   ("Jopf;", [55349; 56641]); ("Jscr;", [55349; 56485]); ("Jsercy;", [1032]);
   ("Jukcy;", [1028])].

Definition namedReferences_capK : list (string * jsstring) :=
  [("KHcy;", [1061]); ("KJcy;", [1036]); ("Kappa;", [922]); ("Kcedil;", [310]);
   ("Kcy;", [1050]); ("Kfr;", [55349; 56590]); ("Kopf;", [55349; 56642]);
   ("Kscr;", [55349; 56486])].

Definition namedReferences_capL : list (string * jsstring) :=
  [("LJcy;", [1033]); ("LT", [60]); ("LT;", [60]); ("Lacute;", [313]);
   ("Lambda;", [923]); ("Lang;", [10218]); ("Laplacetrf;", [8466]);
   ("Larr;", [8606]); ("Lcaron;", [317]); ("Lcedil;", [315]); ("Lcy;", [1051]);
   ("LeftAngleBracket;", [10216]); ("LeftArrow;", [8592]);
   ("LeftArrowBar;", [8676]); ("LeftArrowRightArrow;", [8646]);
   ("LeftCeiling;", [8968]); ("LeftDoubleBracket;", [10214]);
   ("LeftDownTeeVector;", [10593]); ("LeftDownVector;", [8643]);
   ("LeftDownVectorBar;", [10585]); ("LeftFloor;", [8970]);
   ("LeftRightArrow;", [8596]); ("LeftRightVector;", [10574]);
   ("LeftTee;", [8867]); ("LeftTeeArrow;", [8612]);
   ("LeftTeeVector;", [10586]); ("LeftTriangle;", [8882]);
   ("LeftTriangleBar;", [10703]); ("LeftTriangleEqual;", [8884]);
   ("LeftUpDownVector;", [10577]); ("LeftUpTeeVector;", [10592]);
   ("LeftUpVector;", [8639]); ("LeftUpVectorBar;", [10584]);
   ("LeftVector;", [8636]); ("LeftVectorBar;", [10578]);
   ("Leftarrow;", [8656]); ("Leftrightarrow;", [8660]);
   ("LessEqualGreater;", [8922]); ("LessFullEqual;", [8806]);
   ("LessGreater;", [8822]); ("LessLess;", [10913]);
   ("LessSlantEqual;", [10877]); ("LessTilde;", [8818]);
   ("Lfr;", [55349; 56591]); ("Ll;", [8920]); ("Lleftarrow;", [8666]);
   ("Lmidot;", [319]); ("LongLeftArrow;", [10229]);
   ("LongLeftRightArrow;", [10231]); ("LongRightArrow;", [10230]);
   ("Longleftarrow;", [10232]); ("Longleftrightarrow;", [10234]);
   ("Longrightarrow;", [10233]); ("Lopf;", [55349; 56643]);
   ("LowerLeftArrow;", [8601]); ("LowerRightArrow;", [8600]);
   ("Lscr;", [8466]); ("Lsh;", [8624]); ("Lstrok;", [321]); ("Lt;", [8810])].

Definition namedReferences_capM : list (string * jsstring) :=
  [("Map;", [10501]); ("Mcy;", [1052]); ("MediumSpace;", [8287]);
   ("Mellintrf;", [8499]); ("Mfr;", [55349; 56592]); ("MinusPlus;", [8723]);
   ("Mopf;", [55349; 56644]); ("Mscr;", [8499]); ("Mu;", [924])].

Definition namedReferences_capN : list (string * jsstring) :=
  [("NJcy;", [1034]); ("Nacute;", [323]); ("Ncaron;", [327]);
   ("Ncedil;", [325]); ("Ncy;", [1053]); ("NegativeMediumSpace;", [8203]);
   ("NegativeThickSpace;", [8203]); ("NegativeThinSpace;", [8203]);
   ("NegativeVeryThinSpace;", [8203]); ("NestedGreaterGreater;", [8811]);
   ("NestedLessLess;", [8810]); ("NewLine;", [10]); ("Nfr;", [55349; 56593]);
   ("NoBreak;", [8288]); ("NonBreakingSpace;", [160]); ("Nopf;", [8469]);
   ("Not;", [10988]); ("NotCongruent;", [8802]); ("NotCupCap;", [8813]);
   ("NotDoubleVerticalBar;", [8742]); ("NotElement;", [8713]);
   ("NotEqual;", [8800]); ("NotEqualTilde;", [8770; 824]);
   ("NotExists;", [8708]); ("NotGreater;", [8815]);
   ("NotGreaterEqual;", [8817]); ("NotGreaterFullEqual;", [8807; 824]);
   ("NotGreaterGreater;", [8811; 824]); ("NotGreaterLess;", [8825]);
   ("NotGreaterSlantEqual;", [10878; 824]); ("NotGreaterTilde;", [8821]);
   ("NotHumpDownHump;", [8782; 824]); ("NotHumpEqual;", [8783; 824]);
   ("NotLeftTriangle;", [8938]); ("NotLeftTriangleBar;", [10703; 824]);
   ("NotLeftTriangleEqual;", [8940]); ("NotLess;", [8814]);
   ("NotLessEqual;", [8816]); ("NotLessGreater;", [8824]);
   ("NotLessLess;", [8810; 824]); ("NotLessSlantEqual;", [10877; 824]);
   ("NotLessTilde;", [8820]); ("NotNestedGreaterGreater;", [10914; 824]);
   ("NotNestedLessLess;", [10913; 824]); ("NotPrecedes;", [8832]);
   ("NotPrecedesEqual;", [10927; 824]); ("NotPrecedesSlantEqual;", [8928]);
   ("NotReverseElement;", [8716]); ("NotRightTriangle;", [8939]);
   ("NotRightTriangleBar;", [10704; 824]); ("NotRightTriangleEqual;", [8941]);
   ("NotSquareSubset;", [8847; 824]); ("NotSquareSubsetEqual;", [8930]);
   ("NotSquareSuperset;", [8848; 824]); ("NotSquareSupersetEqual;", [8931]);
   ("NotSubset;", [8834; 8402]); ("NotSubsetEqual;", [8840]);
   ("NotSucceeds;", [8833]); ("NotSucceedsEqual;", [10928; 824]);
   ("NotSucceedsSlantEqual;", [8929]); ("NotSucceedsTilde;", [8831; 824]);
   ("NotSuperset;", [8835; 8402]); ("NotSupersetEqual;", [8841]);
   ("NotTilde;", [8769]); ("NotTildeEqual;", [8772]);
   ("NotTildeFullEqual;", [8775]); ("NotTildeTilde;", [8777]);
   ("NotVerticalBar;", [8740]); ("Nscr;", [55349; 56489]); ("Ntilde", [209]);
   ("Ntilde;", [209]); ("Nu;", [925])].

Definition namedReferences_capO : list (string * jsstring) :=
  [("OElig;", [338]); ("Oacute", [211]); ("Oacute;", [211]); ("Ocirc", [212]);
   ("Ocirc;", [212]); ("Ocy;", [1054]); ("Odblac;", [336]);
   ("Ofr;", [55349; 56594]); ("Ograve", [210]); ("Ograve;", [210]);
   ("Omacr;", [332]); ("Omega;", [937]); ("Omicron;", [927]);
   ("Oopf;", [55349; 56646]); ("OpenCurlyDoubleQuote;", [8220]);
   ("OpenCurlyQuote;", [8216]); ("Or;", [10836]); ("Oscr;", [55349; 56490]);
   ("Oslash", [216]); ("Oslash;", [216]); ("Otilde", [213]);
   ("Otilde;", [213]); ("Otimes;", [10807]); ("Ouml", [214]); ("Ouml;", [214]);
   ("OverBar;", [8254]); ("OverBrace;", [9182]); ("OverBracket;", [9140]);
   ("OverParenthesis;", [9180])].

Definition namedReferences_capP : list (string * jsstring) :=
  [("PartialD;", [8706]); ("Pcy;", [1055]); ("Pfr;", [55349; 56595]);
   ("Phi;", [934]); ("Pi;", [928]); ("PlusMinus;", [177]);
   ("Poincareplane;", [8460]); ("Popf;", [8473]); ("Pr;", [10939]);
   ("Precedes;", [8826]); ("PrecedesEqual;", [10927]);
   ("PrecedesSlantEqual;", [8828]); ("PrecedesTilde;", [8830]);
   ("Prime;", [8243]); ("Product;", [8719]); ("Proportion;", [8759]);
   ("Proportional;", [8733]); ("Pscr;", [55349; 56491]); ("Psi;", [936])].

Definition namedReferences_capQ : list (string * jsstring) :=
  [("QUOT", [34]); ("QUOT;", [34]); ("Qfr;", [55349; 56596]);
   ("Qopf;", [8474]); ("Qscr;", [55349; 56492])].

Definition namedReferences_capR : list (string * jsstring) :=
  [("RBarr;", [10512]); ("REG", [174]); ("REG;", [174]); ("Racute;", [340]);
   ("Rang;", [10219]); ("Rarr;", [8608]); ("Rarrtl;", [10518]);
   ("Rcaron;", [344]); ("Rcedil;", [342]); ("Rcy;", [1056]); ("Re;", [8476]);
   ("ReverseElement;", [8715]); ("ReverseEquilibrium;", [8651]);
   ("ReverseUpEquilibrium;", [10607]); ("Rfr;", [8476]); ("Rho;", [929]);
   ("RightAngleBracket;", [10217]); ("RightArrow;", [8594]);
   ("RightArrowBar;", [8677]); ("RightArrowLeftArrow;", [8644]);
   ("RightCeiling;", [8969]); ("RightDoubleBracket;", [10215]);
   ("RightDownTeeVector;", [10589]); ("RightDownVector;", [8642]);
   ("RightDownVectorBar;", [10581]); ("RightFloor;", [8971]);
   ("RightTee;", [8866]); ("RightTeeArrow;", [8614]);
   ("RightTeeVector;", [10587]); ("RightTriangle;", [8883]);
   ("RightTriangleBar;", [10704]); ("RightTriangleEqual;", [8885]);
   ("RightUpDownVector;", [10575]); ("RightUpTeeVector;", [10588]);
   ("RightUpVector;", [8638]); ("RightUpVectorBar;", [10580]);
   ("RightVector;", [8640]); ("RightVectorBar;", [10579]);
   ("Rightarrow;", [8658]); ("Ropf;", [8477]); ("RoundImplies;", [10608]);
   ("Rrightarrow;", [8667]); ("Rscr;", [8475]); ("Rsh;", [8625]);
   ("RuleDelayed;", [10740])].

Definition namedReferences_capS : list (string * jsstring) :=
  [("SHCHcy;", [1065]); ("SHcy;", [1064]); ("SOFTcy;", [1068]);
   ("Sacute;", [346]); ("Sc;", [10940]); ("Scaron;", [352]);
   ("Scedil;", [350]); ("Scirc;", [348]); ("Scy;", [1057]);
   ("Sfr;", [55349; 56598]); ("ShortDownArrow;", [8595]);
   ("ShortLeftArrow;", [8592]); ("ShortRightArrow;", [8594]);
   ("ShortUpArrow;", [8593]); ("Sigma;", [931]); ("SmallCircle;", [8728]);
   ("Sopf;", [55349; 56650]); ("Sqrt;", [8730]); ("Square;", [9633]);
   ("SquareIntersection;", [8851]); ("SquareSubset;", [8847]);
   ("SquareSubsetEqual;", [8849]); ("SquareSuperset;", [8848]);
   ("SquareSupersetEqual;", [8850]); ("SquareUnion;", [8852]);
   ("Sscr;", [55349; 56494]); ("Star;", [8902]); ("Sub;", [8912]);
   ("Subset;", [8912]); ("SubsetEqual;", [8838]); ("Succeeds;", [8827]);
   ("SucceedsEqual;", [10928]); ("SucceedsSlantEqual;", [8829]);
   ("SucceedsTilde;", [8831]); ("SuchThat;", [8715]); ("Sum;", [8721]);
   ("Sup;", [8913]); ("Superset;", [8835]); ("SupersetEqual;", [8839]);
   ("Supset;", [8913])].

Definition namedReferences_capT : list (string * jsstring) :=
  [("THORN", [222]); ("THORN;", [222]); ("TRADE;", [8482]); ("TSHcy;", [1035]);
   ("TScy;", [1062]); ("Tab;", [9]); ("Tau;", [932]); ("Tcaron;", [356]);
   ("Tcedil;", [354]); ("Tcy;", [1058]); ("Tfr;", [55349; 56599]);
   ("Therefore;", [8756]); ("Theta;", [920]); ("ThickSpace;", [8287; 8202]);
   ("ThinSpace;", [8201]); ("Tilde;", [8764]); ("TildeEqual;", [8771]);
   ("TildeFullEqual;", [8773]); ("TildeTilde;", [8776]);
   ("Topf;", [55349; 56651]); ("TripleDot;", [8411]);
   ("Tscr;", [55349; 56495]); ("Tstrok;", [358])].

Definition namedReferences_capU : list (string * jsstring) :=
  [("Uacute", [218]); ("Uacute;", [218]); ("Uarr;", [8607]);
   ("Uarrocir;", [10569]); ("Ubrcy;", [1038]); ("Ubreve;", [364]);
   ("Ucirc", [219]); ("Ucirc;", [219]); ("Ucy;", [1059]); ("Udblac;", [368]);
   ("Ufr;", [55349; 56600]); ("Ugrave", [217]); ("Ugrave;", [217]);
   ("Umacr;", [362]); ("UnderBar;", [95]); ("UnderBrace;", [9183]);
   ("UnderBracket;", [9141]); ("UnderParenthesis;", [9181]);
   ("Union;", [8899]); ("UnionPlus;", [8846]); ("Uogon;", [370]);
   ("Uopf;", [55349; 56652]); ("UpArrow;", [8593]); ("UpArrowBar;", [10514]);
   ("UpArrowDownArrow;", [8645]); ("UpDownArrow;", [8597]);
   ("UpEquilibrium;", [10606]); ("UpTee;", [8869]); ("UpTeeArrow;", [8613]);
   ("Uparrow;", [8657]); ("Updownarrow;", [8661]); ("UpperLeftArrow;", [8598]);
   ("UpperRightArrow;", [8599]); ("Upsi;", [978]); ("Upsilon;", [933]);
   ("Uring;", [366]); ("Uscr;", [55349; 56496]); ("Utilde;", [360]);
   ("Uuml", [220]); ("Uuml;", [220])].

Definition namedReferences_capV : list (string * jsstring) :=
  [("VDash;", [8875]); ("Vbar;", [10987]); ("Vcy;", [1042]);
   ("Vdash;", [8873]); ("Vdashl;", [10982]); ("Vee;", [8897]);
   ("Verbar;", [8214]); ("Vert;", [8214]); ("VerticalBar;", [8739]);
   ("VerticalLine;", [124]); ("VerticalSeparator;", [10072]);
   ("VerticalTilde;", [8768]); ("VeryThinSpace;", [8202]);
   ("Vfr;", [55349; 56601]); ("Vopf;", [55349; 56653]);
   ("Vscr;", [55349; 56497]); ("Vvdash;", [8874])].

Definition namedReferences_capW : list (string * jsstring) :=
  [("Wcirc;", [372]); ("Wedge;", [8896]); ("Wfr;", [55349; 56602]);
   ("Wopf;", [55349; 56654]); ("Wscr;", [55349; 56498])].

Definition namedReferences_capX : list (string * jsstring) :=
  [("Xfr;", [55349; 56603]); ("Xi;", [926]); ("Xopf;", [55349; 56655]);
   ("Xscr;", [55349; 56499])].

Definition namedReferences_capY : list (string * jsstring) :=
  [("YAcy;", [1071]); ("YIcy;", [1031]); ("YUcy;", [1070]); ("Yacute", [221]);
   ("Yacute;", [221]); ("Ycirc;", [374]); ("Ycy;", [1067]);
   ("Yfr;", [55349; 56604]); ("Yopf;", [55349; 56656]);
   ("Yscr;", [55349; 56500]); ("Yuml;", [376])].

Definition namedReferences_capZ : list (string * jsstring) :=
  [("ZHcy;", [1046]); ("Zacute;", [377]); ("Zcaron;", [381]); ("Zcy;", [1047]);
   ("Zdot;", [379]); ("ZeroWidthSpace;", [8203]); ("Zeta;", [918]);
   ("Zfr;", [8488]); ("Zopf;", [8484]); ("Zscr;", [55349; 56501])].

Definition namedReferences_a : list (string * jsstring) :=
  [("aacute", [225]); ("aacute;", [225]); ("abreve;", [259]); ("ac;", [8766]);
   ("acE;", [8766; 819]); ("acd;", [8767]); ("acirc", [226]);
   ("acirc;", [226]); ("acute", [180]); ("acute;", [180]); ("acy;", [1072]);
   ("aelig", [230]); ("aelig;", [230]); ("af;", [8289]);
   ("afr;", [55349; 56606]); ("agrave", [224]); ("agrave;", [224]);
   ("alefsym;", [8501]); ("aleph;", [8501]); ("alpha;", [945]);
   ("amacr;", [257]); ("amalg;", [10815]); ("amp", [38]); ("amp;", [38]);
   ("and;", [8743]); ("andand;", [10837]); ("andd;", [10844]);
   ("andslope;", [10840]); ("andv;", [10842]); ("ang;", [8736]);
   ("ange;", [10660]); ("angle;", [8736]); ("angmsd;", [8737]);
   ("angmsdaa;", [10664]); ("angmsdab;", [10665]); ("angmsdac;", [10666]);
   ("angmsdad;", [10667]); ("angmsdae;", [10668]); ("angmsdaf;", [10669]);
   ("angmsdag;", [10670]); ("angmsdah;", [10671]); ("angrt;", [8735]);
   ("angrtvb;", [8894]); ("angrtvbd;", [10653]); ("angsph;", [8738]);
   ("angst;", [197]); ("angzarr;", [9084]); ("aogon;", [261]);
   ("aopf;", [55349; 56658]); ("ap;", [8776]); ("apE;", [10864]);
   ("apacir;", [10863]); ("ape;", [8778]); ("apid;", [8779]); ("apos;", [39]);
   ("approx;", [8776]); ("approxeq;", [8778]); ("aring", [229]);
   ("aring;", [229]); ("ascr;", [55349; 56502]); ("ast;", [42]);
   ("asymp;", [8776]); ("asympeq;", [8781]); ("atilde", [227]);
   ("atilde;", [227]); ("auml", [228]); ("auml;", [228]);
   ("awconint;", [8755]); ("awint;", [10769])].

Definition namedReferences_b : list (string * jsstring) :=
  [("bNot;", [10989]); ("backcong;", [8780]); ("backepsilon;", [1014]);
   ("backprime;", [8245]); ("backsim;", [8765]); ("backsimeq;", [8909]);
   ("barvee;", [8893]); ("barwed;", [8965]); ("barwedge;", [8965]);
   ("bbrk;", [9141]); ("bbrktbrk;", [9142]); ("bcong;", [8780]);
   ("bcy;", [1073]); ("bdquo;", [8222]); ("becaus;", [8757]);
   ("because;", [8757]); ("bemptyv;", [10672]); ("bepsi;", [1014]);
   ("bernou;", [8492]); ("beta;", [946]); ("beth;", [8502]);
   ("between;", [8812]); ("bfr;", [55349; 56607]); ("bigcap;", [8898]);
   ("bigcirc;", [9711]); ("bigcup;", [8899]); ("bigodot;", [10752]);
   ("bigoplus;", [10753]); ("bigotimes;", [10754]); ("bigsqcup;", [10758]);
   ("bigstar;", [9733]); ("bigtriangledown;", [9661]);
   ("bigtriangleup;", [9651]); ("biguplus;", [10756]); ("bigvee;", [8897]);
   ("bigwedge;", [8896]); ("bkarow;", [10509]); ("blacklozenge;", [10731]);
   ("blacksquare;", [9642]); ("blacktriangle;", [9652]);
   ("blacktriangledown;", [9662]); ("blacktriangleleft;", [9666]);
   ("blacktriangleright;", [9656]); ("blank;", [9251]); ("blk12;", [9618]);
   ("blk14;", [9617]); ("blk34;", [9619]); ("block;", [9608]);
   ("bne;", [61; 8421]); ("bnequiv;", [8801; 8421]); ("bnot;", [8976]);
   ("bopf;", [55349; 56659]); ("bot;", [8869]); ("bottom;", [8869]);
   ("bowtie;", [8904]); ("boxDL;", [9559]); ("boxDR;", [9556]);
   ("boxDl;", [9558]); ("boxDr;", [9555]); ("boxH;", [9552]);
   ("boxHD;", [9574]); ("boxHU;", [9577]); ("boxHd;", [9572]);
   ("boxHu;", [9575]); ("boxUL;", [9565]); ("boxUR;", [9562]);
   ("boxUl;", [9564]); ("boxUr;", [9561]); ("boxV;", [9553]);
   ("boxVH;", [9580]); ("boxVL;", [9571]); ("boxVR;", [9568]);
   ("boxVh;", [9579]); ("boxVl;", [9570]); ("boxVr;", [9567]);
   ("boxbox;", [10697]); ("boxdL;", [9557]); ("boxdR;", [9554]);
   ("boxdl;", [9488]); ("boxdr;", [9484]); ("boxh;", [9472]);
   ("boxhD;", [9573]); ("boxhU;", [9576]); ("boxhd;", [9516]);
   ("boxhu;", [9524]); ("boxminus;", [8863]); ("boxplus;", [8862]);
   ("boxtimes;", [8864]); ("boxuL;", [9563]); ("boxuR;", [9560]);
   ("boxul;", [9496]); ("boxur;", [9492]); ("boxv;", [9474]);
   ("boxvH;", [9578]); ("boxvL;", [9569]); ("boxvR;", [9566]);
   ("boxvh;", [9532]); ("boxvl;", [9508]); ("boxvr;", [9500]);
   ("bprime;", [8245]); ("breve;", [728]); ("brvbar", [166]);
   ("brvbar;", [166]); ("bscr;", [55349; 56503]); ("bsemi;", [8271]);
   ("bsim;", [8765]); ("bsime;", [8909]); ("bsol;", [92]); ("bsolb;", [10693]);
   ("bsolhsub;", [10184]); ("bull;", [8226]); ("bullet;", [8226]);
   ("bump;", [8782]); ("bumpE;", [10926]); ("bumpe;", [8783]);
   ("bumpeq;", [8783])].

Definition namedReferences_c : list (string * jsstring) :=
  [("cacute;", [263]); ("cap;", [8745]); ("capand;", [10820]);
   ("capbrcup;", [10825]); ("capcap;", [10827]); ("capcup;", [10823]);
   ("capdot;", [10816]); ("caps;", [8745; 65024]); ("caret;", [8257]);
   ("caron;", [711]); ("ccaps;", [10829]); ("ccaron;", [269]);
   ("ccedil", [231]); ("ccedil;", [231]); ("ccirc;", [265]);
   ("ccups;", [10828]); ("ccupssm;", [10832]); ("cdot;", [267]);
   ("cedil", [184]); ("cedil;", [184]); ("cemptyv;", [10674]); ("cent", [162]);
   ("cent;", [162]); ("centerdot;", [183]); ("cfr;", [55349; 56608]);
   ("chcy;", [1095]); ("check;", [10003]); ("checkmark;", [10003]);
   ("chi;", [967]); ("cir;", [9675]); ("cirE;", [10691]); ("circ;", [710]);
   ("circeq;", [8791]); ("circlearrowleft;", [8634]);
   ("circlearrowright;", [8635]); ("circledR;", [174]); ("circledS;", [9416]);
   ("circledast;", [8859]); ("circledcirc;", [8858]); ("circleddash;", [8861]);
   ("cire;", [8791]); ("cirfnint;", [10768]); ("cirmid;", [10991]);
   ("cirscir;", [10690]); ("clubs;", [9827]); ("clubsuit;", [9827]);
   ("colon;", [58]); ("colone;", [8788]); ("coloneq;", [8788]);
   ("comma;", [44]); ("commat;", [64]); ("comp;", [8705]); ("compfn;", [8728]);
   ("complement;", [8705]); ("complexes;", [8450]); ("cong;", [8773]);
   ("congdot;", [10861]); ("conint;", [8750]); ("copf;", [55349; 56660]);
   ("coprod;", [8720]); ("copy", [169]); ("copy;", [169]); ("copysr;", [8471]);
   ("crarr;", [8629]); ("cross;", [10007]); ("cscr;", [55349; 56504]);
   ("csub;", [10959]); ("csube;", [10961]); ("csup;", [10960]);
   ("csupe;", [10962]); ("ctdot;", [8943]); ("cudarrl;", [10552]);
   ("cudarrr;", [10549]); ("cuepr;", [8926]); ("cuesc;", [8927]);
   ("cularr;", [8630]); ("cularrp;", [10557]); ("cup;", [8746]);
   ("cupbrcap;", [10824]); ("cupcap;", [10822]); ("cupcup;", [10826]);
   ("cupdot;", [8845]); ("cupor;", [10821]); ("cups;", [8746; 65024]);
   ("curarr;", [8631]); ("curarrm;", [10556]); ("curlyeqprec;", [8926]);
   ("curlyeqsucc;", [8927]); ("curlyvee;", [8910]); ("curlywedge;", [8911]);
   ("curren", [164]); ("curren;", [164]); ("curvearrowleft;", [8630]);
   ("curvearrowright;", [8631]); ("cuvee;", [8910]); ("cuwed;", [8911]);
   ("cwconint;", [8754]); ("cwint;", [8753]); ("cylcty;", [9005])].

Definition namedReferences_d : list (string * jsstring) :=
  [("dArr;", [8659]); ("dHar;", [10597]); ("dagger;", [8224]);
   ("daleth;", [8504]); ("darr;", [8595]); ("dash;", [8208]);
   ("dashv;", [8867]); ("dbkarow;", [10511]); ("dblac;", [733]);
   ("dcaron;", [271]); ("dcy;", [1076]); ("dd;", [8518]); ("ddagger;", [8225]);
   ("ddarr;", [8650]); ("ddotseq;", [10871]); ("deg", [176]); ("deg;", [176]);
   ("delta;", [948]); ("demptyv;", [10673]); ("dfisht;", [10623]);
   ("dfr;", [55349; 56609]); ("dharl;", [8643]); ("dharr;", [8642]);
   ("diam;", [8900]); ("diamond;", [8900]); ("diamondsuit;", [9830]);
   ("diams;", [9830]); ("die;", [168]); ("digamma;", [989]);
   ("disin;", [8946]); ("div;", [247]); ("divide", [247]); ("divide;", [247]);
   ("divideontimes;", [8903]); ("divonx;", [8903]); ("djcy;", [1106]);
   ("dlcorn;", [8990]); ("dlcrop;", [8973]); ("dollar;", [36]);
   ("dopf;", [55349; 56661]); ("dot;", [729]); ("doteq;", [8784]);
   ("doteqdot;", [8785]); ("dotminus;", [8760]); ("dotplus;", [8724]);
   ("dotsquare;", [8865]); ("doublebarwedge;", [8966]); ("downarrow;", [8595]);
   ("downdownarrows;", [8650]); ("downharpoonleft;", [8643]);
   ("downharpoonright;", [8642]); ("drbkarow;", [10512]); ("drcorn;", [8991]);
   ("drcrop;", [8972]); ("dscr;", [55349; 56505]); ("dscy;", [1109]);
   ("dsol;", [10742]); ("dstrok;", [273]); ("dtdot;", [8945]);
   ("dtri;", [9663]); ("dtrif;", [9662]); ("duarr;", [8693]);
   ("duhar;", [10607]); ("dwangle;", [10662]); ("dzcy;", [1119]);
   ("dzigrarr;", [10239])].

Definition namedReferences_e : list (string * jsstring) :=
  [("eDDot;", [10871]); ("eDot;", [8785]); ("eacute", [233]);
   ("eacute;", [233]); ("easter;", [10862]); ("ecaron;", [283]);
   ("ecir;", [8790]); ("ecirc", [234]); ("ecirc;", [234]); ("ecolon;", [8789]);
   ("ecy;", [1101]); ("edot;", [279]); ("ee;", [8519]); ("efDot;", [8786]);
   ("efr;", [55349; 56610]); ("eg;", [10906]); ("egrave", [232]);
   ("egrave;", [232]); ("egs;", [10902]); ("egsdot;", [10904]);
   ("el;", [10905]); ("elinters;", [9191]); ("ell;", [8467]);
   ("els;", [10901]); ("elsdot;", [10903]); ("emacr;", [275]);
   ("empty;", [8709]); ("emptyset;", [8709]); ("emptyv;", [8709]);
   ("emsp13;", [8196]); ("emsp14;", [8197]); ("emsp;", [8195]);
   ("eng;", [331]); ("ensp;", [8194]); ("eogon;", [281]);
   ("eopf;", [55349; 56662]); ("epar;", [8917]); ("eparsl;", [10723]);
   ("eplus;", [10865]); ("epsi;", [949]); ("epsilon;", [949]);
   ("epsiv;", [1013]); ("eqcirc;", [8790]); ("eqcolon;", [8789]);
   ("eqsim;", [8770]); ("eqslantgtr;", [10902]); ("eqslantless;", [10901]);
   ("equals;", [61]); ("equest;", [8799]); ("equiv;", [8801]);
   ("equivDD;", [10872]); ("eqvparsl;", [10725]); ("erDot;", [8787]);
   ("erarr;", [10609]); ("escr;", [8495]); ("esdot;", [8784]);
   ("esim;", [8770]); ("eta;", [951]); ("eth", [240]); ("eth;", [240]);
   ("euml", [235]); ("euml;", [235]); ("euro;", [8364]); ("excl;", [33]);
   ("exist;", [8707]); ("expectation;", [8496]); ("exponentiale;", [8519])].

Definition namedReferences_f : list (string * jsstring) :=
  [("fallingdotseq;", [8786]); ("fcy;", [1092]); ("female;", [9792]);
   ("ffilig;", [64259]); ("fflig;", [64256]); ("ffllig;", [64260]);
   ("ffr;", [55349; 56611]); ("filig;", [64257]); ("fjlig;", [102; 106]);
   ("flat;", [9837]); ("fllig;", [64258]); ("fltns;", [9649]);
   ("fnof;", [402]); ("fopf;", [55349; 56663]); ("forall;", [8704]);
   ("fork;", [8916]); ("forkv;", [10969]); ("fpartint;", [10765]);
   ("frac12", [189]); ("frac12;", [189]); ("frac13;", [8531]);
   ("frac14", [188]); ("frac14;", [188]); ("frac15;", [8533]);
   ("frac16;", [8537]); ("frac18;", [8539]); ("frac23;", [8532]);
   ("frac25;", [8534]); ("frac34", [190]); ("frac34;", [190]);
   ("frac35;", [8535]); ("frac38;", [8540]); ("frac45;", [8536]);
   ("frac56;", [8538]); ("frac58;", [8541]); ("frac78;", [8542]);
   ("frasl;", [8260]); ("frown;", [8994]); ("fscr;", [55349; 56507])].

Definition namedReferences_g : list (string * jsstring) :=
  [("gE;", [8807]); ("gEl;", [10892]); ("gacute;", [501]); ("gamma;", [947]);
   ("gammad;", [989]); ("gap;", [10886]); ("gbreve;", [287]);
   ("gcirc;", [285]); ("gcy;", [1075]); ("gdot;", [289]); ("ge;", [8805]);
   ("gel;", [8923]); ("geq;", [8805]); ("geqq;", [8807]);
   ("geqslant;", [10878]); ("ges;", [10878]); ("gescc;", [10921]);
   ("gesdot;", [10880]); ("gesdoto;", [10882]); ("gesdotol;", [10884]);
   ("gesl;", [8923; 65024]); ("gesles;", [10900]); ("gfr;", [55349; 56612]);
   ("gg;", [8811]); ("ggg;", [8921]); ("gimel;", [8503]); ("gjcy;", [1107]);
   ("gl;", [8823]); ("glE;", [10898]); ("gla;", [10917]); ("glj;", [10916]);
   ("gnE;", [8809]); ("gnap;", [10890]); ("gnapprox;", [10890]);
   ("gne;", [10888]); ("gneq;", [10888]); ("gneqq;", [8809]);
   ("gnsim;", [8935]); ("gopf;", [55349; 56664]); ("grave;", [96]);
   ("gscr;", [8458]); ("gsim;", [8819]); ("gsime;", [10894]);
   ("gsiml;", [10896]); ("gt", [62]); ("gt;", [62]); ("gtcc;", [10919]);
   ("gtcir;", [10874]); ("gtdot;", [8919]); ("gtlPar;", [10645]);
   ("gtquest;", [10876]); ("gtrapprox;", [10886]); ("gtrarr;", [10616]);
   ("gtrdot;", [8919]); ("gtreqless;", [8923]); ("gtreqqless;", [10892]);
   ("gtrless;", [8823]); ("gtrsim;", [8819]); ("gvertneqq;", [8809; 65024]);
   ("gvnE;", [8809; 65024])].

Definition namedReferences_h : list (string * jsstring) :=
  [("hArr;", [8660]); ("hairsp;", [8202]); ("half;", [189]);
   ("hamilt;", [8459]); ("hardcy;", [1098]); ("harr;", [8596]);
   ("harrcir;", [10568]); ("harrw;", [8621]); ("hbar;", [8463]);
   ("hcirc;", [293]); ("hearts;", [9829]); ("heartsuit;", [9829]);
   ("hellip;", [8230]); ("hercon;", [8889]); ("hfr;", [55349; 56613]);
   ("hksearow;", [10533]); ("hkswarow;", [10534]); ("hoarr;", [8703]);
   ("homtht;", [8763]); ("hookleftarrow;", [8617]);
   ("hookrightarrow;", [8618]); ("hopf;", [55349; 56665]); ("horbar;", [8213]);
   ("hscr;", [55349; 56509]); ("hslash;", [8463]); ("hstrok;", [295]);
   ("hybull;", [8259]); ("hyphen;", [8208])].

Definition namedReferences_i : list (string * jsstring) :=
  [("iacute", [237]); ("iacute;", [237]); ("ic;", [8291]); ("icirc", [238]);
   ("icirc;", [238]); ("icy;", [1080]); ("iecy;", [1077]); ("iexcl", [161]);
   ("iexcl;", [161]); ("iff;", [8660]); ("ifr;", [55349; 56614]);
   ("igrave", [236]); ("igrave;", [236]); ("ii;", [8520]);
   ("iiiint;", [10764]); ("iiint;", [8749]); ("iinfin;", [10716]);
   ("iiota;", [8489]); ("ijlig;", [307]); ("imacr;", [299]);
   ("image;", [8465]); ("imagline;", [8464]); ("imagpart;", [8465]);
   ("imath;", [305]); ("imof;", [8887]); ("imped;", [437]); ("in;", [8712]);
   ("incare;", [8453]); ("infin;", [8734]); ("infintie;", [10717]);
   ("inodot;", [305]); ("int;", [8747]); ("intcal;", [8890]);
   ("integers;", [8484]); ("intercal;", [8890]); ("intlarhk;", [10775]);
   ("intprod;", [10812]); ("iocy;", [1105]); ("iogon;", [303]);
   ("iopf;", [55349; 56666]); ("iota;", [953]); ("iprod;", [10812]);
   ("iquest", [191]); ("iquest;", [191]); ("iscr;", [55349; 56510]);
   ("isin;", [8712]); ("isinE;", [8953]); ("isindot;", [8949]);
   ("isins;", [8948]); ("isinsv;", [8947]); ("isinv;", [8712]);
   ("it;", [8290]); ("itilde;", [297]); ("iukcy;", [1110]); ("iuml", [239]);
   ("iuml;", [239])].

Definition namedReferences_j : list (string * jsstring) :=
  [("jcirc;", [309]); ("jcy;", [1081]); ("jfr;", [55349; 56615]);
   ("jmath;", [567]); ("jopf;", [55349; 56667]); ("jscr;", [55349; 56511]);
   ("jsercy;", [1112]); ("jukcy;", [1108])].

Definition namedReferences_k : list (string * jsstring) :=
  [("kappa;", [954]); ("kappav;", [1008]); ("kcedil;", [311]);
   ("kcy;", [1082]); ("kfr;", [55349; 56616]); ("kgreen;", [312]);
   ("khcy;", [1093]); ("kjcy;", [1116]); ("kopf;", [55349; 56668]);
   ("kscr;", [55349; 56512])].

Definition namedReferences_l : list (string * jsstring) :=
  [("lAarr;", [8666]); ("lArr;", [8656]); ("lAtail;", [10523]);
   ("lBarr;", [10510]); ("lE;", [8806]); ("lEg;", [10891]); ("lHar;", [10594]);
   ("lacute;", [314]); ("laemptyv;", [10676]); ("lagran;", [8466]);
   ("lambda;", [955]); ("lang;", [10216]); ("langd;", [10641]);
   ("langle;", [10216]); ("lap;", [10885]); ("laquo", [171]);
   ("laquo;", [171]); ("larr;", [8592]); ("larrb;", [8676]);
   ("larrbfs;", [10527]); ("larrfs;", [10525]); ("larrhk;", [8617]);
   ("larrlp;", [8619]); ("larrpl;", [10553]); ("larrsim;", [10611]);
   ("larrtl;", [8610]); ("lat;", [10923]); ("latail;", [10521]);
   ("late;", [10925]); ("lates;", [10925; 65024]); ("lbarr;", [10508]);
   ("lbbrk;", [10098]); ("lbrace;", [123]); ("lbrack;", [91]);
   ("lbrke;", [10635]); ("lbrksld;", [10639]); ("lbrkslu;", [10637]);
   ("lcaron;", [318]); ("lcedil;", [316]); ("lceil;", [8968]);
   ("lcub;", [123]); ("lcy;", [1083]); ("ldca;", [10550]); ("ldquo;", [8220]);
   ("ldquor;", [8222]); ("ldrdhar;", [10599]); ("ldrushar;", [10571]);
   ("ldsh;", [8626]); ("le;", [8804]); ("leftarrow;", [8592]);
   ("leftarrowtail;", [8610]); ("leftharpoondown;", [8637]);
   ("leftharpoonup;", [8636]); ("leftleftarrows;", [8647]);
   ("leftrightarrow;", [8596]); ("leftrightarrows;", [8646]);
   ("leftrightharpoons;", [8651]); ("leftrightsquigarrow;", [8621]);
   ("leftthreetimes;", [8907]); ("leg;", [8922]); ("leq;", [8804]);
   ("leqq;", [8806]); ("leqslant;", [10877]); ("les;", [10877]);
   ("lescc;", [10920]); ("lesdot;", [10879]); ("lesdoto;", [10881]);
   ("lesdotor;", [10883]); ("lesg;", [8922; 65024]); ("lesges;", [10899]);
   ("lessapprox;", [10885]); ("lessdot;", [8918]); ("lesseqgtr;", [8922]);
   ("lesseqqgtr;", [10891]); ("lessgtr;", [8822]); ("lesssim;", [8818]);
   ("lfisht;", [10620]); ("lfloor;", [8970]); ("lfr;", [55349; 56617]);
   ("lg;", [8822]); ("lgE;", [10897]); ("lhard;", [8637]); ("lharu;", [8636]);
   ("lharul;", [10602]); ("lhblk;", [9604]); ("ljcy;", [1113]);
   ("ll;", [8810]); ("llarr;", [8647]); ("llcorner;", [8990]);
   ("llhard;", [10603]); ("lltri;", [9722]); ("lmidot;", [320]);
   ("lmoust;", [9136]); ("lmoustache;", [9136]); ("lnE;", [8808]);
   ("lnap;", [10889]); ("lnapprox;", [10889]); ("lne;", [10887]);
   ("lneq;", [10887]); ("lneqq;", [8808]); ("lnsim;", [8934]);
   ("loang;", [10220]); ("loarr;", [8701]); ("lobrk;", [10214]);
   ("longleftarrow;", [10229]); ("longleftrightarrow;", [10231]);
   ("longmapsto;", [10236]); ("longrightarrow;", [10230]);
   ("looparrowleft;", [8619]); ("looparrowright;", [8620]);
   ("lopar;", [10629]); ("lopf;", [55349; 56669]); ("loplus;", [10797]);
   ("lotimes;", [10804]); ("lowast;", [8727]); ("lowbar;", [95]);
   ("loz;", [9674]); ("lozenge;", [9674]); ("lozf;", [10731]); ("lpar;", [40]);
   ("lparlt;", [10643]); ("lrarr;", [8646]); ("lrcorner;", [8991]);
   ("lrhar;", [8651]); ("lrhard;", [10605]); ("lrm;", [8206]);
   ("lrtri;", [8895]); ("lsaquo;", [8249]); ("lscr;", [55349; 56513]);
   ("lsh;", [8624]); ("lsim;", [8818]); ("lsime;", [10893]);
   ("lsimg;", [10895]); ("lsqb;", [91]); ("lsquo;", [8216]);
   ("lsquor;", [8218]); ("lstrok;", [322]); ("lt", [60]); ("lt;", [60]);
   ("ltcc;", [10918]); ("ltcir;", [10873]); ("ltdot;", [8918]);
   ("lthree;", [8907]); ("ltimes;", [8905]); ("ltlarr;", [10614]);
   ("ltquest;", [10875]); ("ltrPar;", [10646]); ("ltri;", [9667]);
   ("ltrie;", [8884]); ("ltrif;", [9666]); ("lurdshar;", [10570]);
   ("luruhar;", [10598]); ("lvertneqq;", [8808; 65024]);
   ("lvnE;", [8808; 65024])].

Definition namedReferences_m : list (string * jsstring) :=
  [("mDDot;", [8762]); ("macr", [175]); ("macr;", [175]); ("male;", [9794]);
   ("malt;", [10016]); ("maltese;", [10016]); ("map;", [8614]);
   ("mapsto;", [8614]); ("mapstodown;", [8615]); ("mapstoleft;", [8612]);
   ("mapstoup;", [8613]); ("marker;", [9646]); ("mcomma;", [10793]);
   ("mcy;", [1084]); ("mdash;", [8212]); ("measuredangle;", [8737]);
   ("mfr;", [55349; 56618]); ("mho;", [8487]); ("micro", [181]);
   ("micro;", [181]); ("mid;", [8739]); ("midast;", [42]);
   ("midcir;", [10992]); ("middot", [183]); ("middot;", [183]);
   ("minus;", [8722]); ("minusb;", [8863]); ("minusd;", [8760]);
   ("minusdu;", [10794]); ("mlcp;", [10971]); ("mldr;", [8230]);
   ("mnplus;", [8723]); ("models;", [8871]); ("mopf;", [55349; 56670]);
   ("mp;", [8723]); ("mscr;", [55349; 56514]); ("mstpos;", [8766]);
   ("mu;", [956]); ("multimap;", [8888]); ("mumap;", [8888])].

Definition namedReferences_n : list (string * jsstring) :=
  [("nGg;", [8921; 824]); ("nGt;", [8811; 8402]); ("nGtv;", [8811; 824]);
   ("nLeftarrow;", [8653]); ("nLeftrightarrow;", [8654]);
   ("nLl;", [8920; 824]); ("nLt;", [8810; 8402]); ("nLtv;", [8810; 824]);
   ("nRightarrow;", [8655]); ("nVDash;", [8879]); ("nVdash;", [8878]);
   ("nabla;", [8711]); ("nacute;", [324]); ("nang;", [8736; 8402]);
   ("nap;", [8777]); ("napE;", [10864; 824]); ("napid;", [8779; 824]);
   ("napos;", [329]); ("napprox;", [8777]); ("natur;", [9838]);
   ("natural;", [9838]); ("naturals;", [8469]); ("nbsp", [160]);
   ("nbsp;", [160]); ("nbump;", [8782; 824]); ("nbumpe;", [8783; 824]);
   ("ncap;", [10819]); ("ncaron;", [328]); ("ncedil;", [326]);
   ("ncong;", [8775]); ("ncongdot;", [10861; 824]); ("ncup;", [10818]);
   ("ncy;", [1085]); ("ndash;", [8211]); ("ne;", [8800]); ("neArr;", [8663]);
   ("nearhk;", [10532]); ("nearr;", [8599]); ("nearrow;", [8599]);
   ("nedot;", [8784; 824]); ("nequiv;", [8802]); ("nesear;", [10536]);
   ("nesim;", [8770; 824]); ("nexist;", [8708]); ("nexists;", [8708]);
   ("nfr;", [55349; 56619]); ("ngE;", [8807; 824]); ("nge;", [8817]);
   ("ngeq;", [8817]); ("ngeqq;", [8807; 824]); ("ngeqslant;", [10878; 824]);
   ("nges;", [10878; 824]); ("ngsim;", [8821]); ("ngt;", [8815]);
   ("ngtr;", [8815]); ("nhArr;", [8654]); ("nharr;", [8622]);
   ("nhpar;", [10994]); ("ni;", [8715]); ("nis;", [8956]); ("nisd;", [8954]);
   ("niv;", [8715]); ("njcy;", [1114]); ("nlArr;", [8653]);
   ("nlE;", [8806; 824]); ("nlarr;", [8602]); ("nldr;", [8229]);
   ("nle;", [8816]); ("nleftarrow;", [8602]); ("nleftrightarrow;", [8622]);
   ("nleq;", [8816]); ("nleqq;", [8806; 824]); ("nleqslant;", [10877; 824]);
   ("nles;", [10877; 824]); ("nless;", [8814]); ("nlsim;", [8820]);
   ("nlt;", [8814]); ("nltri;", [8938]); ("nltrie;", [8940]);
   ("nmid;", [8740]); ("nopf;", [55349; 56671]); ("not", [172]);
   ("not;", [172]); ("notin;", [8713]); ("notinE;", [8953; 824]);
   ("notindot;", [8949; 824]); ("notinva;", [8713]); ("notinvb;", [8951]);
   ("notinvc;", [8950]); ("notni;", [8716]); ("notniva;", [8716]);
   ("notnivb;", [8958]); ("notnivc;", [8957]); ("npar;", [8742]);
   ("nparallel;", [8742]); ("nparsl;", [11005; 8421]); ("npart;", [8706; 824]);
   ("npolint;", [10772]); ("npr;", [8832]); ("nprcue;", [8928]);
   ("npre;", [10927; 824]); ("nprec;", [8832]); ("npreceq;", [10927; 824]);
   ("nrArr;", [8655]); ("nrarr;", [8603]); ("nrarrc;", [10547; 824]);
   ("nrarrw;", [8605; 824]); ("nrightarrow;", [8603]); ("nrtri;", [8939]);
   ("nrtrie;", [8941]); ("nsc;", [8833]); ("nsccue;", [8929]);
   ("nsce;", [10928; 824]); ("nscr;", [55349; 56515]); ("nshortmid;", [8740]);
   ("nshortparallel;", [8742]); ("nsim;", [8769]); ("nsime;", [8772]);
   ("nsimeq;", [8772]); ("nsmid;", [8740]); ("nspar;", [8742]);
   ("nsqsube;", [8930]); ("nsqsupe;", [8931]); ("nsub;", [8836]);
   ("nsubE;", [10949; 824]); ("nsube;", [8840]); ("nsubset;", [8834; 8402]);
   ("nsubseteq;", [8840]); ("nsubseteqq;", [10949; 824]); ("nsucc;", [8833]);
   ("nsucceq;", [10928; 824]); ("nsup;", [8837]); ("nsupE;", [10950; 824]);
   ("nsupe;", [8841]); ("nsupset;", [8835; 8402]); ("nsupseteq;", [8841]);
   ("nsupseteqq;", [10950; 824]); ("ntgl;", [8825]); ("ntilde", [241]);
   ("ntilde;", [241]); ("ntlg;", [8824]); ("ntriangleleft;", [8938]);
   ("ntrianglelefteq;", [8940]); ("ntriangleright;", [8939]);
   ("ntrianglerighteq;", [8941]); ("nu;", [957]); ("num;", [35]);
   ("numero;", [8470]); ("numsp;", [8199]); ("nvDash;", [8877]);
   ("nvHarr;", [10500]); ("nvap;", [8781; 8402]); ("nvdash;", [8876]);
   ("nvge;", [8805; 8402]); ("nvgt;", [62; 8402]); ("nvinfin;", [10718]);
   ("nvlArr;", [10498]); ("nvle;", [8804; 8402]); ("nvlt;", [60; 8402]);
   ("nvltrie;", [8884; 8402]); ("nvrArr;", [10499]);
   ("nvrtrie;", [8885; 8402]); ("nvsim;", [8764; 8402]); ("nwArr;", [8662]);
   ("nwarhk;", [10531]); ("nwarr;", [8598]); ("nwarrow;", [8598]);
   ("nwnear;", [10535])].

Definition namedReferences_o : list (string * jsstring) :=
  [("oS;", [9416]); ("oacute", [243]); ("oacute;", [243]); ("oast;", [8859]);
   ("ocir;", [8858]); ("ocirc", [244]); ("ocirc;", [244]); ("ocy;", [1086]);
   ("odash;", [8861]); ("odblac;", [337]); ("odiv;", [10808]);
   ("odot;", [8857]); ("odsold;", [10684]); ("oelig;", [339]);
   ("ofcir;", [10687]); ("ofr;", [55349; 56620]); ("ogon;", [731]);
   ("ograve", [242]); ("ograve;", [242]); ("ogt;", [10689]);
   ("ohbar;", [10677]); ("ohm;", [937]); ("oint;", [8750]); ("olarr;", [8634]);
   ("olcir;", [10686]); ("olcross;", [10683]); ("oline;", [8254]);
   ("olt;", [10688]); ("omacr;", [333]); ("omega;", [969]);
   ("omicron;", [959]); ("omid;", [10678]); ("ominus;", [8854]);
   ("oopf;", [55349; 56672]); ("opar;", [10679]); ("operp;", [10681]);
   ("oplus;", [8853]); ("or;", [8744]); ("orarr;", [8635]); ("ord;", [10845]);
   ("order;", [8500]); ("orderof;", [8500]); ("ordf", [170]); ("ordf;", [170]);
   ("ordm", [186]); ("ordm;", [186]); ("origof;", [8886]); ("oror;", [10838]);
   ("orslope;", [10839]); ("orv;", [10843]); ("oscr;", [8500]);
   ("oslash", [248]); ("oslash;", [248]); ("osol;", [8856]); ("otilde", [245]);
   ("otilde;", [245]); ("otimes;", [8855]); ("otimesas;", [10806]);
   ("ouml", [246]); ("ouml;", [246]); ("ovbar;", [9021])].

Definition namedReferences_p : list (string * jsstring) :=
  [("par;", [8741]); ("para", [182]); ("para;", [182]); ("parallel;", [8741]);
   ("parsim;", [10995]); ("parsl;", [11005]); ("part;", [8706]);
   ("pcy;", [1087]); ("percnt;", [37]); ("period;", [46]); ("permil;", [8240]);
   ("perp;", [8869]); ("pertenk;", [8241]); ("pfr;", [55349; 56621]);
   ("phi;", [966]); ("phiv;", [981]); ("phmmat;", [8499]); ("phone;", [9742]);
   ("pi;", [960]); ("pitchfork;", [8916]); ("piv;", [982]);
   ("planck;", [8463]); ("planckh;", [8462]); ("plankv;", [8463]);
   ("plus;", [43]); ("plusacir;", [10787]); ("plusb;", [8862]);
   ("pluscir;", [10786]); ("plusdo;", [8724]); ("plusdu;", [10789]);
   ("pluse;", [10866]); ("plusmn", [177]); ("plusmn;", [177]);
   ("plussim;", [10790]); ("plustwo;", [10791]); ("pm;", [177]);
   ("pointint;", [10773]); ("popf;", [55349; 56673]); ("pound", [163]);
   ("pound;", [163]); ("pr;", [8826]); ("prE;", [10931]); ("prap;", [10935]);
   ("prcue;", [8828]); ("pre;", [10927]); ("prec;", [8826]);
   ("precapprox;", [10935]); ("preccurlyeq;", [8828]); ("preceq;", [10927]);
   ("precnapprox;", [10937]); ("precneqq;", [10933]); ("precnsim;", [8936]);
   ("precsim;", [8830]); ("prime;", [8242]); ("primes;", [8473]);
   ("prnE;", [10933]); ("prnap;", [10937]); ("prnsim;", [8936]);
   ("prod;", [8719]); ("profalar;", [9006]); ("profline;", [8978]);
   ("profsurf;", [8979]); ("prop;", [8733]); ("propto;", [8733]);
   ("prsim;", [8830]); ("prurel;", [8880]); ("pscr;", [55349; 56517]);
   ("psi;", [968]); ("puncsp;", [8200])].

Definition namedReferences_q : list (string * jsstring) :=
  [("qfr;", [55349; 56622]); ("qint;", [10764]); ("qopf;", [55349; 56674]);
   ("qprime;", [8279]); ("qscr;", [55349; 56518]); ("quaternions;", [8461]);
   ("quatint;", [10774]); ("quest;", [63]); ("questeq;", [8799]);
   ("quot", [34]); ("quot;", [34])].

Definition namedReferences_r : list (string * jsstring) :=
  [("rAarr;", [8667]); ("rArr;", [8658]); ("rAtail;", [10524]);
   ("rBarr;", [10511]); ("rHar;", [10596]); ("race;", [8765; 817]);
   ("racute;", [341]); ("radic;", [8730]); ("raemptyv;", [10675]);
   ("rang;", [10217]); ("rangd;", [10642]); ("range;", [10661]);
   ("rangle;", [10217]); ("raquo", [187]); ("raquo;", [187]);
   ("rarr;", [8594]); ("rarrap;", [10613]); ("rarrb;", [8677]);
   ("rarrbfs;", [10528]); ("rarrc;", [10547]); ("rarrfs;", [10526]);
   ("rarrhk;", [8618]); ("rarrlp;", [8620]); ("rarrpl;", [10565]);
   ("rarrsim;", [10612]); ("rarrtl;", [8611]); ("rarrw;", [8605]);
   ("ratail;", [10522]); ("ratio;", [8758]); ("rationals;", [8474]);
   ("rbarr;", [10509]); ("rbbrk;", [10099]); ("rbrace;", [125]);
   ("rbrack;", [93]); ("rbrke;", [10636]); ("rbrksld;", [10638]);
   ("rbrkslu;", [10640]); ("rcaron;", [345]); ("rcedil;", [343]);
   ("rceil;", [8969]); ("rcub;", [125]); ("rcy;", [1088]); ("rdca;", [10551]);
   ("rdldhar;", [10601]); ("rdquo;", [8221]); ("rdquor;", [8221]);
   ("rdsh;", [8627]); ("real;", [8476]); ("realine;", [8475]);
   ("realpart;", [8476]); ("reals;", [8477]); ("rect;", [9645]);
   ("reg", [174]); ("reg;", [174]); ("rfisht;", [10621]); ("rfloor;", [8971]);
   ("rfr;", [55349; 56623]); ("rhard;", [8641]); ("rharu;", [8640]);
   ("rharul;", [10604]); ("rho;", [961]); ("rhov;", [1009]);
   ("rightarrow;", [8594]); ("rightarrowtail;", [8611]);
   ("rightharpoondown;", [8641]); ("rightharpoonup;", [8640]);
   ("rightleftarrows;", [8644]); ("rightleftharpoons;", [8652]);
   ("rightrightarrows;", [8649]); ("rightsquigarrow;", [8605]);
   ("rightthreetimes;", [8908]); ("ring;", [730]); ("risingdotseq;", [8787]);
   ("rlarr;", [8644]); ("rlhar;", [8652]); ("rlm;", [8207]);
   ("rmoust;", [9137]); ("rmoustache;", [9137]); ("rnmid;", [10990]);
   ("roang;", [10221]); ("roarr;", [8702]); ("robrk;", [10215]);
   ("ropar;", [10630]); ("ropf;", [55349; 56675]); ("roplus;", [10798]);
   ("rotimes;", [10805]); ("rpar;", [41]); ("rpargt;", [10644]);
   ("rppolint;", [10770]); ("rrarr;", [8649]); ("rsaquo;", [8250]);
   ("rscr;", [55349; 56519]); ("rsh;", [8625]); ("rsqb;", [93]);
   ("rsquo;", [8217]); ("rsquor;", [8217]); ("rthree;", [8908]);
   ("rtimes;", [8906]); ("rtri;", [9657]); ("rtrie;", [8885]);
   ("rtrif;", [9656]); ("rtriltri;", [10702]); ("ruluhar;", [10600]);
   ("rx;", [8478])].

Definition namedReferences_s : list (string * jsstring) :=
  [("sacute;", [347]); ("sbquo;", [8218]); ("sc;", [8827]); ("scE;", [10932]);
   ("scap;", [10936]); ("scaron;", [353]); ("sccue;", [8829]);
   ("sce;", [10928]); ("scedil;", [351]); ("scirc;", [349]);
   ("scnE;", [10934]); ("scnap;", [10938]); ("scnsim;", [8937]);
   ("scpolint;", [10771]); ("scsim;", [8831]); ("scy;", [1089]);
   ("sdot;", [8901]); ("sdotb;", [8865]); ("sdote;", [10854]);
   ("seArr;", [8664]); ("searhk;", [10533]); ("searr;", [8600]);
   ("searrow;", [8600]); ("sect", [167]); ("sect;", [167]); ("semi;", [59]);
   ("seswar;", [10537]); ("setminus;", [8726]); ("setmn;", [8726]);
   ("sext;", [10038]); ("sfr;", [55349; 56624]); ("sfrown;", [8994]);
   ("sharp;", [9839]); ("shchcy;", [1097]); ("shcy;", [1096]);
   ("shortmid;", [8739]); ("shortparallel;", [8741]); ("shy", [173]);
   ("shy;", [173]); ("sigma;", [963]); ("sigmaf;", [962]); ("sigmav;", [962]);
   ("sim;", [8764]); ("simdot;", [10858]); ("sime;", [8771]);
   ("simeq;", [8771]); ("simg;", [10910]); ("simgE;", [10912]);
   ("siml;", [10909]); ("simlE;", [10911]); ("simne;", [8774]);
   ("simplus;", [10788]); ("simrarr;", [10610]); ("slarr;", [8592]);
   ("smallsetminus;", [8726]); ("smashp;", [10803]); ("smeparsl;", [10724]);
   ("smid;", [8739]); ("smile;", [8995]); ("smt;", [10922]);
   ("smte;", [10924]); ("smtes;", [10924; 65024]); ("softcy;", [1100]);
   ("sol;", [47]); ("solb;", [10692]); ("solbar;", [9023]);
   ("sopf;", [55349; 56676]); ("spades;", [9824]); ("spadesuit;", [9824]);
   ("spar;", [8741]); ("sqcap;", [8851]); ("sqcaps;", [8851; 65024]);
   ("sqcup;", [8852]); ("sqcups;", [8852; 65024]); ("sqsub;", [8847]);
   ("sqsube;", [8849]); ("sqsubset;", [8847]); ("sqsubseteq;", [8849]);
   ("sqsup;", [8848]); ("sqsupe;", [8850]); ("sqsupset;", [8848]);
   ("sqsupseteq;", [8850]); ("squ;", [9633]); ("square;", [9633]);
   ("squarf;", [9642]); ("squf;", [9642]); ("srarr;", [8594]);
   ("sscr;", [55349; 56520]); ("ssetmn;", [8726]); ("ssmile;", [8995]);
   ("sstarf;", [8902]); ("star;", [9734]); ("starf;", [9733]);
   ("straightepsilon;", [1013]); ("straightphi;", [981]); ("strns;", [175]);
   ("sub;", [8834]); ("subE;", [10949]); ("subdot;", [10941]);
   ("sube;", [8838]); ("subedot;", [10947]); ("submult;", [10945]);
   ("subnE;", [10955]); ("subne;", [8842]); ("subplus;", [10943]);
   ("subrarr;", [10617]); ("subset;", [8834]); ("subseteq;", [8838]);
   ("subseteqq;", [10949]); ("subsetneq;", [8842]); ("subsetneqq;", [10955]);
   ("subsim;", [10951]); ("subsub;", [10965]); ("subsup;", [10963]);
   ("succ;", [8827]); ("succapprox;", [10936]); ("succcurlyeq;", [8829]);
   ("succeq;", [10928]); ("succnapprox;", [10938]); ("succneqq;", [10934]);
   ("succnsim;", [8937]); ("succsim;", [8831]); ("sum;", [8721]);
   ("sung;", [9834]); ("sup1", [185]); ("sup1;", [185]); ("sup2", [178]);
   ("sup2;", [178]); ("sup3", [179]); ("sup3;", [179]); ("sup;", [8835]);
   ("supE;", [10950]); ("supdot;", [10942]); ("supdsub;", [10968]);
   ("supe;", [8839]); ("supedot;", [10948]); ("suphsol;", [10185]);
   ("suphsub;", [10967]); ("suplarr;", [10619]); ("supmult;", [10946]);
   ("supnE;", [10956]); ("supne;", [8843]); ("supplus;", [10944]);
   ("supset;", [8835]); ("supseteq;", [8839]); ("supseteqq;", [10950]);
   ("supsetneq;", [8843]); ("supsetneqq;", [10956]); ("supsim;", [10952]);
   ("supsub;", [10964]); ("supsup;", [10966]); ("swArr;", [8665]);
   ("swarhk;", [10534]); ("swarr;", [8601]); ("swarrow;", [8601]);
   ("swnwar;", [10538]); ("szlig", [223]); ("szlig;", [223])].

Definition namedReferences_t : list (string * jsstring) :=
  [("target;", [8982]); ("tau;", [964]); ("tbrk;", [9140]); ("tcaron;", [357]);
   ("tcedil;", [355]); ("tcy;", [1090]); ("tdot;", [8411]);
   ("telrec;", [8981]); ("tfr;", [55349; 56625]); ("there4;", [8756]);
   ("therefore;", [8756]); ("theta;", [952]); ("thetasym;", [977]);
   ("thetav;", [977]); ("thickapprox;", [8776]); ("thicksim;", [8764]);
   ("thinsp;", [8201]); ("thkap;", [8776]); ("thksim;", [8764]);
   ("thorn", [254]); ("thorn;", [254]); ("tilde;", [732]); ("times", [215]);
   ("times;", [215]); ("timesb;", [8864]); ("timesbar;", [10801]);
   ("timesd;", [10800]); ("tint;", [8749]); ("toea;", [10536]);
   ("top;", [8868]); ("topbot;", [9014]); ("topcir;", [10993]);
   ("topf;", [55349; 56677]); ("topfork;", [10970]); ("tosa;", [10537]);
   ("tprime;", [8244]); ("trade;", [8482]); ("triangle;", [9653]);
   ("triangledown;", [9663]); ("triangleleft;", [9667]);
   ("trianglelefteq;", [8884]); ("triangleq;", [8796]);
   ("triangleright;", [9657]); ("trianglerighteq;", [8885]);
   ("tridot;", [9708]); ("trie;", [8796]); ("triminus;", [10810]);
   ("triplus;", [10809]); ("trisb;", [10701]); ("tritime;", [10811]);
   ("trpezium;", [9186]); ("tscr;", [55349; 56521]); ("tscy;", [1094]);
   ("tshcy;", [1115]); ("tstrok;", [359]); ("twixt;", [8812]);
   ("twoheadleftarrow;", [8606]); ("twoheadrightarrow;", [8608])].

Definition namedReferences_u : list (string * jsstring) :=
  [("uArr;", [8657]); ("uHar;", [10595]); ("uacute", [250]);
   ("uacute;", [250]); ("uarr;", [8593]); ("ubrcy;", [1118]);
   ("ubreve;", [365]); ("ucirc", [251]); ("ucirc;", [251]); ("ucy;", [1091]);
   ("udarr;", [8645]); ("udblac;", [369]); ("udhar;", [10606]);
   ("ufisht;", [10622]); ("ufr;", [55349; 56626]); ("ugrave", [249]);
   ("ugrave;", [249]); ("uharl;", [8639]); ("uharr;", [8638]);
   ("uhblk;", [9600]); ("ulcorn;", [8988]); ("ulcorner;", [8988]);
   ("ulcrop;", [8975]); ("ultri;", [9720]); ("umacr;", [363]); ("uml", [168]);
   ("uml;", [168]); ("uogon;", [371]); ("uopf;", [55349; 56678]);
   ("uparrow;", [8593]); ("updownarrow;", [8597]); ("upharpoonleft;", [8639]);
   ("upharpoonright;", [8638]); ("uplus;", [8846]); ("upsi;", [965]);
   ("upsih;", [978]); ("upsilon;", [965]); ("upuparrows;", [8648]);
   ("urcorn;", [8989]); ("urcorner;", [8989]); ("urcrop;", [8974]);
   ("uring;", [367]); ("urtri;", [9721]); ("uscr;", [55349; 56522]);
   ("utdot;", [8944]); ("utilde;", [361]); ("utri;", [9653]);
   ("utrif;", [9652]); ("uuarr;", [8648]); ("uuml", [252]); ("uuml;", [252]);
   ("uwangle;", [10663])].

Definition namedReferences_v : list (string * jsstring) :=
  [("vArr;", [8661]); ("vBar;", [10984]); ("vBarv;", [10985]);
   ("vDash;", [8872]); ("vangrt;", [10652]); ("varepsilon;", [1013]);
   ("varkappa;", [1008]); ("varnothing;", [8709]); ("varphi;", [981]);
   ("varpi;", [982]); ("varpropto;", [8733]); ("varr;", [8597]);
   ("varrho;", [1009]); ("varsigma;", [962]); ("varsubsetneq;", [8842; 65024]);
   ("varsubsetneqq;", [10955; 65024]); ("varsupsetneq;", [8843; 65024]);
   ("varsupsetneqq;", [10956; 65024]); ("vartheta;", [977]);
   ("vartriangleleft;", [8882]); ("vartriangleright;", [8883]);
   ("vcy;", [1074]); ("vdash;", [8866]); ("vee;", [8744]); ("veebar;", [8891]);
   ("veeeq;", [8794]); ("vellip;", [8942]); ("verbar;", [124]);
   ("vert;", [124]); ("vfr;", [55349; 56627]); ("vltri;", [8882]);
   ("vnsub;", [8834; 8402]); ("vnsup;", [8835; 8402]);
   ("vopf;", [55349; 56679]); ("vprop;", [8733]); ("vrtri;", [8883]);
   ("vscr;", [55349; 56523]); ("vsubnE;", [10955; 65024]);
   ("vsubne;", [8842; 65024]); ("vsupnE;", [10956; 65024]);
   ("vsupne;", [8843; 65024]); ("vzigzag;", [10650])].

Definition namedReferences_w : list (string * jsstring) :=
  [("wcirc;", [373]); ("wedbar;", [10847]); ("wedge;", [8743]);
   ("wedgeq;", [8793]); ("weierp;", [8472]); ("wfr;", [55349; 56628]);
   ("wopf;", [55349; 56680]); ("wp;", [8472]); ("wr;", [8768]);
   ("wreath;", [8768]); ("wscr;", [55349; 56524])].

Definition namedReferences_x : list (string * jsstring) :=
  [("xcap;", [8898]); ("xcirc;", [9711]); ("xcup;", [8899]);
   ("xdtri;", [9661]); ("xfr;", [55349; 56629]); ("xhArr;", [10234]);
   ("xharr;", [10231]); ("xi;", [958]); ("xlArr;", [10232]);
   ("xlarr;", [10229]); ("xmap;", [10236]); ("xnis;", [8955]);
   ("xodot;", [10752]); ("xopf;", [55349; 56681]); ("xoplus;", [10753]);
   ("xotime;", [10754]); ("xrArr;", [10233]); ("xrarr;", [10230]);
   ("xscr;", [55349; 56525]); ("xsqcup;", [10758]); ("xuplus;", [10756]);
   ("xutri;", [9651]); ("xvee;", [8897]); ("xwedge;", [8896])].

Definition namedReferences_y : list (string * jsstring) :=
  [("yacute", [253]); ("yacute;", [253]); ("yacy;", [1103]); ("ycirc;", [375]);
   ("ycy;", [1099]); ("yen", [165]); ("yen;", [165]); ("yfr;", [55349; 56630]);
   ("yicy;", [1111]); ("yopf;", [55349; 56682]); ("yscr;", [55349; 56526]);
   ("yucy;", [1102]); ("yuml", [255]); ("yuml;", [255])].

Definition namedReferences_z : list (string * jsstring) :=
  [("zacute;", [378]); ("zcaron;", [382]); ("zcy;", [1079]); ("zdot;", [380]);
   ("zeetrf;", [8488]); ("zeta;", [950]); ("zfr;", [55349; 56631]);
   ("zhcy;", [1078]); ("zigrarr;", [8669]); ("zopf;", [55349; 56683]);
   ("zscr;", [55349; 56527]); ("zwj;", [8205]); ("zwnj;", [8204])].

Local Close Scope string_scope.

(** The named character references of HTML: name (with the semicolon, or
    without it where the standard allows that) and the code units it stands
    for. *)
Definition namedReferences : list (jsstring * jsstring) :=
  map (fun p => (js (fst p), snd p))
    (List.concat
     [namedReferences_capA; namedReferences_capB; namedReferences_capC;
      namedReferences_capD; namedReferences_capE; namedReferences_capF;
      namedReferences_capG; namedReferences_capH; namedReferences_capI;
      namedReferences_capJ; namedReferences_capK; namedReferences_capL;
      namedReferences_capM; namedReferences_capN; namedReferences_capO;
      namedReferences_capP; namedReferences_capQ; namedReferences_capR;
      namedReferences_capS; namedReferences_capT; namedReferences_capU;
      namedReferences_capV; namedReferences_capW; namedReferences_capX;
      namedReferences_capY; namedReferences_capZ; namedReferences_a;
      namedReferences_b; namedReferences_c; namedReferences_d;
      namedReferences_e; namedReferences_f; namedReferences_g;
      namedReferences_h; namedReferences_i; namedReferences_j;
      namedReferences_k; namedReferences_l; namedReferences_m;
      namedReferences_n; namedReferences_o; namedReferences_p;
      namedReferences_q; namedReferences_r; namedReferences_s;
      namedReferences_t; namedReferences_u; namedReferences_v;
      namedReferences_w; namedReferences_x; namedReferences_y;
      namedReferences_z]).

Definition isAsciiAlphanumeric (c : Z) : bool :=
  isAsciiAlpha c || ((48 <=? c) && (c <=? 57)).

(** The longest name the text starts with. *)
Definition longestName (s : jsstring) : option (jsstring * jsstring) :=
  fold_left
    (fun best e =>
       if startsWith (fst e) s then
         match best with
         | Some b =>
           if (List.length (fst b) <? List.length (fst e))%nat
           then Some e else best
         | None => Some e
         end
       else best)
    namedReferences None.

(** A reference by name.  In an attribute, a name without semicolon that is
    followed by [=] or by a letter or digit is no reference. *)
Definition namedReference (attribute : bool) (s : jsstring)
  : option (jsstring * nat) :=
  match longestName s with
  | Some (name, units) =>
    let n := List.length name in
    if attribute && negb (endsWith (js ";") name)
       && match skipn n s with
          | c :: _ => (c =? 61) || isAsciiAlphanumeric c
          | [] => false
          end
    then None
    else Some (units, n)
  | None => None
  end.

(** The character reference after an ampersand: what it stands for and the
    number of code units it covers. *)
Definition referenceAt (attribute : bool) (s : jsstring)
  : option (jsstring * nat) :=
  if startsWith (js "#x") s || startsWith (js "#X") s
  then numericReference 16 2 (skipn 2 s)
  else if startsWith (js "#") s then numericReference 10 1 (skipn 1 s)
  else namedReference attribute s.

(** A text with its character references replaced. *)
Fixpoint decodeReferences (attribute : bool) (skip : nat) (s : jsstring)
  : jsstring :=
  match s with
  | [] => []
  | c :: s' =>
    match skip with
    | S k => decodeReferences attribute k s'
    | O =>
      if c =? 38 then
        match referenceAt attribute s' with
        | Some (units, n) => units ++ decodeReferences attribute n s'
        | None => c :: decodeReferences attribute 0 s'
        end
      else c :: decodeReferences attribute 0 s'
    end
  end.

(** The tokens of a [class] attribute: its value split at white space. *)
Fixpoint classTokens (cur : jsstring) (s : jsstring) : list jsstring :=
  match s with
  | [] => match cur with [] => [] | _ => [rev cur] end
  | c :: s' =>
    if isSpaceChar c then
      match cur with
      | [] => classTokens [] s'
      | _ => rev cur :: classTokens [] s'
      end
    else classTokens (c :: cur) s'
  end.

(** The [class] attribute written as [value] holds the class [cls]. *)
Definition hasClassToken (cls value : jsstring) : bool :=
  existsb (jseqb cls) (classTokens [] (decodeReferences true 0 value)).

(** The kinds of text: content, the text of [title] and [textarea], in which
    character references are replaced too, and the raw text of [script],
    [style] and the like, in which they are not. *)
Inductive textKind : Type := Content | Replaceable | Raw.

(** What the scanner gives: start tags with the value of their [class]
    attribute as written, end tags, and the code units of the text between
    them. *)
Inductive token : Type :=
| StartTag (name : jsstring) (class : option jsstring)
| EndTag (name : jsstring)
| Character (kind : textKind) (c : Z).

(** A tag being read: an end tag or a start tag, its name (lower case, last
    character first) and its [class] attribute, the first one if there are
    several. *)
Record tag : Type := {
  closing : bool;
  tagName : jsstring;
  classValue : option jsstring
}.

Definition startTag (c : Z) : tag :=
  {| closing := false; tagName := [lowerChar c]; classValue := None |}.

Definition endTag (name : jsstring) : tag :=
  {| closing := true; tagName := name; classValue := None |}.

Definition nameChar (t : tag) (c : Z) : tag :=
  {| closing := closing t; tagName := lowerChar c :: tagName t;
     classValue := classValue t |}.

(** The attribute read is recorded in the tag. *)
Definition finishAttribute (t : tag) (n v : jsstring) : tag :=
  match classValue t with
  | None =>
    if jseqb (rev n) (js "class")
    then {| closing := closing t; tagName := tagName t;
            classValue := Some (rev v) |}
    else t
  | Some _ => t
  end.

Inductive quote : Type := DoubleQuoted | SingleQuoted | Unquoted.

(** The states of the scanner.  Names and values are kept last character
    first. *)
Inductive mode : Type :=
| Data
| TagOpen
| EndTagOpen
| TagName (t : tag)
| BeforeAttributeName (t : tag)
| AttributeName (t : tag) (n : jsstring)
| AfterAttributeName (t : tag) (n : jsstring)
| BeforeAttributeValue (t : tag) (n : jsstring)
| AttributeValue (t : tag) (n : jsstring) (q : quote) (v : jsstring)
| AfterAttributeValue (t : tag)
| SelfClosing (t : tag)
| BogusComment
| MarkupDeclaration (seen : jsstring)
| Doctype
| CommentStart
| CommentStartDash
| Comment
| CommentEndDash
| CommentEnd
| CommentEndBang
| RawText (element : jsstring)
| RawLessThan (element : jsstring)
| RawEndTagOpen (element : jsstring)
| RawEndTagName (element : jsstring) (n : jsstring)
| Script (level : nat) (dashes : nat)
| ScriptLessThan (level : nat)
| ScriptEscapeStart
| ScriptEscapeStartDash
| ScriptEndTagOpen (level : nat)
| ScriptEndTagName (level : nat) (n : jsstring)
| ScriptDoubleEscape (level : nat) (n : jsstring)
| PlainText.

(** What follows a start tag: the content of some elements is raw text. *)
Definition contentMode (name : jsstring) : mode :=
  if jseqb name (js "script") then Script 0 0
  else if existsb (jseqb name)
            [js "style"; js "textarea"; js "title"; js "xmp"; js "iframe";
             js "noembed"; js "noframes"; js "noscript"]
  then RawText name
  else if jseqb name (js "plaintext") then PlainText
  else Data.

(** The tag is complete. *)
Definition emitTag (t : tag) : mode * list token :=
  let name := rev (tagName t) in
  if closing t then (Data, [EndTag name])
  else (contentMode name, [StartTag name (classValue t)]).

Definition stepData (c : Z) : mode * list token :=
  if c =? 60 then (TagOpen, []) else (Data, [Character Content c]).

Definition rawCharacter (element : jsstring) (c : Z) : token :=
  Character (if jseqb element (js "title") || jseqb element (js "textarea")
             then Replaceable else Raw) c.

Definition stepRawText (element : jsstring) (c : Z) : mode * list token :=
  if c =? 60 then (RawLessThan element, [])
  else (RawText element, [rawCharacter element c]).

Definition stepScript (level dashes : nat) (c : Z) : mode * list token :=
  match level with
  | O =>
    if c =? 60 then (ScriptLessThan 0, [])
    else (Script 0 0, [Character Raw c])
  | S O =>
    if c =? 45 then (Script 1 (Nat.min 2 (S dashes)), [Character Raw c])
    else if c =? 60 then (ScriptLessThan 1, [])
    else if (c =? 62) && (2 <=? dashes)%nat
    then (Script 0 0, [Character Raw c])
    else (Script 1 0, [Character Raw c])
  | _ =>
    if c =? 45 then (Script 2 (Nat.min 2 (S dashes)), [Character Raw c])
    else if c =? 60 then (ScriptLessThan 2, [Character Raw c])
    else if (c =? 62) && (2 <=? dashes)%nat
    then (Script 0 0, [Character Raw c])
    else (Script 2 0, [Character Raw c])
  end.

(** Text that was held back is given out before the step that follows. *)
Definition after (held : list token) (r : mode * list token)
  : mode * list token :=
  (fst r, held ++ snd r).

Definition stepBeforeAttributeName (t : tag) (c : Z) : mode * list token :=
  if isSpaceChar c then (BeforeAttributeName t, [])
  else if c =? 47 then (SelfClosing t, [])
  else if c =? 62 then emitTag t
  else (AttributeName t [lowerChar c], []).

Definition htmlStep (m : mode) (c : Z) : mode * list token :=
  match m with
  | Data => stepData c
  | TagOpen =>
    if isAsciiAlpha c then (TagName (startTag c), [])
    else if c =? 47 then (EndTagOpen, [])
    else if c =? 33 then (MarkupDeclaration [], [])
    else if c =? 63 then (BogusComment, [])
    else after [Character Content 60] (stepData c)
  | EndTagOpen =>
    if isAsciiAlpha c then (TagName (endTag [lowerChar c]), [])
    else if c =? 62 then (Data, [])
    else (BogusComment, [])
  | TagName t =>
    if isSpaceChar c then (BeforeAttributeName t, [])
    else if c =? 47 then (SelfClosing t, [])
    else if c =? 62 then emitTag t
    else (TagName (nameChar t c), [])
  | BeforeAttributeName t => stepBeforeAttributeName t c
  | AttributeName t n =>
    if isSpaceChar c then (AfterAttributeName t n, [])
    else if c =? 47 then (SelfClosing (finishAttribute t n []), [])
    else if c =? 62 then emitTag (finishAttribute t n [])
    else if c =? 61 then (BeforeAttributeValue t n, [])
    else (AttributeName t (lowerChar c :: n), [])
  | AfterAttributeName t n =>
    if isSpaceChar c then (AfterAttributeName t n, [])
    else if c =? 47 then (SelfClosing (finishAttribute t n []), [])
    else if c =? 61 then (BeforeAttributeValue t n, [])
    else if c =? 62 then emitTag (finishAttribute t n [])
    else (AttributeName (finishAttribute t n []) [lowerChar c], [])
  | BeforeAttributeValue t n =>
    if isSpaceChar c then (BeforeAttributeValue t n, [])
    else if c =? 34 then (AttributeValue t n DoubleQuoted [], [])
    else if c =? 39 then (AttributeValue t n SingleQuoted [], [])
    else if c =? 62 then emitTag (finishAttribute t n [])
    else (AttributeValue t n Unquoted [c], [])
  | AttributeValue t n DoubleQuoted v =>
    if c =? 34 then (AfterAttributeValue (finishAttribute t n v), [])
    else (AttributeValue t n DoubleQuoted (c :: v), [])
  | AttributeValue t n SingleQuoted v =>
    if c =? 39 then (AfterAttributeValue (finishAttribute t n v), [])
    else (AttributeValue t n SingleQuoted (c :: v), [])
  | AttributeValue t n Unquoted v =>
    if isSpaceChar c then (BeforeAttributeName (finishAttribute t n v), [])
    else if c =? 62 then emitTag (finishAttribute t n v)
    else (AttributeValue t n Unquoted (c :: v), [])
  | AfterAttributeValue t => stepBeforeAttributeName t c
  | SelfClosing t =>
    if c =? 62 then emitTag t else stepBeforeAttributeName t c
  | BogusComment => (if c =? 62 then Data else BogusComment, [])
  | MarkupDeclaration seen =>
    let seen' := seen ++ [lowerChar c] in
    if jseqb seen' (js "--") then (CommentStart, [])
    else if jseqb seen' (js "doctype") then (Doctype, [])
    else if startsWith seen' (js "--") || startsWith seen' (js "doctype")
    then (MarkupDeclaration seen', [])
    else (if c =? 62 then Data else BogusComment, [])
  | Doctype => (if c =? 62 then Data else Doctype, [])
  | CommentStart =>
    (if c =? 45 then CommentStartDash
     else if c =? 62 then Data else Comment, [])
  | CommentStartDash =>
    (if c =? 45 then CommentEnd
     else if c =? 62 then Data else Comment, [])
  | Comment => (if c =? 45 then CommentEndDash else Comment, [])
  | CommentEndDash => (if c =? 45 then CommentEnd else Comment, [])
  | CommentEnd =>
    (if c =? 62 then Data
     else if c =? 33 then CommentEndBang
     else if c =? 45 then CommentEnd else Comment, [])
  | CommentEndBang =>
    (if c =? 45 then CommentEndDash
     else if c =? 62 then Data else Comment, [])
  | RawText element => stepRawText element c
  | RawLessThan element =>
    if c =? 47 then (RawEndTagOpen element, [])
    else after [rawCharacter element 60] (stepRawText element c)
  | RawEndTagOpen element =>
    if isAsciiAlpha c then (RawEndTagName element [c], [])
    else after [rawCharacter element 60; rawCharacter element 47]
               (stepRawText element c)
  | RawEndTagName element n =>
    let name := map lowerChar n in
    let held := map (rawCharacter element) (60 :: 47 :: rev n) in
    if isAsciiAlpha c then (RawEndTagName element (c :: n), [])
    else if jseqb (rev name) element then
      if isSpaceChar c then (BeforeAttributeName (endTag name), [])
      else if c =? 47 then (SelfClosing (endTag name), [])
      else if c =? 62 then emitTag (endTag name)
      else after held (stepRawText element c)
    else after held (stepRawText element c)
  | Script level dashes => stepScript level dashes c
  | ScriptLessThan level =>
    match level with
    | O =>
      if c =? 47 then (ScriptEndTagOpen 0, [])
      else if c =? 33
      then (ScriptEscapeStart, [Character Raw 60; Character Raw c])
      else after [Character Raw 60] (stepScript 0 0 c)
    | S O =>
      if c =? 47 then (ScriptEndTagOpen 1, [])
      else if isAsciiAlpha c
      then (ScriptDoubleEscape 1 [lowerChar c],
            [Character Raw 60; Character Raw c])
      else after [Character Raw 60] (stepScript 1 0 c)
    | _ =>
      if c =? 47 then (ScriptDoubleEscape 2 [], [Character Raw c])
      else stepScript 2 0 c
    end
  | ScriptEscapeStart =>
    if c =? 45 then (ScriptEscapeStartDash, [Character Raw c])
    else stepScript 0 0 c
  | ScriptEscapeStartDash =>
    if c =? 45 then (Script 1 2, [Character Raw c])
    else stepScript 0 0 c
  | ScriptEndTagOpen level =>
    if isAsciiAlpha c then (ScriptEndTagName level [c], [])
    else after [Character Raw 60; Character Raw 47] (stepScript level 0 c)
  | ScriptEndTagName level n =>
    let name := map lowerChar n in
    let held := map (Character Raw) (60 :: 47 :: rev n) in
    if isAsciiAlpha c then (ScriptEndTagName level (c :: n), [])
    else if jseqb (rev name) (js "script") then
      if isSpaceChar c then (BeforeAttributeName (endTag name), [])
      else if c =? 47 then (SelfClosing (endTag name), [])
      else if c =? 62 then emitTag (endTag name)
      else after held (stepScript level 0 c)
    else after held (stepScript level 0 c)
  | ScriptDoubleEscape level n =>
    if isAsciiAlpha c
    then (ScriptDoubleEscape level (lowerChar c :: n), [Character Raw c])
    else if isSpaceChar c || (c =? 47) || (c =? 62) then
      (if jseqb (rev n) (js "script")
       then Script (match level with S O => 2 | _ => 1 end) 0
       else Script level 0, [Character Raw c])
    else stepScript level 0 c
  | PlainText => (PlainText, [Character Raw c])
  end.

(** Scanning a text from a state: the state reached and what was read. *)
Fixpoint htmlScan (m : mode) (s : jsstring) : mode * list token :=
  match s with
  | [] => (m, [])
  | c :: s' =>
    let '(m1, ts1) := htmlStep m c in
    let '(m2, ts2) := htmlScan m1 s' in
    (m2, ts1 ++ ts2)
  end.

(** The tokens of a document. *)
Definition htmlTokens (html : jsstring) : list token :=
  snd (htmlScan Data html).

(** The text is complete markup: read as content, it ends as content, outside
    every tag, comment and raw text. *)
Definition completeMarkup (html : jsstring) : bool :=
  match fst (htmlScan Data html) with Data => true | _ => false end.

(** Line breaks as the browser reads them. *)
Fixpoint normalizeNewlines (s : jsstring) : jsstring :=
  match s with
  | [] => []
  | c :: s' =>
    if c =? 13 then
      10 :: match s' with
            | d :: s'' =>
              if d =? 10 then normalizeNewlines s'' else normalizeNewlines s'
            | [] => []
            end
    else c :: normalizeNewlines s'
  end.

(** The text an element shows for content written in it: line breaks
    normalized, character references replaced, NUL dropped. *)
Definition shownText (written : jsstring) : jsstring :=
  filter (fun c => negb (c =? 0))
         (decodeReferences false 0 (normalizeNewlines written)).

(** In [title], [textarea] and raw text NUL is shown as U+FFFD. *)
Definition replaceNul (s : jsstring) : jsstring :=
  map (fun c => if c =? 0 then 65533 else c) s.

(** The text at the start of a token list, and what follows it. *)
Fixpoint textRun (ts : list token) : list (textKind * Z) * list token :=
  match ts with
  | Character kind c :: ts' =>
    let '(run, rest) := textRun ts' in ((kind, c) :: run, rest)
  | _ => ([], ts)
  end.

(** Elements without content. *)
Definition voidElements : list jsstring :=
  [js "area"; js "base"; js "br"; js "col"; js "embed"; js "hr"; js "img";
   js "input"; js "link"; js "meta"; js "source"; js "track"; js "wbr"].

(** A line break right after the start tag of these is dropped. *)
Definition dropsLineBreak (name : jsstring) : bool :=
  existsb (jseqb name) [js "pre"; js "listing"; js "textarea"].

Definition afterLineBreak (name written : jsstring) : jsstring :=
  if dropsLineBreak name then
    match written with
    | c :: t =>
      if c =? 10 then t
      else if c =? 13 then
        match t with
        | d :: t' => if d =? 10 then t' else t
        | [] => t
        end
      else written
    | [] => written
    end
  else written.

(** What the text at the start of the element [name] shows, by its kind. *)
Definition runText (name : jsstring) (run : list (textKind * Z))
  : jsstring :=
  let written := afterLineBreak name (map snd run) in
  match run with
  | (Raw, _) :: _ => replaceNul (normalizeNewlines written)
  | (Replaceable, _) :: _ =>
    decodeReferences false 0 (replaceNul (normalizeNewlines written))
  | _ => shownText written
  end.

(** The text of the element opened just before [ts], when text is all it
    holds: text followed by the end tag of the element; nothing for an
    element without content. *)
Definition contentAfter (name : jsstring) (ts : list token)
  : option jsstring :=
  if existsb (jseqb name) voidElements then Some []
  else
    let '(run, rest) := textRun ts in
    match rest with
    | EndTag n :: _ =>
      if jseqb n name then Some (runText name run) else None
    | _ => None
    end.

(** A start tag whose [class] attribute holds the class. *)
Definition hasClass (cls : jsstring) (t : token) : bool :=
  match t with
  | StartTag _ (Some value) => hasClassToken cls value
  | _ => false
  end.

(** The elements of class [cls] among the tokens, in document order: the
    name of each and its text, when text is all it holds. *)
Fixpoint classContents (cls : jsstring) (ts : list token)
  : list (jsstring * option jsstring) :=
  match ts with
  | [] => []
  | t :: ts' =>
    if hasClass cls t then
      match t with
      | StartTag name _ =>
        (name, contentAfter name ts') :: classContents cls ts'
      | _ => classContents cls ts'
      end
    else classContents cls ts'
  end.

(** A text that reads as itself when written as the content of an element:
    the scanner finds its code units and no tag, comment or raw text in it,
    and the browser shows it as written. *)
Definition plainText (t : jsstring) : Prop :=
  htmlScan Data (t ++ js "</div>")
  = (Data, map (Character Content) t ++ [EndTag (js "div")])
  /\ shownText t = t.

(** The watermark overlays of a document: the elements its style rule
    [.watermark] applies to, each with its text. *)
Definition watermarkOverlays (html : jsstring)
  : list (jsstring * option jsstring) :=
  classContents (js "watermark") (htmlTokens html).

Definition watermarkElements (html : jsstring) : nat :=
  List.length (watermarkOverlays html).

(** The diagram containers of a document: the elements of class [mermaid],
    which the diagram library draws, each with its text. *)
Definition mermaidContainers (html : jsstring)
  : list (jsstring * option jsstring) :=
  classContents (js "mermaid") (htmlTokens html).

(** The composed document up to the rendered body. *)
Definition documentHead (paperFormat paperOrientation : jsstring)
           (hasDiagrams : bool) : jsstring :=
  tplPageRule ++ paperFormat ++ tplSpace ++ paperOrientation
  ++ tplPageBox ++ pageWidth paperFormat
  ++ tplHeight ++ pageHeight paperFormat
  ++ tplContentCss ++ pageWidth paperFormat
  ++ tplMermaidCss ++ mermaidScript hasDiagrams
  ++ tplBodyOpen.

(** ** The conversion pipeline *)

Record RenderPDFOptions : Type := {
  htmlPath : jsstring;
  pdfPath : jsstring;
  runningsPath : jsstring;
  cssPath : jsstring;
  highlightCssPath : jsstring;
  paperFormat : jsstring;
  paperOrientation : jsstring;
  paperBorder : jsstring;
  renderDelay : Z;
  loadTimeout : Z
}.

(** What the pipeline does to the world around it, in order. *)
Inductive effect : Type :=
| MkdirSync (dir : jsstring)
| CloseSync
| WriteFile (file html : jsstring)
| RenderPDF (options : RenderPDFOptions).

(** How the world answers: every call that may fail says whether it does. *)
Record World : Type := {
  existsSync : jsstring -> bool;
  mkdirSync : jsstring -> completion unit;
  (** [mdParser.render], the markdown engine with the highlighter *)
  mdRender : jsstring -> completion jsstring;
  (** [tmp.file]: the error or the path given to its callback *)
  tmpFile : completion jsstring;
  closeSync : completion unit;
  writeFile : jsstring -> jsstring -> completion unit;
  importRenderer : completion unit;
  renderPDF : RenderPDFOptions -> completion bool
}.

(** How the promise a call returns ends: fulfilled, rejected, or left pending
    for ever, either because nothing settles it or because the code before
    does not return. *)
Inductive promise : Type :=
| Fulfilled
| Rejected (e : jsError)
| Pending.

(** [opts.renderDelay] once the diagrams have been looked for. *)
Definition renderDelayFor (markdown : jsstring) : Z :=
  if hasMermaidDiagrams (processMermaidDiagrams markdown) then 10000 else 5000.

Section Server.
Variable path : PathModule.
Variable toLowerCase : jsstring -> jsstring.
(** [__dirname] *)
Variable moduleDir : jsstring.
Variable world : World.

(** The body of the callback given to [tmp.file], an [async] function: an
    exception outside its [try] rejects the promise of the callback, which
    nobody holds, and settles nothing. *)
Definition tmpFileCallback (options : jsstring -> RenderPDFOptions)
           (html : jsstring) : list effect * promise :=
  match tmpFile world with
  | Throw err => ([], Rejected err)
  | Normal tmpHtmlPath =>
    match closeSync world with
    | Throw _ => ([CloseSync], Pending)
    | Normal _ =>
      match writeFile world tmpHtmlPath html with
      | Throw error => ([CloseSync; WriteFile tmpHtmlPath html], Rejected error)
      | Normal _ =>
        match importRenderer world with
        | Throw error =>
          ([CloseSync; WriteFile tmpHtmlPath html], Rejected error)
        | Normal _ =>
          let opts := options tmpHtmlPath in
          ([CloseSync; WriteFile tmpHtmlPath html; RenderPDF opts],
           match renderPDF world opts with
           | Throw error => Rejected error
           | Normal _ => Fulfilled
           end)
        end
      end
    end
  end.

(** The HTML body: protect, render, restore. *)
Definition renderBody (markdown : jsstring) : completion jsstring :=
  htmlContent <- mdRender world
                   (processedMarkdown (processMermaidDiagrams markdown)) ;;
  Normal (restoreMermaidDiagrams htmlContent).

Definition optionsFor (markdown outputPath paperFormat paperOrientation
                       paperBorder tmpHtmlPath : jsstring)
  : RenderPDFOptions :=
  {| htmlPath := tmpHtmlPath;
     pdfPath := outputPath;
     runningsPath := resolve path [moduleDir; js "runnings.js"];
     cssPath := resolve path [moduleDir; js "css"; js "pdf.css"];
     highlightCssPath := [];
     paperFormat := paperFormat;
     paperOrientation := paperOrientation;
     paperBorder := paperBorder;
     renderDelay := renderDelayFor markdown;
     loadTimeout := 60000 |}.

(** The executor of the promise [convertToPdf] returns: an exception it
    throws rejects the promise. *)
Definition convertToPdf (fuel : nat)
           (markdown outputPath paperFormat paperOrientation paperBorder
            watermark : jsstring) : list effect * promise :=
  match getIncrementalPath path (existsSync world) fuel outputPath with
  | None => ([], Pending)
  | Some free =>
    let outputPath := resolve path [free] in
    let outputDir := dirname path outputPath in
    match mkdirSync world outputDir with
    | Throw e => ([MkdirSync outputDir], Rejected e)
    | Normal _ =>
      match renderBody markdown with
      | Throw e => ([MkdirSync outputDir], Rejected e)
      | Normal htmlContent =>
        let html :=
          composeHtml paperFormat paperOrientation
            (hasMermaidDiagrams (processMermaidDiagrams markdown))
            htmlContent watermark in
        let '(effects, p) :=
          tmpFileCallback
            (optionsFor markdown outputPath paperFormat paperOrientation
                        paperBorder) html in
        (MkdirSync outputDir :: effects, p)
      end
    end
  end.

(** [convertToPdf] handed a markdown that is no string: the executor throws
    at [markdownContent.replace], after the directory is made, and the
    exception rejects the promise. *)
Definition convertToPdfNoString (fuel : nat) (outputPath : jsstring)
           (error : jsError) : list effect * promise :=
  match getIncrementalPath path (existsSync world) fuel outputPath with
  | None => ([], Pending)
  | Some free =>
    let outputPath := resolve path [free] in
    let outputDir := dirname path outputPath in
    match mkdirSync world outputDir with
    | Throw e => ([MkdirSync outputDir], Rejected e)
    | Normal _ => ([MkdirSync outputDir], Rejected error)
    end
  end.

(** *** The call handler *)

(** The arguments of a call are not validated: [markdown] and
    [outputFilename], on which the code calls string methods, are any JSON
    value; the other four are as the cast declares them, the code only
    interpolates them and hands them on. *)
Record ToolArguments : Type := {
  markdown : jsValue;
  outputFilename : jsValue;
  argPaperFormat : option jsstring;
  argPaperOrientation : option jsstring;
  argPaperBorder : option jsstring;
  watermark : option jsstring
}.

(** [request.params]: [arguments] may be missing. *)
Record CallToolRequest : Type := {
  name : jsstring;
  arguments : option ToolArguments
}.

(** [process.env] and [process.cwd()]; the latter is taken to return, as the
    functions of [path] are. *)
Record Process : Type := {
  M2P_OUTPUT_DIR : option jsstring;
  HOME : option jsstring;
  cwd : jsstring
}.

Record ToolResult : Type := {
  text : jsstring;
  isError : bool
}.

(** What the handler does: it returns a result, throws, or never answers. *)
Inductive answer : Type :=
| Returns (r : ToolResult)
| Throws (e : jsError)
| NoAnswer.

(** A variable of the environment that is set and not empty. *)
Definition envTruthy (v : option jsstring) : option jsstring :=
  match v with
  | Some s => if truthy s then Some s else None
  | None => None
  end.

Definition outputDirOf (proc : Process) : jsstring :=
  match envTruthy (M2P_OUTPUT_DIR proc) with
  | Some d => resolve path [d]
  | None =>
    match envTruthy (HOME proc) with
    | Some h => resolve path [h]
    | None => resolve path [cwd proc]
    end
  end.

Definition orDefault (v : option jsstring) (d : jsstring) : jsstring :=
  match v with Some s => s | None => d end.

Definition toolName : jsstring := js "create_pdf_from_markdown".

(** [outputFilename.toLowerCase().endsWith('.pdf') ? ... : ...], with the
    default ['output.pdf'] for a missing name: the call of [toLowerCase]
    throws when the name is no string. *)
Definition filenameOf (a : ToolArguments) : completion jsstring :=
  outputFilename <-
    stringReceiver (valueOrDefault (outputFilename a) (js "output.pdf"))
                   (js "outputFilename") (js "toLowerCase") ;;
  Normal (normalizeFilename toLowerCase outputFilename).

(** The path the handler asks for. *)
Definition requestedPath (proc : Process) (a : ToolArguments)
  : completion jsstring :=
  filename <- filenameOf a ;;
  Normal (join path (outputDirOf proc) filename).

(** The arguments the handler gives to [convertToPdf]:
    markdown, outputPath, paperFormat, paperOrientation, paperBorder,
    watermark.  It throws when the file name is no string. *)
Definition convertArguments (proc : Process) (a : ToolArguments)
  : completion
      (jsValue * jsstring * jsstring * jsstring * jsstring * jsstring) :=
  outputPath <- requestedPath proc a ;;
  Normal (markdown a,
          outputPath,
          orDefault (argPaperFormat a) (js "letter"),
          orDefault (argPaperOrientation a) (js "portrait"),
          orDefault (argPaperBorder a) (js "2cm"),
          orDefault (watermark a) []).

(** [await this.convertToPdf(markdown, ...)] for the value the request
    gives as markdown. *)
Definition convertToPdfOf (fuel : nat) (md : jsValue)
           (outputPath pf po pb wm : jsstring) : list effect * promise :=
  match stringReceiver md (js "markdownContent") (js "replace") with
  | Normal markdown => convertToPdf fuel markdown outputPath pf po pb wm
  | Throw error => convertToPdfNoString fuel outputPath error
  end.

Definition callToolHandler (fuel : nat) (proc : Process)
           (request : CallToolRequest) : list effect * answer :=
  if negb (jseqb (name request) toolName) then
    ([], Throws (ErrorObject (js "Unknown tool: " ++ name request)))
  else
    match arguments request with
    | None => ([], Throws cannotDestructure)
    | Some a =>
      match convertArguments proc a with
      | Throw e => ([], Throws e)
      | Normal (md, outputPath, pf, po, pb, wm) =>
        let '(effects, p) := convertToPdfOf fuel md outputPath pf po pb wm in
        (effects,
         match p with
         | Fulfilled =>
           Returns {| text := js "Successfully created PDF at: "
                              ++ resolve path [outputPath];
                      isError := false |}
         | Rejected error =>
           Returns {| text := js "Failed to create PDF: "
                              ++ errorMessageOf error;
                      isError := true |}
         | Pending => NoAnswer
         end)
      end
    end.
End Server.

(** ** A path module for normalized absolute paths

    What [path.posix] computes on the paths the handler builds: an absolute,
    normalized directory joined with a plain file name. *)

Fixpoint dropSlashes (r : jsstring) : jsstring :=
  match r with
  | 47 :: r' => dropSlashes r'
  | _ => r
  end.

(** The reversed path, split at its last slash: the reversed last component
    and the reversed rest, slash included. *)
Fixpoint splitComponent (r : jsstring) : jsstring * jsstring :=
  match r with
  | [] => ([], [])
  | c :: r' =>
    if c =? 47 then ([], r)
    else let '(b, d) := splitComponent r' in (c :: b, d)
  end.

Definition lastComponent (p : jsstring) : jsstring :=
  rev (fst (splitComponent (dropSlashes (rev p)))).

Definition posixDirname (p : jsstring) : jsstring :=
  match p with
  | [] => js "."
  | c :: _ =>
    match snd (splitComponent (dropSlashes (rev p))) with
    | [] => if c =? 47 then js "/" else js "."
    | _ :: d =>
      match rev d with
      | [] => js "/"
      | [47] => js "//"
      | dir => dir
      end
    end
  end.

(** The reversed name, split at its last dot: the reversed extension, dot
    included, when there is a dot. *)
Fixpoint splitDot (r : jsstring) : option jsstring :=
  match r with
  | [] => None
  | c :: r' =>
    if c =? 46 then Some [c]
    else match splitDot r' with
         | Some e => Some (c :: e)
         | None => None
         end
  end.

Definition posixExtname (p : jsstring) : jsstring :=
  let base := lastComponent p in
  match splitDot (rev base) with
  | None => []
  | Some e =>
    if (List.length e =? List.length base)%nat || jseqb base (js "..")
    then [] else rev e
  end.

Definition posixBasename (p ext : jsstring) : jsstring :=
  let base := lastComponent p in
  if truthy ext && endsWith ext base && negb (jseqb ext base)
  then firstn (List.length base - List.length ext) base
  else base.

Definition posixJoin (dir file : jsstring) : jsstring :=
  if jseqb dir (js "/") then dir ++ file else dir ++ js "/" ++ file.

Definition posixResolve (segments : list jsstring) : jsstring :=
  match segments with
  | [] => js "/"
  | p :: rest => fold_left posixJoin rest p
  end.

Definition posixPath : PathModule :=
  {| dirname := posixDirname;
     extname := posixExtname;
     basename := posixBasename;
     join := posixJoin;
     resolve := posixResolve |}.

(** The HTML the markdown engine gives for one line of plain text. *)
Definition renderParagraph (line : jsstring) : jsstring :=
  js "<p>" ++ line ++ js "</p>" ++ [10].

(** ** Vocabulary of the properties *)

(** A string without unpaired surrogates, made of 16-bit code units. *)
Fixpoint wellFormed (s : jsstring) : bool :=
  match s with
  | [] => true
  | c :: s' =>
    (0 <=? c) && (c <? 65536) &&
    (if isHighSurrogate c then
       match s' with
       | d :: s'' => isLowSurrogate d && wellFormed s''
       | [] => false
       end
     else negb (isLowSurrogate c) && wellFormed s')
  end.

Definition isByte (b : Z) : Prop := 0 <= b < 256.

Definition isScalar (c : Z) : Prop :=
  0 <= c < 1114112 /\ ~ (55296 <= c <= 57343).

(** What [replaceAll] writes for a piece when the callback writes [out a]
    for the match [a]. *)
Definition pieceText {A} (out : A -> jsstring) (p : @piece A) : jsstring :=
  match p with
  | Lit c => [c]
  | Match a => out a
  end.

(** What [restoreMermaidDiagrams] writes for a token. *)
Definition restoredToken (decode : jsstring -> option jsstring)
           (encodedCode : jsstring) : jsstring :=
  match decode encodedCode with
  | Some mermaidCode => mermaidDiv mermaidCode
  | None => mermaidErrorDiv
  end.

Definition decodeFails (decode : jsstring -> option jsstring)
           (encodedCode : jsstring) : bool :=
  match decode encodedCode with Some _ => false | None => true end.

(** The document has a fenced diagram block somewhere. *)
Definition containsDiagram (markdownContent : jsstring) : Prop :=
  exists pre code post,
    markdownContent = pre ++ fenceOpen ++ code ++ fenceClose ++ post.

(** The first code unit of a text may belong to a token. *)
Definition headIsPayload (s : jsstring) : bool :=
  match s with
  | [] => false
  | c :: _ => isPayloadChar c
  end.

(** A world in which no file exists yet and every call succeeds; the markdown
    engine sees one line of plain text. *)
Definition quietWorld : World :=
  {| existsSync := fun _ => false;
     mkdirSync := fun _ => Normal tt;
     mdRender := fun s => Normal (renderParagraph s);
     tmpFile := Normal (js "/tmp/tmp-1.html");
     closeSync := Normal tt;
     writeFile := fun _ _ => Normal tt;
     importRenderer := Normal tt;
     renderPDF := fun _ => Normal true |}.

(** The same world, except that closing the temporary file fails. *)
Definition closeFailsWorld : World :=
  {| existsSync := fun _ => false;
     mkdirSync := fun _ => Normal tt;
     mdRender := fun s => Normal (renderParagraph s);
     tmpFile := Normal (js "/tmp/tmp-1.html");
     closeSync := Throw (ErrorObject (js "EIO: i/o error, close"));
     writeFile := fun _ _ => Normal tt;
     importRenderer := Normal tt;
     renderPDF := fun _ => Normal true |}.

Definition homeProcess : Process :=
  {| M2P_OUTPUT_DIR := None; HOME := Some (js "/home/user"); cwd := js "/" |}.

(** What the specification says the highlighter yields: the markup of the
    tagged language when the tag is recognized and highlighting succeeds,
    else the markup of automatic detection, else nothing. *)
Definition highlightSpec (getLanguage : jsstring -> bool)
           (hljsHighlight : jsstring -> jsstring -> completion jsstring)
           (hljsHighlightAuto : jsstring -> completion jsstring)
           (str language : jsstring) : jsstring :=
  let detected :=
    match hljsHighlightAuto str with
    | Normal value => value
    | Throw _ => []
    end in
  if truthy language && getLanguage language then
    match hljsHighlight str language with
    | Normal value => value
    | Throw _ => detected
    end
  else detected.

(** A request that only gives the markdown and a watermark. *)
Definition requestWith (md : jsstring) (wm : option jsstring)
  : CallToolRequest :=
  {| name := toolName;
     arguments := Some {| markdown := Str md;
                          outputFilename := Undefined;
                          argPaperFormat := None;
                          argPaperOrientation := None;
                          argPaperBorder := None;
                          watermark := wm |} |}.

(** No suffix of [a] shorter than [pat] begins an occurrence of [pat] that
    text put after [a] could complete. *)
Fixpoint safeTail (pat a : jsstring) : bool :=
  match a with
  | [] => true
  | _ :: a' =>
    ((List.length pat <=? List.length a)%nat || negb (startsWith a pat))
    && safeTail pat a'
  end.

(** The text does not contain the code unit [x]. *)
Definition without (x : Z) (s : jsstring) : bool :=
  forallb (fun c => negb (c =? x)) s.

(** ** Documents as text and diagram blocks *)

Inductive segment : Type :=
| Text (t : jsstring)
| Diagram (code : jsstring).

(** The markdown of a document. *)
Fixpoint markdownOf (d : list segment) : jsstring :=
  match d with
  | [] => []
  | Text t :: d' => t ++ markdownOf d'
  | Diagram code :: d' => fenceOpen ++ code ++ fenceClose ++ markdownOf d'
  end.

(** The document with a placeholder for every block. *)
Fixpoint protectedOf (d : list segment) : jsstring :=
  match d with
  | [] => []
  | Text t :: d' => t ++ protectedOf d'
  | Diagram code :: d' => placeholderOf code ++ protectedOf d'
  end.

(** The document with a container for every block, around its trimmed body. *)
Fixpoint restoredOf (d : list segment) : jsstring :=
  match d with
  | [] => []
  | Text t :: d' => t ++ restoredOf d'
  | Diagram code :: d' => mermaidDiv (trim code) ++ restoredOf d'
  end.

Definition codesOf (d : list segment) : list jsstring :=
  flat_map (fun s => match s with Text _ => [] | Diagram code => [code] end) d.

(** The text neither contains [pat] nor ends in a proper beginning of it. *)
Definition clean (pat t : jsstring) : bool :=
  (countOccurrences pat t =? 0)%nat && safeTail pat t.

(** Texts that hold no fence and no token; bodies that hold no closing fence,
    are not blank and have no unpaired surrogate; after a block, nothing or a
    code unit that cannot continue its token. *)
Fixpoint wellDelimited (d : list segment) : bool :=
  match d with
  | [] => true
  | Text t :: d' =>
    clean fenceOpen t && clean placeholderPrefix t && wellDelimited d'
  | Diagram code :: d' =>
    clean fenceClose code && truthy (trim code) && wellFormed (trim code)
    && negb (headIsPayload (protectedOf d')) && wellDelimited d'
  end.

(** ** What the two expressions find, said without them

    [String.prototype.replace] with a global expression goes through the text
    from left to right: where a match starts, the match is taken and the
    search goes on behind it; elsewhere the code unit is kept. *)

(** A diagram block starts the text: an opening fence and a closing fence
    somewhere behind it. *)
Definition blockStartsAt (s : jsstring) : Prop :=
  exists code rest, s = fenceOpen ++ code ++ fenceClose ++ rest.

(** The closing fence behind the body is the first one after the opening
    fence: [[\s\S]*?] takes the shortest body. *)
Definition shortestBody (code : jsstring) : Prop :=
  forall a b, code ++ fenceClose = a ++ fenceClose ++ b ->
              (List.length code <= List.length a)%nat.

(** The markdown read as text and diagram blocks. *)
Inductive Blocks : jsstring -> list segment -> Prop :=
| Blocks_end : Blocks [] []
| Blocks_text t s d :
    (forall a b, t = a ++ b -> b <> [] -> ~ blockStartsAt (b ++ s)) ->
    Blocks s d ->
    Blocks (t ++ s) (Text t :: d)
| Blocks_block code rest d :
    shortestBody code ->
    Blocks rest d ->
    Blocks (fenceOpen ++ code ++ fenceClose ++ rest) (Diagram code :: d).

(** A placeholder token starts the text: the prefix and at least one code
    unit of the base64 alphabet. *)
Definition tokenStartsAt (s : jsstring) : Prop :=
  exists c rest, isPayloadChar c = true /\ s = placeholderPrefix ++ c :: rest.

(** The text read as code units and placeholder tokens: a token takes the
    longest payload, [[A-Za-z0-9+/=]+]. *)
Inductive Tokenized : jsstring -> list (@piece jsstring) -> Prop :=
| Tokenized_end : Tokenized [] []
| Tokenized_text c s ps :
    ~ tokenStartsAt (c :: s) ->
    Tokenized s ps ->
    Tokenized (c :: s) (Lit c :: ps)
| Tokenized_token payload rest ps :
    payload <> [] ->
    forallb isPayloadChar payload = true ->
    headIsPayload rest = false ->
    Tokenized rest ps ->
    Tokenized (placeholderPrefix ++ payload ++ rest) (Match payload :: ps).

(** A document as the pieces the block expression finds. *)
Definition blockPieces (d : list segment) : list (@piece jsstring) :=
  flat_map (fun s => match s with
                     | Text t => map (fun c => Lit c) t
                     | Diagram code => [Match code]
                     end) d.

(** A document as the pieces the token expression finds in its protected
    form. *)
Definition tokenPieces (d : list segment) : list (@piece jsstring) :=
  flat_map (fun s => match s with
                     | Text t => map (fun c => Lit c) t
                     | Diagram code =>
                       [Match (base64_encode (utf8_encode (trim code)))]
                     end) d.

(** The texts of a document, between its blocks. *)
Definition textsOf (d : list segment) : list jsstring :=
  flat_map (fun s => match s with Text t => [t] | Diagram _ => [] end) d.

(** The opening tag of a diagram container. *)
Definition mermaidOpen : jsstring :=
  js "<div class=" ++ [34] ++ js "mermaid" ++ [34] ++ js ">".

(** The opening of a script element. *)
Definition scriptOpen : jsstring := js "<script".

(** [String.prototype.toWellFormed]: every unpaired surrogate becomes
    U+FFFD. *)
Fixpoint toWellFormed (s : jsstring) : jsstring :=
  match s with
  | [] => []
  | c :: s' =>
    if isHighSurrogate c then
      match s' with
      | d :: s'' =>
        if isLowSurrogate d then c :: d :: toWellFormed s''
        else 65533 :: toWellFormed s'
      | [] => [65533]
      end
    else if isLowSurrogate c then 65533 :: toWellFormed s'
    else c :: toWellFormed s'
  end.

(** ** Inputs of the examples *)

Definition paddedDiagram : jsstring :=
  fenceOpen ++ js "  graph TD; A-->B " ++ [10] ++ fenceClose ++ js " end".

Definition report : list segment :=
  [Text (js "# Flow" ++ [10; 10]);
   Diagram (js "  graph TD; A-->B " ++ [10]);
   Text ([10] ++ js "Some `code` and ");
   Diagram (js "C-->D");
   Text [10]].

Definition twoDiagrams : jsstring :=
  fenceOpen ++ js " A-->B " ++ [10] ++ fenceClose ++ js " and "
  ++ fenceOpen ++ js "C-->D" ++ fenceClose.

Definition outputPdf : jsstring := js "/home/user/output.pdf".

Definition tooLong : jsstring := js "toolongwatermarktext".

Definition watermarkInDiagram : jsstring :=
  fenceOpen ++ watermarkOpen ++ js "DRAFT</div>" ++ fenceClose.

Definition takenWorld : World :=
  {| existsSync := existsIn [outputPdf];
     mkdirSync := fun _ => Normal tt;
     mdRender := fun s => Normal (renderParagraph s);
     tmpFile := Normal (js "/tmp/tmp-1.html");
     closeSync := Normal tt;
     writeFile := fun _ _ => Normal tt;
     importRenderer := Normal tt;
     renderPDF := fun _ => Normal true |}.

Definition noMarkdown : CallToolRequest :=
  {| name := toolName;
     arguments := Some {| markdown := Undefined;
                          outputFilename := Str (js "notes");
                          argPaperFormat := None;
                          argPaperOrientation := None;
                          argPaperBorder := None;
                          watermark := None |} |}.

(** * Properties *)

(** [lia] reads divisions and remainders by constants. *)
Ltac Zify.zify_post_hook ::= Z.to_euclidean_division_equations.

(** ** Replacing matches piece by piece *)

Section ReplaceFacts.
Context {A St : Type}.
Variable matchAt : jsstring -> option (A * nat).
Variable out : A -> jsstring.
Variable upd : St -> A -> St.

Lemma replaceAll_pieces : forall s skip st,
  replaceAll matchAt (fun a st => (out a, upd st a)) skip s st
  = (flat_map (pieceText out) (pieces matchAt skip s),
     fold_left upd (matches (pieces matchAt skip s)) st).
Proof.
  induction s as [|c s IH]; intros skip st; [reflexivity|].
  cbn [replaceAll pieces]. destruct skip as [|k]; [|apply IH].
  destruct (matchAt (c :: s)) as [[a n]|].
  - rewrite IH. reflexivity.
  - rewrite IH. reflexivity.
Qed.

Lemma pieces_skip : forall s skip,
  pieces matchAt skip s = pieces matchAt 0 (skipn skip s).
Proof.
  induction s as [|c s IH]; intros skip.
  - destruct skip; reflexivity.
  - destruct skip as [|k]; [reflexivity|]. cbn [pieces skipn]. apply IH.
Qed.

Lemma pieces_match c s a n :
  matchAt (c :: s) = Some (a, n) ->
  pieces matchAt 0 (c :: s) = Match a :: pieces matchAt 0 (skipn (n - 1) s).
Proof.
  intros Hm. cbn [pieces]. rewrite Hm. rewrite pieces_skip. reflexivity.
Qed.

Lemma pieces_lit c s :
  matchAt (c :: s) = None ->
  pieces matchAt 0 (c :: s) = Lit c :: pieces matchAt 0 s.
Proof. intros Hm. cbn [pieces]. rewrite Hm. reflexivity. Qed.
End ReplaceFacts.

Lemma startsWith_split p : forall s,
  startsWith p s = true -> s = p ++ skipn (List.length p) s.
Proof.
  induction p as [|x p IH]; intros s H; [reflexivity|].
  destruct s as [|y s]; [discriminate|]. cbn [startsWith] in H.
  apply andb_prop in H. destruct H as [Hxy H]. apply Z.eqb_eq in Hxy. subst y.
  cbn [List.length skipn app]. f_equal. apply IH, H.
Qed.

Lemma startsWith_app p s : startsWith p (p ++ s) = true.
Proof.
  induction p as [|x p IH]; [reflexivity|].
  cbn [app startsWith]. rewrite Z.eqb_refl. exact IH.
Qed.

Lemma lazyUntilFence_split : forall s code n,
  lazyUntilFence s = Some (code, n) ->
  s = code ++ fenceClose ++ skipn n s /\ n = (List.length code + 3)%nat.
Proof.
  induction s as [|c s IH]; intros code n H.
  - cbn in H. discriminate.
  - cbn [lazyUntilFence] in H.
    destruct (startsWith fenceClose (c :: s)) eqn:Hf.
    + inversion H; subst. split; [|reflexivity].
      apply (startsWith_split fenceClose) in Hf. exact Hf.
    + destruct (lazyUntilFence s) as [[b m]|] eqn:Hl; [|discriminate].
      inversion H; subst. destruct (IH _ _ eq_refl) as [Hs Hm].
      split; [|cbn [List.length]; lia].
      cbn [skipn app]. f_equal. exact Hs.
Qed.

Lemma lazyUntilFence_eq s :
  lazyUntilFence s =
  if startsWith fenceClose s then Some ([], 3%nat)
  else match s with
       | [] => None
       | c :: s' =>
         match lazyUntilFence s' with
         | Some (body, n) => Some (c :: body, S n)
         | None => None
         end
       end.
Proof. destruct s; reflexivity. Qed.

Lemma lazyUntilFence_finds : forall code post,
  lazyUntilFence (code ++ fenceClose ++ post) <> None.
Proof.
  induction code as [|c code IH]; intros post.
  - cbn [app]. rewrite lazyUntilFence_eq, startsWith_app. discriminate.
  - cbn [app lazyUntilFence].
    destruct (startsWith fenceClose (c :: code ++ fenceClose ++ post));
      [discriminate|].
    specialize (IH post).
    destruct (lazyUntilFence (code ++ fenceClose ++ post)) as [[b m]|];
      [discriminate | contradiction].
Qed.

Lemma mermaidRegex_split s code n :
  mermaidRegex s = Some (code, n) ->
  s = fenceOpen ++ code ++ fenceClose ++ skipn n s
  /\ n = (11 + List.length code + 3)%nat.
Proof.
  unfold mermaidRegex. intros H.
  destruct (startsWith fenceOpen s) eqn:Hs; [|discriminate].
  destruct (lazyUntilFence (skipn 11 s)) as [[b m]|] eqn:Hl; [|discriminate].
  inversion H; subst. apply lazyUntilFence_split in Hl. destruct Hl as [Hl Hm].
  apply startsWith_split in Hs. change (List.length fenceOpen) with 11%nat in Hs.
  split; [|lia].
  rewrite Hs at 1. f_equal. rewrite Hl at 1. do 2 f_equal.
  rewrite skipn_skipn. f_equal. lia.
Qed.

Lemma mermaidRegex_finds code post :
  mermaidRegex (fenceOpen ++ code ++ fenceClose ++ post) <> None.
Proof.
  unfold mermaidRegex. rewrite startsWith_app.
  change 11%nat with (List.length fenceOpen). rewrite skipn_app, skipn_all.
  rewrite Nat.sub_diag. cbn [skipn app].
  pose proof (lazyUntilFence_finds code post) as H.
  destruct (lazyUntilFence (code ++ fenceClose ++ post)) as [[b m]|];
    [discriminate | contradiction].
Qed.

Lemma mermaidRegex_nonempty s code n :
  mermaidRegex s = Some (code, n) -> exists c s', s = c :: s'.
Proof.
  intros H. destruct s as [|c s']; [discriminate | eauto].
Qed.

(** Some piece of the text after [pre] is a match, whatever [pre] is. *)
Lemma diagramBlocks_found code post : forall pre,
  diagramBlocks (pre ++ fenceOpen ++ code ++ fenceClose ++ post) <> [].
Proof.
  unfold diagramBlocks.
  induction pre as [|c pre IH].
  - cbn [app]. pose proof (mermaidRegex_finds code post) as H.
    destruct (mermaidRegex (fenceOpen ++ code ++ fenceClose ++ post))
      as [[b m]|] eqn:E; [|contradiction].
    destruct (mermaidRegex_nonempty _ _ _ E) as (c & s' & Es).
    rewrite Es in *. rewrite (pieces_match _ _ _ _ _ E). discriminate.
  - cbn [app].
    destruct (mermaidRegex (c :: pre ++ fenceOpen ++ code ++ fenceClose ++ post))
      as [[b m]|] eqn:E.
    + rewrite (pieces_match _ _ _ _ _ E). discriminate.
    + rewrite (pieces_lit _ _ _ E). exact IH.
Qed.

Lemma diagramBlocks_contains : forall md,
  diagramBlocks md <> [] -> containsDiagram md.
Proof.
  unfold diagramBlocks.
  induction md as [md IH] using (induction_ltof1 _ (@List.length Z)).
  unfold ltof in IH. intros H.
  destruct md as [|c md]; [contradiction H; reflexivity|].
  destruct (mermaidRegex (c :: md)) as [[b m]|] eqn:E.
  - apply mermaidRegex_split in E. destruct E as [E _].
    exists [], b, (skipn m (c :: md)). exact E.
  - rewrite (pieces_lit _ _ _ E) in H. cbn in H.
    destruct (IH md) as (pre & code & post & Hmd); [cbn; lia | exact H |].
    exists (c :: pre), code, post. rewrite Hmd. reflexivity.
Qed.

Lemma hasMermaidDiagrams_blocks md :
  hasMermaidDiagrams (processMermaidDiagrams md)
  = match diagramBlocks md with [] => false | _ :: _ => true end.
Proof.
  unfold processMermaidDiagrams, diagramBlocks.
  rewrite (replaceAll_pieces mermaidRegex placeholderOf (fun _ _ => true)).
  cbn [hasMermaidDiagrams].
  generalize (matches (pieces mermaidRegex 0 md)). intros l.
  assert (Ht : forall l' : list jsstring,
             fold_left (fun (_ : bool) (_ : jsstring) => true) l' true = true)
    by (induction l'; auto).
  destruct l; [reflexivity | apply Ht].
Qed.

Lemma hasMermaidDiagrams_iff md :
  hasMermaidDiagrams (processMermaidDiagrams md) = true <-> containsDiagram md.
Proof.
  rewrite hasMermaidDiagrams_blocks. split.
  - intros H. apply diagramBlocks_contains. destruct (diagramBlocks md);
      [discriminate | discriminate].
  - intros (pre & code & post & H). subst md.
    pose proof (diagramBlocks_found code post pre).
    destruct (diagramBlocks _); [contradiction | reflexivity].
Qed.

(** ** Base64 gives the bytes back *)

Ltac ifcase :=
  repeat match goal with
  | |- context [if ?c then _ else _] => destruct c eqn:?
  | H : context [if ?c then _ else _] |- _ => destruct c eqn:?
  end.

Lemma b64_value_char v : 0 <= v < 64 -> b64_value (b64_char v) = Some v.
Proof.
  intros Hv. unfold b64_char, b64_value.
  ifcase; try (exfalso; lia); f_equal; lia.
Qed.

Lemma b64_char_not_pad v : 0 <= v < 64 -> (b64_char v =? 61) = false.
Proof.
  intros Hv. unfold b64_char. ifcase; lia.
Qed.

Lemma b64_sextets_char v s :
  0 <= v < 64 -> b64_sextets (b64_char v :: s) = v :: b64_sextets s.
Proof.
  intros Hv. cbn [b64_sextets].
  rewrite b64_char_not_pad, b64_value_char by assumption. reflexivity.
Qed.

Lemma b64_sextets_pad s : b64_sextets (61 :: s) = [].
Proof. reflexivity. Qed.

Lemma base64_roundtrip_upto (n : nat) : forall bs,
  (List.length bs <= n)%nat ->
  Forall isByte bs -> base64_decode (base64_encode bs) = bs.
Proof.
  unfold base64_decode.
  induction n as [|n IH]; intros bs Hn Hb.
  - destruct bs; [reflexivity | cbn in Hn; lia].
  - destruct bs as [|a [|b [|c rest]]].
    + reflexivity.
    + inversion Hb as [|? ? Ha _]; subst. unfold isByte in Ha.
      cbn [base64_encode].
      rewrite !b64_sextets_char by lia. rewrite b64_sextets_pad. cbn [b64_bytes].
      f_equal. lia.
    + inversion Hb as [|? ? Ha Hb']; subst.
      inversion Hb' as [|? ? Hb2 _]; subst.
      unfold isByte in *. cbn [base64_encode].
      rewrite !b64_sextets_char by lia. rewrite b64_sextets_pad. cbn [b64_bytes].
      f_equal; [lia|]. f_equal. lia.
    + inversion Hb as [|? ? Ha Hb']; subst.
      inversion Hb' as [|? ? Hb2 Hb3]; subst.
      inversion Hb3 as [|? ? Hc Hr]; subst.
      unfold isByte in *. cbn [base64_encode app].
      rewrite !b64_sextets_char by lia. cbn [b64_bytes app].
      rewrite IH; [|cbn [List.length] in Hn; lia|assumption].
      f_equal; [lia|]. f_equal; [lia|]. f_equal. lia.
Qed.

Lemma base64_roundtrip bs :
  Forall isByte bs -> base64_decode (base64_encode bs) = bs.
Proof. apply (base64_roundtrip_upto (List.length bs)). lia. Qed.

(** ** UTF-8 gives well-formed text back *)

Ltac decide_ifs :=
  repeat match goal with
  | |- context [if ?c then _ else _] =>
    first [ replace c with true by lia | replace c with false by lia ];
    cbv iota
  end.

Lemma utf8_decode_scalar c rest :
  isScalar c ->
  utf8_decode_go None (utf8_of_scalar c ++ rest)
  = utf16_of_scalar c ++ utf8_decode_go None rest.
Proof.
  intros [Hr Hs]. unfold utf8_of_scalar.
  destruct (Z.ltb_spec c 128); [|destruct (Z.ltb_spec c 2048);
    [|destruct (Z.ltb_spec c 65536)]].
  - cbn [app utf8_decode_go]. unfold utf8_lead. decide_ifs.
    unfold utf16_of_scalar. decide_ifs. reflexivity.
  - cbn [app utf8_decode_go]. unfold utf8_lead. decide_ifs.
    cbn [app]. decide_ifs.
    replace ((192 + c / 64) mod 32 * 64 + (128 + c mod 64) mod 64) with c by lia.
    reflexivity.
  - cbn [app utf8_decode_go]. unfold utf8_lead. decide_ifs.
    cbn [app].
    destruct (Z.eqb_spec (224 + c / 4096) 224);
    destruct (Z.eqb_spec (224 + c / 4096) 237); decide_ifs;
    match goal with |- utf16_of_scalar ?x ++ _ = _ =>
      replace x with c by lia end; reflexivity.
  - cbn [app utf8_decode_go]. unfold utf8_lead. decide_ifs.
    cbn [app].
    destruct (Z.eqb_spec (240 + c / 262144) 240);
    destruct (Z.eqb_spec (240 + c / 262144) 244); decide_ifs;
    match goal with |- utf16_of_scalar ?x ++ _ = _ =>
      replace x with c by lia end; reflexivity.
Qed.

Lemma utf16_of_pair c d :
  55296 <= c <= 56319 -> 56320 <= d <= 57343 ->
  utf16_of_scalar (65536 + (c - 55296) * 1024 + (d - 56320)) = [c; d].
Proof.
  intros Hc Hd. unfold utf16_of_scalar. decide_ifs.
  f_equal; [lia|]. f_equal. lia.
Qed.

Lemma utf16_of_bmp c : 0 <= c < 65536 -> utf16_of_scalar c = [c].
Proof. intros Hc. unfold utf16_of_scalar. decide_ifs. reflexivity. Qed.

Lemma utf8_roundtrip_upto (n : nat) : forall s,
  (List.length s <= n)%nat ->
  wellFormed s = true -> utf8_decode (utf8_encode s) = s.
Proof.
  unfold utf8_decode.
  induction n as [|n IH]; intros s Hn Hw.
  - destruct s; [reflexivity | cbn in Hn; lia].
  - destruct s as [|c s']; [reflexivity|].
    cbn [wellFormed] in Hw. cbn [utf8_encode].
    unfold isHighSurrogate, isLowSurrogate in *. revert Hw.
    destruct ((55296 <=? c) && (c <=? 56319)) eqn:Hhi; intros Hw.
    + destruct s' as [|d s'']; cbv beta iota in Hw; [lia|]. revert Hw.
      destruct ((56320 <=? d) && (d <=? 57343)) eqn:Hlo; intros Hw; [|lia].
      rewrite utf8_decode_scalar by (unfold isScalar; lia).
      rewrite utf16_of_pair by lia.
      rewrite IH; [reflexivity | cbn [List.length] in Hn; lia |].
      repeat (apply andb_prop in Hw; destruct Hw as [? Hw]); assumption.
    + revert Hw.
      destruct ((56320 <=? c) && (c <=? 57343)) eqn:Hlo; intros Hw; [lia|].
      rewrite utf8_decode_scalar by (unfold isScalar; lia).
      rewrite utf16_of_bmp by lia.
      rewrite IH; [reflexivity | cbn [List.length] in Hn; lia |].
      repeat (apply andb_prop in Hw; destruct Hw as [? Hw]); assumption.
Qed.

Lemma utf8_roundtrip s :
  wellFormed s = true -> utf8_decode (utf8_encode s) = s.
Proof. apply (utf8_roundtrip_upto (List.length s)). lia. Qed.

Lemma utf8_of_scalar_bytes c :
  0 <= c < 1114112 -> Forall isByte (utf8_of_scalar c).
Proof.
  intros Hc. unfold utf8_of_scalar, isByte.
  repeat match goal with |- context [if ?c then _ else _] => destruct c eqn:? end;
    repeat constructor; lia.
Qed.

Lemma utf8_encode_bytes_upto (n : nat) : forall s,
  (List.length s <= n)%nat ->
  Forall (fun c => 0 <= c < 65536) s -> Forall isByte (utf8_encode s).
Proof.
  induction n as [|n IH]; intros s Hn Hs.
  - destruct s; [constructor | cbn in Hn; lia].
  - destruct s as [|c s']; [constructor|].
    inversion Hs as [|? ? Hc Hs']; subst.
    cbn [utf8_encode List.length] in *.
    assert (Hrepl : Forall isByte [239; 191; 189])
      by (repeat constructor; unfold isByte; lia).
    unfold isHighSurrogate, isLowSurrogate.
    destruct ((55296 <=? c) && (c <=? 56319)) eqn:Hhi.
    + destruct s' as [|d s'']; [assumption|].
      inversion Hs' as [|? ? Hd Hs'']; subst. cbn [List.length] in Hn.
      destruct ((56320 <=? d) && (d <=? 57343)) eqn:Hlo.
      * apply Forall_app; split;
          [apply utf8_of_scalar_bytes; lia | apply IH; [lia|assumption]].
      * apply Forall_app; split; [assumption|].
        apply IH; [cbn [List.length]; lia | assumption].
    + destruct ((56320 <=? c) && (c <=? 57343)) eqn:Hlo.
      * apply Forall_app; split; [assumption | apply IH; [lia|assumption]].
      * apply Forall_app; split;
          [apply utf8_of_scalar_bytes; lia | apply IH; [lia|assumption]].
Qed.

(** ** Tokens of the protector *)

Lemma replaceAll_ext {A St} (matchAt : jsstring -> option (A * nat))
      (f g : A -> St -> jsstring * St) :
  (forall a st, f a st = g a st) ->
  forall s skip st, replaceAll matchAt f skip s st = replaceAll matchAt g skip s st.
Proof.
  intros Hfg. induction s as [|c s IH]; intros skip st; [reflexivity|].
  cbn [replaceAll]. destruct skip; [|apply IH].
  destruct (matchAt (c :: s)) as [[a n]|].
  - rewrite Hfg. destruct (g a st) as [o st1]. rewrite IH. reflexivity.
  - rewrite IH. reflexivity.
Qed.

Lemma processedMarkdown_pieces md :
  processedMarkdown (processMermaidDiagrams md)
  = flat_map (pieceText placeholderOf) (pieces mermaidRegex 0 md).
Proof.
  unfold processMermaidDiagrams.
  rewrite (replaceAll_pieces mermaidRegex placeholderOf (fun _ _ => true)).
  reflexivity.
Qed.

Lemma fold_failures decode : forall tokens log,
  fold_left (fun log t => if decodeFails decode t then log ++ [t] else log)
            tokens log
  = log ++ filter (decodeFails decode) tokens.
Proof.
  induction tokens as [|t tokens IH]; intros log; cbn [fold_left filter].
  - rewrite app_nil_r. reflexivity.
  - rewrite IH. destruct (decodeFails decode t); [|reflexivity].
    rewrite <- app_assoc. reflexivity.
Qed.

Lemma restoreWith_pieces decode html :
  restoreWith decode html
  = (flat_map (pieceText (restoredToken decode))
              (pieces placeholderRegex 0 html),
     filter (decodeFails decode) (placeholderTokens html)).
Proof.
  unfold restoreWith.
  rewrite (replaceAll_ext placeholderRegex (restoreCallback decode)
             (fun a st => (restoredToken decode a,
                           if decodeFails decode a then st ++ [a] else st))).
  - rewrite (replaceAll_pieces placeholderRegex (restoredToken decode)
               (fun log t => if decodeFails decode t then log ++ [t] else log)).
    rewrite fold_failures. reflexivity.
  - intros a st. unfold restoreCallback, restoredToken, decodeFails.
    destruct (decode a); reflexivity.
Qed.

Lemma restoreMermaidDiagrams_pieces html :
  restoreMermaidDiagrams html
  = flat_map (pieceText (fun t => mermaidDiv (utf8_decode (base64_decode t))))
             (pieces placeholderRegex 0 html).
Proof.
  unfold restoreMermaidDiagrams. rewrite restoreWith_pieces. reflexivity.
Qed.

Lemma takePayload_app payload rest :
  forallb isPayloadChar payload = true -> headIsPayload rest = false ->
  takePayload (payload ++ rest) = payload.
Proof.
  intros Hp Hr. induction payload as [|c payload IH].
  - destruct rest as [|r rest]; [reflexivity|]. cbn in *. rewrite Hr. reflexivity.
  - cbn [forallb] in Hp. apply andb_prop in Hp. destruct Hp as [Hc Hp].
    cbn [app takePayload]. rewrite Hc, IH by assumption. reflexivity.
Qed.

Lemma placeholderRegex_token c payload rest :
  forallb isPayloadChar (c :: payload) = true -> headIsPayload rest = false ->
  placeholderRegex (placeholderPrefix ++ (c :: payload) ++ rest)
  = Some (c :: payload, (28 + List.length (c :: payload))%nat).
Proof.
  intros Hp Hr. unfold placeholderRegex. rewrite startsWith_app.
  change 28%nat with (List.length placeholderPrefix) at 1.
  rewrite skipn_app, skipn_all, Nat.sub_diag. cbn [skipn app].
  change (c :: payload ++ rest) with ((c :: payload) ++ rest).
  rewrite takePayload_app by assumption. reflexivity.
Qed.

Lemma skipn_prefix {A} (p s : list A) : skipn (List.length p) (p ++ s) = s.
Proof. rewrite skipn_app, skipn_all, Nat.sub_diag. reflexivity. Qed.

Lemma pieces_token c payload rest :
  forallb isPayloadChar (c :: payload) = true -> headIsPayload rest = false ->
  pieces placeholderRegex 0 (placeholderPrefix ++ (c :: payload) ++ rest)
  = Match (c :: payload) :: pieces placeholderRegex 0 rest.
Proof.
  intros Hp Hr.
  pose proof (placeholderRegex_token c payload rest Hp Hr) as Hm.
  remember (placeholderPrefix ++ (c :: payload) ++ rest) as s eqn:Es.
  destruct s as [|x s]; [discriminate|].
  rewrite (pieces_match _ _ _ _ _ Hm). f_equal. f_equal.
  change (skipn (28 + List.length (c :: payload) - 1) s)
    with (skipn (28 + List.length (c :: payload)) (x :: s)).
  rewrite Es, app_assoc.
  replace (28 + List.length (c :: payload))%nat
    with (List.length (placeholderPrefix ++ c :: payload))
    by (rewrite length_app; reflexivity).
  apply skipn_prefix.
Qed.

Lemma b64_char_payload v : 0 <= v < 64 -> isPayloadChar (b64_char v) = true.
Proof.
  intros Hv. unfold b64_char, isPayloadChar. ifcase; lia.
Qed.

Lemma base64_encode_payload_upto (n : nat) : forall bs,
  (List.length bs <= n)%nat -> Forall isByte bs ->
  forallb isPayloadChar (base64_encode bs) = true.
Proof.
  induction n as [|n IH]; intros bs Hn Hb.
  - destruct bs; [reflexivity | cbn in Hn; lia].
  - destruct bs as [|a [|b [|c rest]]]; [reflexivity | | |].
    + inversion Hb as [|? ? Ha _]; subst. unfold isByte in Ha.
      cbn [base64_encode forallb].
      rewrite !b64_char_payload by lia. reflexivity.
    + inversion Hb as [|? ? Ha Hb']; subst.
      inversion Hb' as [|? ? Hb2 _]; subst. unfold isByte in *.
      cbn [base64_encode forallb].
      rewrite !b64_char_payload by lia. reflexivity.
    + inversion Hb as [|? ? Ha Hb']; subst.
      inversion Hb' as [|? ? Hb2 Hb3]; subst.
      inversion Hb3 as [|? ? Hc Hr]; subst. unfold isByte in *.
      cbn [base64_encode app forallb].
      rewrite !b64_char_payload by lia.
      rewrite IH; [reflexivity | cbn [List.length] in Hn; lia | assumption].
Qed.

Lemma base64_encode_payload bs :
  Forall isByte bs -> forallb isPayloadChar (base64_encode bs) = true.
Proof. apply (base64_encode_payload_upto (List.length bs)). lia. Qed.

Lemma base64_encode_nonempty bs : bs <> [] -> base64_encode bs <> [].
Proof.
  destruct bs as [|a [|b [|c rest]]]; intros H; [contradiction | | |];
    discriminate.
Qed.

Lemma utf8_of_scalar_nonempty c : utf8_of_scalar c <> [].
Proof. unfold utf8_of_scalar. ifcase; discriminate. Qed.

Lemma utf8_encode_nonempty s : s <> [] -> utf8_encode s <> [].
Proof.
  destruct s as [|c s]; intros H; [contradiction|].
  cbn [utf8_encode].
  destruct (isHighSurrogate c).
  - destruct s as [|d s]; [discriminate|].
    destruct (isLowSurrogate d); [|discriminate].
    intros E. apply app_eq_nil in E. destruct E as [E _].
    exact (utf8_of_scalar_nonempty _ E).
  - destruct (isLowSurrogate c); [discriminate|].
    intros E. apply app_eq_nil in E. destruct E as [E _].
    exact (utf8_of_scalar_nonempty _ E).
Qed.

Lemma wellFormed_units_upto (n : nat) : forall s,
  (List.length s <= n)%nat -> wellFormed s = true ->
  Forall (fun c => 0 <= c < 65536) s.
Proof.
  induction n as [|n IH]; intros s Hn Hw.
  - destruct s; [constructor | cbn in Hn; lia].
  - destruct s as [|c s]; [constructor|].
    cbn [wellFormed List.length] in *.
    apply andb_prop in Hw. destruct Hw as [Hc Hw].
    constructor; [lia|].
    destruct (isHighSurrogate c).
    + destruct s as [|d s]; [discriminate|].
      apply andb_prop in Hw. destruct Hw as [Hd Hw].
      unfold isLowSurrogate in Hd. cbn [List.length] in Hn.
      constructor; [lia | apply IH; [lia | exact Hw]].
    + apply andb_prop in Hw. destruct Hw as [_ Hw]. apply IH; [lia | exact Hw].
Qed.

Lemma wellFormed_units s :
  wellFormed s = true -> Forall (fun c => 0 <= c < 65536) s.
Proof. apply (wellFormed_units_upto (List.length s)). lia. Qed.

Lemma utf8_encode_bytes s :
  Forall (fun c => 0 <= c < 65536) s -> Forall isByte (utf8_encode s).
Proof. apply (utf8_encode_bytes_upto (List.length s)). lia. Qed.

(** Decoding what the protector encoded gives the trimmed text back. *)
Lemma decode_placeholder_payload text :
  wellFormed text = true ->
  utf8_decode (base64_decode (base64_encode (utf8_encode text))) = text.
Proof.
  intros Hw. rewrite base64_roundtrip, utf8_roundtrip; auto.
  apply utf8_encode_bytes, wellFormed_units, Hw.
Qed.

Lemma processed_block md code n :
  mermaidRegex md = Some (code, n) ->
  processedMarkdown (processMermaidDiagrams md)
  = placeholderOf code
      ++ processedMarkdown (processMermaidDiagrams (skipn n md)).
Proof.
  intros Hm. rewrite !processedMarkdown_pieces.
  destruct (mermaidRegex_nonempty _ _ _ Hm) as (c & s & Es). subst md.
  rewrite (pieces_match _ _ _ _ _ Hm). cbn [flat_map pieceText].
  destruct (mermaidRegex_split _ _ _ Hm) as [_ Hn].
  replace n with (S (n - 1)) at 2 by lia. reflexivity.
Qed.

Lemma restore_placeholder code rest :
  trim code <> [] -> wellFormed (trim code) = true ->
  headIsPayload rest = false ->
  restoreMermaidDiagrams (placeholderOf code ++ rest)
  = mermaidDiv (trim code) ++ restoreMermaidDiagrams rest.
Proof.
  intros Hne Hw Hr. rewrite !restoreMermaidDiagrams_pieces.
  unfold placeholderOf. rewrite <- app_assoc.
  destruct (base64_encode (utf8_encode (trim code))) as [|c payload] eqn:E.
  - exfalso. apply (base64_encode_nonempty (utf8_encode (trim code)));
      [apply utf8_encode_nonempty, Hne | exact E].
  - rewrite pieces_token; [| |exact Hr].
    + cbn [flat_map pieceText]. rewrite <- E.
      rewrite decode_placeholder_payload by exact Hw. reflexivity.
    + rewrite <- E. apply base64_encode_payload, utf8_encode_bytes,
        wellFormed_units, Hw.
Qed.

(** ** Counting occurrences *)

Lemma startsWith_app_stable : forall p t b,
  (List.length p <=? List.length t)%nat || negb (startsWith t p) = true ->
  startsWith p (t ++ b) = startsWith p t.
Proof.
  induction p as [|x p IH]; intros t b H; [reflexivity|].
  destruct t as [|y t].
  - cbn in H. discriminate.
  - cbn [app startsWith List.length] in *.
    destruct (Z.eqb_spec x y) as [->|Hne]; [|reflexivity].
    rewrite Z.eqb_refl in H. cbn [andb] in *.
    apply IH. exact H.
Qed.

Lemma count_app_safeTail pat : forall a b,
  safeTail pat a = true ->
  countOccurrences pat (a ++ b)
  = (countOccurrences pat a + countOccurrences pat b)%nat.
Proof.
  induction a as [|c a IH]; intros b H; [reflexivity|].
  cbn [safeTail] in H. apply andb_prop in H. destruct H as [Hc Ha].
  change ((c :: a) ++ b) with (c :: a ++ b). cbn [countOccurrences].
  change (c :: a ++ b) with ((c :: a) ++ b).
  rewrite (startsWith_app_stable pat (c :: a) b Hc), (IH b Ha). lia.
Qed.

Lemma count_skip_without x pat : forall t b,
  without x t = true ->
  countOccurrences (x :: pat) (t ++ b) = countOccurrences (x :: pat) b.
Proof.
  induction t as [|c t IH]; intros b H; [reflexivity|].
  cbn [without forallb] in H. apply andb_prop in H. destruct H as [Hc Ht].
  cbn [app countOccurrences startsWith].
  rewrite Z.eqb_sym. apply negb_true_iff in Hc. rewrite Hc. cbn [andb].
  rewrite IH by exact Ht. reflexivity.
Qed.

Lemma startsWith_before_stranger c b : forall p t,
  without c p = true ->
  startsWith p (t ++ c :: b) = startsWith p t.
Proof.
  induction p as [|z p IH]; intros t H; [reflexivity|].
  cbn [without forallb] in H. apply andb_prop in H. destruct H as [Hz Hp].
  apply negb_true_iff in Hz.
  destruct t as [|y t]; cbn [app startsWith].
  - rewrite Hz. reflexivity.
  - rewrite (IH t Hp). reflexivity.
Qed.

Lemma count_app_stranger x pat c b : forall a,
  without c pat = true ->
  countOccurrences (x :: pat) (a ++ c :: b)
  = (countOccurrences (x :: pat) a + countOccurrences (x :: pat) (c :: b))%nat.
Proof.
  intros a H. remember (countOccurrences (x :: pat) (c :: b)) as k eqn:Ek.
  induction a as [|y a IH]; [symmetry; exact Ek|].
  change ((y :: a) ++ c :: b) with (y :: (a ++ c :: b)).
  cbn [countOccurrences]. rewrite IH.
  cbn [startsWith]. rewrite (startsWith_before_stranger c b pat a H). lia.
Qed.

(** A fixed piece of the template holds no occurrence. *)
Ltac fixed_piece :=
  rewrite count_app_safeTail by (vm_compute; reflexivity);
  match goal with
  | |- (countOccurrences ?p ?a + _)%nat = _ =>
    replace (countOccurrences p a) with 0%nat by (vm_compute; reflexivity)
  end; cbn [Nat.add].

(** ** Documents of text and diagram blocks *)

Lemma clean_cons pat c t :
  clean pat (c :: t) = true ->
  (forall rest, startsWith pat ((c :: t) ++ rest) = false) /\ clean pat t = true.
Proof.
  unfold clean. cbn [countOccurrences safeTail]. intros H.
  apply andb_prop in H. destruct H as [Hc Hs].
  apply andb_prop in Hs. destruct Hs as [Hs1 Hs2].
  apply Nat.eqb_eq in Hc.
  destruct (startsWith pat (c :: t)) eqn:E; [discriminate|].
  split.
  - intros rest. rewrite startsWith_app_stable by exact Hs1. exact E.
  - rewrite Hs2. cbn [Nat.add] in Hc. rewrite Hc. reflexivity.
Qed.

Section CleanText.
Context {A : Type}.
Variable matchAt : jsstring -> option (A * nat).
Variable pat : jsstring.
Hypothesis match_starts : forall s, startsWith pat s = false -> matchAt s = None.

Lemma pieces_clean_text rest : forall t,
  clean pat t = true ->
  pieces matchAt 0 (t ++ rest)
  = map (fun c => Lit c) t ++ pieces matchAt 0 rest.
Proof.
  induction t as [|c t IH]; intros H; [reflexivity|].
  apply clean_cons in H. destruct H as [Hno Ht].
  change ((c :: t) ++ rest) with (c :: t ++ rest).
  rewrite pieces_lit.
  - cbn [map app]. f_equal. apply IH, Ht.
  - apply match_starts. apply (Hno rest).
Qed.
End CleanText.

Lemma mermaidRegex_starts s : startsWith fenceOpen s = false -> mermaidRegex s = None.
Proof. unfold mermaidRegex. intros ->. reflexivity. Qed.

Lemma placeholderRegex_starts s :
  startsWith placeholderPrefix s = false -> placeholderRegex s = None.
Proof. unfold placeholderRegex. intros ->. reflexivity. Qed.

Lemma lazyUntilFence_clean rest : forall code,
  clean fenceClose code = true ->
  lazyUntilFence (code ++ fenceClose ++ rest)
  = Some (code, (List.length code + 3)%nat).
Proof.
  induction code as [|c code IH]; intros H.
  - cbn [app]. rewrite lazyUntilFence_eq, startsWith_app. reflexivity.
  - apply clean_cons in H. destruct H as [Hno Hc].
    rewrite lazyUntilFence_eq. rewrite (Hno (fenceClose ++ rest)).
    cbn [app]. rewrite (IH Hc). reflexivity.
Qed.

Lemma mermaidRegex_block code rest :
  clean fenceClose code = true ->
  mermaidRegex (fenceOpen ++ code ++ fenceClose ++ rest)
  = Some (code, (11 + (List.length code + 3))%nat).
Proof.
  intros H. unfold mermaidRegex. rewrite startsWith_app.
  change 11%nat with (List.length fenceOpen) at 1. rewrite skipn_prefix.
  rewrite (lazyUntilFence_clean rest code H). reflexivity.
Qed.

Lemma pieces_block code rest :
  clean fenceClose code = true ->
  pieces mermaidRegex 0 (fenceOpen ++ code ++ fenceClose ++ rest)
  = Match code :: pieces mermaidRegex 0 rest.
Proof.
  intros H. pose proof (mermaidRegex_block code rest H) as Hm.
  remember (fenceOpen ++ code ++ fenceClose ++ rest) as s eqn:Es.
  destruct s as [|x s]; [discriminate|].
  rewrite (pieces_match _ _ _ _ _ Hm). f_equal. f_equal.
  change (skipn (11 + (List.length code + 3) - 1) s)
    with (skipn (11 + (List.length code + 3)) (x :: s)).
  rewrite Es.
  replace (fenceOpen ++ code ++ fenceClose ++ rest)
    with ((fenceOpen ++ code ++ fenceClose) ++ rest)
    by (rewrite <- !app_assoc; reflexivity).
  replace (11 + (List.length code + 3))%nat
    with (List.length (fenceOpen ++ code ++ fenceClose))
    by (rewrite !length_app; reflexivity).
  apply skipn_prefix.
Qed.

Lemma matches_lits {A} (t : jsstring) (ps : list (@piece A)) :
  matches (map (fun c => Lit c) t ++ ps) = matches ps.
Proof.
  unfold matches. induction t as [|c t IH]; [reflexivity|]. exact IH.
Qed.

Lemma flat_map_lits {A} (out : A -> jsstring) (t : jsstring) ps :
  flat_map (pieceText out) (map (fun c => Lit c) t ++ ps)
  = t ++ flat_map (pieceText out) ps.
Proof.
  induction t as [|c t IH]; [reflexivity|]. cbn [map app flat_map pieceText].
  rewrite IH. reflexivity.
Qed.

Lemma pieces_markdownOf : forall d,
  wellDelimited d = true ->
  diagramBlocks (markdownOf d) = codesOf d
  /\ processedMarkdown (processMermaidDiagrams (markdownOf d)) = protectedOf d.
Proof.
  intros d. rewrite processedMarkdown_pieces. unfold diagramBlocks.
  induction d as [|[t|code] d IH]; intros H; [split; reflexivity| |].
  - cbn [wellDelimited] in H.
    apply andb_prop in H. destruct H as [H Hd].
    apply andb_prop in H. destruct H as [Hf _].
    destruct (IH Hd) as [IH1 IH2].
    cbn [markdownOf codesOf flat_map protectedOf].
    rewrite (pieces_clean_text mermaidRegex fenceOpen mermaidRegex_starts _ _ Hf).
    rewrite matches_lits, flat_map_lits, IH2. split; [exact IH1 | reflexivity].
  - cbn [wellDelimited] in H.
    apply andb_prop in H. destruct H as [H Hd].
    do 3 (apply andb_prop in H; destruct H as [H ?]).
    destruct (IH Hd) as [IH1 IH2].
    cbn [markdownOf codesOf flat_map protectedOf].
    rewrite (pieces_block code _ H).
    cbn [flat_map pieceText]. rewrite IH2. split; [|reflexivity].
    unfold matches in *. cbn [flat_map app]. rewrite IH1. reflexivity.
Qed.

Lemma truthy_nonempty s : truthy s = true -> s <> [].
Proof. destruct s; [discriminate | discriminate]. Qed.

Lemma restore_protectedOf : forall d,
  wellDelimited d = true ->
  restoreMermaidDiagrams (protectedOf d) = restoredOf d.
Proof.
  induction d as [|[t|code] d IH]; intros H; [reflexivity| |].
  - cbn [wellDelimited] in H.
    apply andb_prop in H. destruct H as [H Hd].
    apply andb_prop in H. destruct H as [_ Hp].
    cbn [protectedOf restoredOf]. rewrite <- (IH Hd).
    rewrite !restoreMermaidDiagrams_pieces.
    rewrite (pieces_clean_text placeholderRegex placeholderPrefix
               placeholderRegex_starts _ _ Hp).
    apply flat_map_lits.
  - cbn [wellDelimited] in H.
    apply andb_prop in H. destruct H as [H Hd].
    apply andb_prop in H. destruct H as [H Hhead].
    apply andb_prop in H. destruct H as [H Hw].
    apply andb_prop in H. destruct H as [_ Hne].
    cbn [protectedOf restoredOf]. rewrite <- (IH Hd).
    apply restore_placeholder;
      [apply truthy_nonempty, Hne | exact Hw | apply negb_true_iff, Hhead].
Qed.

(** ** Output path and file name *)

Lemma jseqb_eq : forall a b, jseqb a b = true <-> a = b.
Proof.
  induction a as [|x a IH]; intros [|y b]; cbn [jseqb]; split; intros H;
    try reflexivity; try discriminate.
  - apply andb_prop in H. destruct H as [Hxy H]. apply Z.eqb_eq in Hxy.
    apply IH in H. subst. reflexivity.
  - inversion H; subst. rewrite Z.eqb_refl. apply IH. reflexivity.
Qed.

Lemma existsIn_In files p : existsIn files p = true <-> In p files.
Proof.
  unfold existsIn. rewrite existsb_exists. split.
  - intros (q & Hq & E). apply jseqb_eq in E. subst. exact Hq.
  - intros H. exists p. split; [exact H | apply jseqb_eq; reflexivity].
Qed.

Section IncrementalPathFacts.
Variable path : PathModule.
Variable files : list jsstring.
Variable basePath : jsstring.

Let cand := candidate path basePath.
Let taken := existsIn files.

Hypothesis cand_inj : forall n m, cand n = cand m -> n = m.

Lemma loop_reaches_free : forall d k fuel,
  (forall j, (k <= j < k + d)%nat -> taken (cand j) = true) ->
  taken (cand (k + d)) = false ->
  (d < fuel)%nat ->
  incrementalLoop path taken fuel basePath (S k) (cand k)
  = Some (cand (k + d)).
Proof.
  induction d as [|d IH]; intros k fuel Hbelow Hfree Hfuel.
  - destruct fuel as [|fuel]; [lia|]. cbn [incrementalLoop].
    rewrite Nat.add_0_r in *. rewrite Hfree. reflexivity.
  - destruct fuel as [|fuel]; [lia|]. cbn [incrementalLoop].
    rewrite (Hbelow k) by lia.
    fold cand. rewrite (IH (S k) fuel).
    + f_equal. f_equal. lia.
    + intros j Hj. apply Hbelow. lia.
    + replace (S k + d)%nat with (k + S d)%nat by lia. exact Hfree.
    + lia.
Qed.

Lemma candidates_run_out : forall n,
  (forall j, (1 <= j < 1 + n)%nat -> taken (cand j) = true) ->
  (n <= List.length files)%nat.
Proof.
  intros n Hall.
  assert (Hnd : NoDup (map cand (seq 1 n))).
  { apply Injective_map_NoDup; [|apply seq_NoDup].
    intros a b. apply cand_inj. }
  assert (Hincl : incl (map cand (seq 1 n)) files).
  { intros p Hp. apply in_map_iff in Hp. destruct Hp as (j & Ej & Hj).
    apply in_seq in Hj. subst p. apply existsIn_In. apply Hall. lia. }
  pose proof (NoDup_incl_length Hnd Hincl) as Hlen.
  rewrite length_map, length_seq in Hlen. exact Hlen.
Qed.

Lemma least_free_candidate : forall n,
  (exists d, (d < n)%nat
             /\ (forall j, (1 <= j < 1 + d)%nat -> taken (cand j) = true)
             /\ taken (cand (1 + d)) = false)
  \/ (forall j, (1 <= j < 1 + n)%nat -> taken (cand j) = true).
Proof.
  induction n as [|n [IH|IH]].
  - right. intros j Hj. lia.
  - left. destruct IH as (d & Hd & H). exists d. split; [lia | exact H].
  - destruct (taken (cand (1 + n))) eqn:E.
    + right. intros j Hj.
      destruct (Nat.eq_dec j (1 + n)) as [->|Hne]; [exact E|].
      apply IH. lia.
    + left. exists n. split; [lia|]. split; [exact IH | exact E].
Qed.

Lemma getIncrementalPath_spec fuel :
  (S (List.length files) < fuel)%nat ->
  exists p,
    getIncrementalPath path taken fuel basePath = Some p
    /\ taken p = false
    /\ (if taken basePath then
          exists n, (1 <= n)%nat /\ p = cand n
                    /\ forall j, (1 <= j < n)%nat -> taken (cand j) = true
        else p = basePath).
Proof.
  intros Hfuel. unfold getIncrementalPath.
  destruct fuel as [|fuel]; [lia|]. cbn [incrementalLoop].
  destruct (taken basePath) eqn:Hbase.
  - destruct (least_free_candidate (S (List.length files)))
      as [(d & Hd & Hbelow & Hfree)|Hall].
    + exists (cand (1 + d)). fold cand.
      rewrite (loop_reaches_free d 1 fuel Hbelow Hfree) by lia.
      split; [reflexivity|]. split; [exact Hfree|].
      exists (1 + d)%nat. split; [lia|]. split; [reflexivity | exact Hbelow].
    + apply candidates_run_out in Hall. lia.
  - exists basePath. rewrite Hbase. auto.
Qed.
End IncrementalPathFacts.

Lemma js_inj a b : js a = js b -> a = b.
Proof.
  unfold js. intros H.
  assert (Hl : list_ascii_of_string a = list_ascii_of_string b).
  { revert H. generalize (list_ascii_of_string a), (list_ascii_of_string b).
    induction l as [|x l IH]; intros [|y l'] H; try discriminate; auto.
    cbn [map] in H. inversion H as [[Hxy Hl]].
    apply N2Z.inj in Hxy.
    rewrite <- (ascii_N_embedding x), <- (ascii_N_embedding y), Hxy.
    f_equal. apply IH, Hl. }
  rewrite <- (string_of_list_ascii_of_string a),
          <- (string_of_list_ascii_of_string b), Hl.
  reflexivity.
Qed.

Lemma decimal_inj n m : decimal n = decimal m -> n = m.
Proof.
  unfold decimal. intros H. apply js_inj in H.
  assert (Hu : Nat.to_uint n = Nat.to_uint m).
  { pose proof (NilEmpty.usu (Nat.to_uint n)) as Hn.
    pose proof (NilEmpty.usu (Nat.to_uint m)) as Hm.
    rewrite H in Hn. rewrite Hn in Hm. inversion Hm. reflexivity. }
  rewrite <- (Unsigned.of_to n), <- (Unsigned.of_to m), Hu. reflexivity.
Qed.

Lemma posixJoin_inj dir a b : posixJoin dir a = posixJoin dir b -> a = b.
Proof.
  unfold posixJoin. destruct (jseqb dir (js "/")); intros H.
  - apply app_inv_head in H. exact H.
  - apply app_inv_head in H. apply app_inv_head in H. exact H.
Qed.

Lemma posix_candidate_inj basePath n m :
  candidate posixPath basePath n = candidate posixPath basePath m -> n = m.
Proof.
  unfold candidate. cbn [join dirname extname basename posixPath].
  intros H. apply posixJoin_inj in H.
  apply app_inv_head in H. apply app_inv_head in H.
  apply app_inv_tail in H. apply decimal_inj, H.
Qed.



Example output_pdf_taken :
  getIncrementalPath posixPath (existsIn [outputPdf]) 3 outputPdf
  = Some (js "/home/user/output-1.pdf").
Proof. vm_compute. reflexivity. Qed.

Example output_1_pdf_taken :
  getIncrementalPath posixPath
    (existsIn [outputPdf; js "/home/user/output-1.pdf"]) 4 outputPdf
  = Some (js "/home/user/output-2.pdf").
Proof. vm_compute. reflexivity. Qed.

Lemma endsWith_app p s : endsWith p (s ++ p) = true.
Proof. unfold endsWith. rewrite rev_app_distr. apply startsWith_app. Qed.

Lemma asciiLowerCase_pdf s :
  endsWith dotPdf (asciiLowerCase (s ++ dotPdf)) = true.
Proof.
  unfold asciiLowerCase. rewrite map_app.
  change (map _ dotPdf) with dotPdf. apply endsWith_app.
Qed.



Example report_gets_suffix :
  normalizeFilename asciiLowerCase (js "report") = js "report.pdf".
Proof. vm_compute. reflexivity. Qed.

Example upper_case_suffix_kept :
  normalizeFilename asciiLowerCase (js "REPORT.PDF") = js "REPORT.PDF".
Proof. vm_compute. reflexivity. Qed.

(** ** Scanning HTML; the watermark layer *)

Lemma htmlScan_app m a b :
  htmlScan m (a ++ b)
  = (fst (htmlScan (fst (htmlScan m a)) b),
     snd (htmlScan m a) ++ snd (htmlScan (fst (htmlScan m a)) b)).
Proof.
  revert m. induction a as [|c a IH]; intros m.
  - cbn. destruct (htmlScan m b); reflexivity.
  - cbn [app htmlScan]. destruct (htmlStep m c) as [m1 t1].
    rewrite IH. destruct (htmlScan m1 a) as [m2 t2]. cbn [fst snd].
    destruct (htmlScan m2 b) as [m3 t3]. cbn [fst snd].
    rewrite app_assoc. reflexivity.
Qed.

Lemma htmlScan_chain m a b m1 t1 m2 t2 :
  htmlScan m a = (m1, t1) -> htmlScan m1 b = (m2, t2) ->
  htmlScan m (a ++ b) = (m2, t1 ++ t2).
Proof.
  intros Ha Hb. rewrite htmlScan_app, Ha. cbn [fst snd]. rewrite Hb.
  reflexivity.
Qed.

Lemma completeMarkup_scan html :
  completeMarkup html = true -> htmlScan Data html = (Data, htmlTokens html).
Proof.
  unfold completeMarkup, htmlTokens. destruct (htmlScan Data html) as [m ts].
  cbn [fst snd]. destruct m; try discriminate. reflexivity.
Qed.

Lemma classContents_none cls ts1 ts2 :
  classContents cls ts1 = [] ->
  classContents cls (ts1 ++ ts2) = classContents cls ts2.
Proof.
  induction ts1 as [|t ts1 IH]; intros H; [reflexivity|].
  cbn [app classContents] in *.
  destruct (hasClass cls t) eqn:Ec; [|apply IH, H].
  destruct t; try discriminate; apply IH, H.
Qed.

Lemma classContents_length_app cls ts1 ts2 :
  List.length (classContents cls (ts1 ++ ts2))
  = (List.length (classContents cls ts1)
     + List.length (classContents cls ts2))%nat.
Proof.
  induction ts1 as [|t ts1 IH]; [reflexivity|].
  cbn [app classContents].
  destruct (hasClass cls t); [|exact IH].
  destruct t; cbn [List.length]; rewrite IH; reflexivity.
Qed.

Lemma classContents_characters cls raw t rest :
  classContents cls (map (Character raw) t ++ rest) = classContents cls rest.
Proof.
  induction t as [|c t IH]; [reflexivity|]. cbn. exact IH.
Qed.

Lemma textRun_characters t name rest :
  textRun (map (Character Content) t ++ EndTag name :: rest)
  = (map (pair Content) t, EndTag name :: rest).
Proof.
  induction t as [|c t IH]; [reflexivity|].
  cbn [map app textRun]. rewrite IH. reflexivity.
Qed.

Lemma runText_written name t :
  dropsLineBreak name = false ->
  runText name (map (pair Content) t) = shownText t.
Proof.
  intros H. unfold runText, afterLineBreak. rewrite H.
  rewrite map_map. cbn [snd]. rewrite map_id.
  destruct t; reflexivity.
Qed.

(** An element of the class that holds text and nothing else. *)
Lemma classContents_element cls name value t rest :
  hasClassToken cls value = true ->
  existsb (jseqb name) voidElements = false ->
  dropsLineBreak name = false ->
  classContents cls
    (StartTag name (Some value)
     :: map (Character Content) t ++ EndTag name :: rest)
  = (name, Some (shownText t)) :: classContents cls rest.
Proof.
  intros H Hv Hd. cbn [classContents hasClass]. rewrite H.
  unfold contentAfter. rewrite Hv, textRun_characters.
  rewrite (proj2 (jseqb_eq name name) eq_refl), (runText_written _ _ Hd).
  rewrite classContents_characters. reflexivity.
Qed.

(** Text without [<] is read as text. *)
Lemma htmlScan_text t :
  without 60 t = true -> htmlScan Data t = (Data, map (Character Content) t).
Proof.
  induction t as [|c t IH]; [reflexivity|].
  cbn [without forallb]. intros H. apply andb_prop in H as [Hc Ht].
  cbn [htmlScan htmlStep]. unfold stepData.
  destruct (c =? 60); [discriminate|].
  rewrite (IH Ht). reflexivity.
Qed.

Lemma htmlScan_rawText element t :
  without 60 t = true ->
  htmlScan (RawText element) t
  = (RawText element, map (rawCharacter element) t).
Proof.
  induction t as [|c t IH]; [reflexivity|].
  cbn [without forallb]. intros H. apply andb_prop in H as [Hc Ht].
  cbn [htmlScan htmlStep]. unfold stepRawText.
  destruct (c =? 60); [discriminate|].
  rewrite (IH Ht). reflexivity.
Qed.

Lemma normalizeNewlines_without t :
  without 13 t = true -> normalizeNewlines t = t.
Proof.
  induction t as [|c t IH]; [reflexivity|].
  cbn [without forallb]. intros H. apply andb_prop in H as [Hc Ht].
  cbn [normalizeNewlines]. destruct (c =? 13); [discriminate|].
  rewrite (IH Ht). reflexivity.
Qed.

Lemma decodeReferences_without attribute t :
  without 38 t = true -> decodeReferences attribute 0 t = t.
Proof.
  induction t as [|c t IH]; [reflexivity|].
  cbn [without forallb]. intros H. apply andb_prop in H as [Hc Ht].
  cbn [decodeReferences]. destruct (c =? 38); [discriminate|].
  rewrite (IH Ht). reflexivity.
Qed.

Lemma filter_without t :
  without 0 t = true -> filter (fun c => negb (c =? 0)) t = t.
Proof.
  induction t as [|c t IH]; [reflexivity|].
  cbn [without forallb]. intros H. apply andb_prop in H as [Hc Ht].
  cbn [filter]. rewrite Hc, (IH Ht). reflexivity.
Qed.



Lemma composeHtml_head pf po has html wm :
  composeHtml pf po has html wm
  = documentHead pf po has
    ++ html ++ tplContentClose ++ watermarkLayer wm ++ tplBodyClose.
Proof.
  unfold composeHtml, documentHead. repeat rewrite <- app_assoc. reflexivity.
Qed.

Lemma classContents_nil_length cls ts :
  List.length (classContents cls ts) = 0%nat -> classContents cls ts = [].
Proof. destruct (classContents cls ts); [reflexivity|discriminate]. Qed.

(** The tokens of the watermark layer behind complete markup. *)
Lemma watermarkLayer_tokens wm :
  plainText wm ->
  htmlScan Data (watermarkLayer wm ++ tplBodyClose)
  = (Data,
     (if truthy wm
      then StartTag (js "div") (Some (js "watermark"))
           :: map (Character Content) wm ++ [EndTag (js "div")]
      else [])
     ++ htmlTokens tplBodyClose).
Proof.
  intros [Hs _]. unfold watermarkLayer. destruct (truthy wm).
  - repeat rewrite <- app_assoc.
    change (StartTag (js "div") (Some (js "watermark"))
            :: map (Character Content) wm ++ [EndTag (js "div")])
      with ([StartTag (js "div") (Some (js "watermark"))]
            ++ map (Character Content) wm ++ [EndTag (js "div")]).
    rewrite <- app_assoc.
    apply (htmlScan_chain Data watermarkOpen _ Data); [vm_compute; reflexivity|].
    rewrite app_assoc.
    apply (htmlScan_chain Data _ _ Data _ _ _ Hs).
    vm_compute. reflexivity.
  - vm_compute. reflexivity.
Qed.

(** The tokens of the composed document, when head and body are complete
    markup. *)
Lemma composeHtml_tokens pf po has html wm :
  completeMarkup (documentHead pf po has) = true ->
  completeMarkup html = true ->
  plainText wm ->
  htmlTokens (composeHtml pf po has html wm)
  = htmlTokens (documentHead pf po has)
    ++ htmlTokens html
    ++ htmlTokens tplContentClose
    ++ (if truthy wm
        then StartTag (js "div") (Some (js "watermark"))
             :: map (Character Content) wm ++ [EndTag (js "div")]
        else [])
    ++ htmlTokens tplBodyClose.
Proof.
  intros Hh Hb Hw. rewrite composeHtml_head.
  unfold htmlTokens at 1.
  rewrite (htmlScan_chain Data _ _ Data _ Data
             (htmlTokens html ++ htmlTokens tplContentClose
              ++ (if truthy wm
                  then StartTag (js "div") (Some (js "watermark"))
                       :: map (Character Content) wm ++ [EndTag (js "div")]
                  else [])
              ++ htmlTokens tplBodyClose)
             (completeMarkup_scan _ Hh)); [reflexivity|].
  apply (htmlScan_chain Data _ _ Data _ _ _ (completeMarkup_scan _ Hb)).
  apply (htmlScan_chain Data tplContentClose _ Data);
    [vm_compute; reflexivity|].
  apply watermarkLayer_tokens, Hw.
Qed.




(** Parts of a document that leave the scanner in a known state and hold no
    element of the class. *)
Lemma scan_parts cls m a m1 b m2 :
  fst (htmlScan m a) = m1 /\ classContents cls (snd (htmlScan m a)) = [] ->
  fst (htmlScan m1 b) = m2 /\ classContents cls (snd (htmlScan m1 b)) = [] ->
  fst (htmlScan m (a ++ b)) = m2
  /\ classContents cls (snd (htmlScan m (a ++ b))) = [].
Proof.
  intros [Ha Ca] [Hb Cb]. rewrite htmlScan_app. cbn [fst snd].
  rewrite Ha. split; [exact Hb|].
  rewrite classContents_none by exact Ca. exact Cb.
Qed.

Lemma scan_style_text cls t :
  without 60 t = true ->
  fst (htmlScan (RawText (js "style")) t) = RawText (js "style")
  /\ classContents cls (snd (htmlScan (RawText (js "style")) t)) = [].
Proof.
  intros H. rewrite (htmlScan_rawText _ t H). split; [reflexivity|].
  cbn [snd]. unfold rawCharacter.
  rewrite <- (app_nil_r (map _ t)). apply classContents_characters.
Qed.

(** X18.  A paper format and an orientation without [<] stay inside the
    style sheet: the head of the composed document, up to the rendered body,
    is complete markup and holds no watermark overlay. *)
Theorem documentHead_complete pf po has :
  without 60 pf = true -> without 60 po = true ->
  completeMarkup (documentHead pf po has) = true
  /\ watermarkElements (documentHead pf po has) = 0%nat.
Proof.
  intros Hf Ho.
  assert (H : fst (htmlScan Data (documentHead pf po has)) = Data
              /\ classContents (js "watermark")
                   (snd (htmlScan Data (documentHead pf po has))) = []).
  { unfold documentHead.
    apply (scan_parts _ Data tplPageRule (RawText (js "style")));
      [split; vm_compute; reflexivity|].
    apply (scan_parts _ _ pf (RawText (js "style")));
      [apply scan_style_text, Hf|].
    apply (scan_parts _ _ tplSpace (RawText (js "style")));
      [split; vm_compute; reflexivity|].
    apply (scan_parts _ _ po (RawText (js "style")));
      [apply scan_style_text, Ho|].
    apply (scan_parts _ _ tplPageBox (RawText (js "style")));
      [split; vm_compute; reflexivity|].
    apply (scan_parts _ _ (pageWidth pf) (RawText (js "style")));
      [unfold pageWidth; destruct (jseqb pf letter);
       split; vm_compute; reflexivity|].
    apply (scan_parts _ _ tplHeight (RawText (js "style")));
      [split; vm_compute; reflexivity|].
    apply (scan_parts _ _ (pageHeight pf) (RawText (js "style")));
      [unfold pageHeight; destruct (jseqb pf letter);
       split; vm_compute; reflexivity|].
    apply (scan_parts _ _ tplContentCss (RawText (js "style")));
      [split; vm_compute; reflexivity|].
    apply (scan_parts _ _ (pageWidth pf) (RawText (js "style")));
      [unfold pageWidth; destruct (jseqb pf letter);
       split; vm_compute; reflexivity|].
    apply (scan_parts _ _ tplMermaidCss Data);
      [split; vm_compute; reflexivity|].
    apply (scan_parts _ _ (mermaidScript has) Data);
      [destruct has; split; vm_compute; reflexivity|].
    split; vm_compute; reflexivity. }
  destruct H as [Hm Hc]. split.
  - unfold completeMarkup. rewrite Hm. reflexivity.
  - unfold watermarkElements, watermarkOverlays, htmlTokens. rewrite Hc.
    reflexivity.
Qed.

Lemma documentHead_complete_witness :
  completeMarkup (documentHead (js "a4") (js "landscape") true) = true
  /\ watermarkElements (documentHead (js "a4") (js "landscape") true) = 0%nat.
Proof.
  apply (documentHead_complete (js "a4") (js "landscape") true); reflexivity.
Defined.



(** ** The expressions find what the relations say *)

Section PiecesFacts.
Context {A : Type}.
Variable matchAt : jsstring -> option (A * nat).

Lemma pieces_nil_inv s : pieces matchAt 0 s = [] -> s = [].
Proof.
  destruct s as [|c s]; [reflexivity|]. cbn [pieces].
  destruct (matchAt (c :: s)) as [[a n]|]; discriminate.
Qed.

Lemma pieces_lit_inv s c ps :
  pieces matchAt 0 s = Lit c :: ps ->
  exists s', s = c :: s' /\ matchAt s = None /\ pieces matchAt 0 s' = ps.
Proof.
  destruct s as [|x s]; [discriminate|]. cbn [pieces].
  destruct (matchAt (x :: s)) as [[a n]|] eqn:E; [discriminate|].
  intros H. inversion H; subst. exists s. auto.
Qed.

Lemma pieces_match_inv s a ps :
  pieces matchAt 0 s = Match a :: ps ->
  exists n, matchAt s = Some (a, n)
            /\ pieces matchAt 0 (skipn (n - 1) (tl s)) = ps.
Proof.
  destruct s as [|x s]; [discriminate|]. cbn [pieces].
  destruct (matchAt (x :: s)) as [[b n]|] eqn:E; [|discriminate].
  intros H. inversion H; subst. exists n. split; [reflexivity|].
  cbn [tl]. symmetry. apply pieces_skip.
Qed.

(** Text in which no match starts is kept code unit by code unit. *)
Lemma pieces_lits s : forall t,
  (forall a b, t = a ++ b -> b <> [] -> matchAt (b ++ s) = None) ->
  pieces matchAt 0 (t ++ s) = map (fun c => Lit c) t ++ pieces matchAt 0 s.
Proof.
  induction t as [|c t IH]; intros H; [reflexivity|].
  change ((c :: t) ++ s) with (c :: t ++ s).
  rewrite pieces_lit.
  - cbn [map app]. f_equal. apply IH. intros a b E Hb.
    apply (H (c :: a) b); [rewrite E; reflexivity | exact Hb].
  - apply (H [] (c :: t)); [reflexivity | discriminate].
Qed.

Lemma pieces_lits_inv ps : forall t s,
  pieces matchAt 0 s = map (fun c => Lit c) t ++ ps ->
  exists s', s = t ++ s' /\ pieces matchAt 0 s' = ps
             /\ forall a b, t = a ++ b -> b <> [] -> matchAt (b ++ s') = None.
Proof.
  induction t as [|c t IH]; intros s H.
  - exists s. split; [reflexivity|]. split; [exact H|].
    intros a b E Hb. destruct a; destruct b; try discriminate.
    contradiction.
  - cbn [map app] in H. apply pieces_lit_inv in H.
    destruct H as (s1 & -> & Hn & Hp).
    destruct (IH _ Hp) as (s' & -> & Hp' & Hno).
    exists s'. split; [reflexivity|]. split; [exact Hp'|].
    intros a b E Hb. destruct a as [|x a].
    + cbn [app] in E. subst b. exact Hn.
    + cbn [app] in E. inversion E; subst. apply (Hno a b eq_refl Hb).
Qed.
End PiecesFacts.

(** *** Diagram blocks *)

Lemma blockStartsAt_iff s : blockStartsAt s <-> mermaidRegex s <> None.
Proof.
  split.
  - intros (code & rest & ->). apply mermaidRegex_finds.
  - intros H. destruct (mermaidRegex s) as [[code n]|] eqn:E;
      [|contradiction].
    apply mermaidRegex_split in E. destruct E as [E _].
    exists code, (skipn n s). exact E.
Qed.

Lemma mermaidRegex_none s : ~ blockStartsAt s -> mermaidRegex s = None.
Proof.
  intros H. destruct (mermaidRegex s) eqn:E; [|reflexivity].
  exfalso. apply H, blockStartsAt_iff. rewrite E. discriminate.
Qed.

Lemma startsWith_grows p t b :
  startsWith p t = true -> startsWith p (t ++ b) = true.
Proof.
  intros H. apply startsWith_split in H. rewrite H, <- app_assoc.
  apply startsWith_app.
Qed.

Lemma shortestBody_tail c code : shortestBody (c :: code) -> shortestBody code.
Proof.
  intros H a b E.
  assert (L : (List.length (c :: code) <= List.length (c :: a))%nat).
  { apply (H (c :: a) b). cbn [app]. rewrite E. reflexivity. }
  cbn [List.length] in L. lia.
Qed.

Lemma shortestBody_head c code rest :
  shortestBody (c :: code) ->
  startsWith fenceClose ((c :: code) ++ fenceClose ++ rest) = false.
Proof.
  intros H.
  destruct (startsWith fenceClose ((c :: code) ++ fenceClose ++ rest)) eqn:E;
    [|reflexivity].
  exfalso. rewrite app_assoc in E.
  rewrite startsWith_app_stable in E.
  - apply startsWith_split in E.
    assert (L : (List.length (c :: code) <= List.length (@nil Z))%nat).
    { apply (H [] (skipn (List.length fenceClose)
                         ((c :: code) ++ fenceClose))). exact E. }
    cbn [List.length] in L. lia.
  - apply orb_true_iff. left. apply Nat.leb_le.
    rewrite length_app. cbn [List.length]. change (List.length fenceClose) with 3%nat. lia.
Qed.

Lemma lazyUntilFence_shortest rest : forall code,
  shortestBody code ->
  lazyUntilFence (code ++ fenceClose ++ rest)
  = Some (code, (List.length code + 3)%nat).
Proof.
  induction code as [|c code IH]; intros H.
  - cbn [app]. rewrite lazyUntilFence_eq, startsWith_app. reflexivity.
  - rewrite lazyUntilFence_eq. rewrite (shortestBody_head c code rest H).
    cbn [app]. rewrite (IH (shortestBody_tail c code H)). reflexivity.
Qed.

Lemma lazyUntilFence_is_shortest : forall s code n,
  lazyUntilFence s = Some (code, n) -> shortestBody code.
Proof.
  induction s as [|c s IH]; intros code n H.
  - cbn in H. discriminate.
  - pose proof (lazyUntilFence_split _ _ _ H) as [Hs _].
    rewrite lazyUntilFence_eq in H.
    destruct (startsWith fenceClose (c :: s)) eqn:Hf.
    + inversion H; subst. intros a b _. cbn [List.length]. lia.
    + destruct (lazyUntilFence s) as [[body m]|] eqn:Hl; [|discriminate].
      inversion H; subst. specialize (IH _ _ eq_refl).
      intros a b E. destruct a as [|x a].
      * exfalso.
        assert (F : startsWith fenceClose ((c :: body) ++ fenceClose) = true)
          by (rewrite E; apply (startsWith_app fenceClose b)).
        apply (startsWith_grows _ _ (skipn (S m) (c :: s))) in F.
        rewrite <- app_assoc in F. rewrite <- Hs in F. congruence.
      * cbn [app] in E. inversion E; subst.
        specialize (IH a b H2). cbn [List.length]. lia.
Qed.

Lemma mermaidRegex_shortest code rest :
  shortestBody code ->
  mermaidRegex (fenceOpen ++ code ++ fenceClose ++ rest)
  = Some (code, (11 + (List.length code + 3))%nat).
Proof.
  intros H. unfold mermaidRegex. rewrite startsWith_app.
  change 11%nat with (List.length fenceOpen) at 1. rewrite skipn_prefix.
  rewrite (lazyUntilFence_shortest rest code H). reflexivity.
Qed.

Lemma mermaidRegex_is_shortest s code n :
  mermaidRegex s = Some (code, n) -> shortestBody code.
Proof.
  unfold mermaidRegex. destruct (startsWith fenceOpen s); [|discriminate].
  destruct (lazyUntilFence (skipn 11 s)) as [[b m]|] eqn:E; [|discriminate].
  intros H. inversion H; subst. apply (lazyUntilFence_is_shortest _ _ _ E).
Qed.

Lemma pieces_block_found code rest :
  shortestBody code ->
  pieces mermaidRegex 0 (fenceOpen ++ code ++ fenceClose ++ rest)
  = Match code :: pieces mermaidRegex 0 rest.
Proof.
  intros H. pose proof (mermaidRegex_shortest code rest H) as Hm.
  remember (fenceOpen ++ code ++ fenceClose ++ rest) as s eqn:Es.
  destruct s as [|x s]; [discriminate|].
  rewrite (pieces_match _ _ _ _ _ Hm). f_equal. f_equal.
  change (skipn (11 + (List.length code + 3) - 1) s)
    with (skipn (11 + (List.length code + 3)) (x :: s)).
  rewrite Es.
  replace (fenceOpen ++ code ++ fenceClose ++ rest)
    with ((fenceOpen ++ code ++ fenceClose) ++ rest)
    by (rewrite <- !app_assoc; reflexivity).
  replace (11 + (List.length code + 3))%nat
    with (List.length (fenceOpen ++ code ++ fenceClose))
    by (rewrite !length_app; reflexivity).
  apply skipn_prefix.
Qed.

(** The block expression finds the blocks of the relation. *)
Lemma Blocks_pieces md d :
  Blocks md d -> pieces mermaidRegex 0 md = blockPieces d.
Proof.
  induction 1 as [|t s d Hno _ IH|code rest d Hs _ IH]; [reflexivity| |].
  - cbn [blockPieces flat_map]. fold (blockPieces d). rewrite <- IH.
    apply pieces_lits. intros a b E Hb.
    apply mermaidRegex_none, (Hno a b E Hb).
  - cbn [blockPieces flat_map app]. fold (blockPieces d). rewrite <- IH.
    apply pieces_block_found, Hs.
Qed.

(** And the relation holds of what the expression finds. *)
Lemma pieces_Blocks : forall d md,
  pieces mermaidRegex 0 md = blockPieces d -> Blocks md d.
Proof.
  induction d as [|[t|code] d IH]; intros md H.
  - apply pieces_nil_inv in H. subst. constructor.
  - cbn [blockPieces flat_map] in H. fold (blockPieces d) in H.
    apply pieces_lits_inv in H. destruct H as (s' & -> & Hp & Hno).
    apply Blocks_text; [|apply IH, Hp].
    intros a b E Hb Hstart. apply blockStartsAt_iff in Hstart.
    apply Hstart, (Hno a b E Hb).
  - cbn [blockPieces flat_map app] in H. fold (blockPieces d) in H.
    apply pieces_match_inv in H. destruct H as (n & Hm & Hp).
    pose proof (mermaidRegex_is_shortest _ _ _ Hm) as Hs.
    pose proof (mermaidRegex_split _ _ _ Hm) as [E Hn].
    assert (Hk : skipn (n - 1) (tl md) = skipn n md).
    { destruct md as [|x md]; [discriminate|]. cbn [tl].
      replace n with (S (n - 1)) at 2 by lia. reflexivity. }
    rewrite Hk in Hp. rewrite E. apply Blocks_block; [exact Hs|].
    apply IH, Hp.
Qed.

Lemma blockPieces_of_pieces (ps : list (@piece jsstring)) :
  exists d, blockPieces d = ps.
Proof.
  induction ps as [|[c|code] ps [d IH]].
  - exists []. reflexivity.
  - exists (Text [c] :: d). cbn. rewrite <- IH. reflexivity.
  - exists (Diagram code :: d). cbn. rewrite <- IH. reflexivity.
Qed.

(** Every markdown text reads as text and blocks. *)
Lemma Blocks_total md : exists d, Blocks md d.
Proof.
  destruct (blockPieces_of_pieces (pieces mermaidRegex 0 md)) as [d Hd].
  exists d. apply pieces_Blocks. symmetry. exact Hd.
Qed.

Lemma matches_blockPieces d : matches (blockPieces d) = codesOf d.
Proof.
  induction d as [|[t|code] d IH]; [reflexivity| |].
  - cbn [blockPieces flat_map codesOf]. fold (blockPieces d).
    rewrite matches_lits. exact IH.
  - cbn [blockPieces flat_map codesOf app]. fold (blockPieces d).
    unfold matches in *. cbn [flat_map app]. rewrite IH. reflexivity.
Qed.

Lemma flat_map_blockPieces d :
  flat_map (pieceText placeholderOf) (blockPieces d) = protectedOf d.
Proof.
  induction d as [|[t|code] d IH]; [reflexivity| |].
  - cbn [blockPieces flat_map protectedOf]. fold (blockPieces d).
    rewrite flat_map_lits, IH. reflexivity.
  - cbn [blockPieces flat_map protectedOf app pieceText].
    fold (blockPieces d). rewrite IH. reflexivity.
Qed.

(** What the protector does with a markdown text read as [d]. *)
Lemma Blocks_protect md d :
  Blocks md d ->
  md = markdownOf d
  /\ diagramBlocks md = codesOf d
  /\ processedMarkdown (processMermaidDiagrams md) = protectedOf d
  /\ hasMermaidDiagrams (processMermaidDiagrams md)
     = negb (Nat.eqb (List.length (codesOf d)) 0).
Proof.
  intros H. split; [|split; [|split]].
  - induction H as [|t s d _ _ IH|code rest d _ _ IH]; [reflexivity| |];
      cbn [markdownOf]; rewrite <- IH; reflexivity.
  - unfold diagramBlocks. rewrite (Blocks_pieces _ _ H).
    apply matches_blockPieces.
  - rewrite processedMarkdown_pieces, (Blocks_pieces _ _ H).
    apply flat_map_blockPieces.
  - unfold processMermaidDiagrams.
    rewrite (replaceAll_pieces mermaidRegex placeholderOf (fun _ _ => true)).
    cbn [hasMermaidDiagrams]. rewrite (Blocks_pieces _ _ H).
    rewrite matches_blockPieces.
    destruct (codesOf d) as [|code codes]; [reflexivity|].
    cbn [fold_left List.length Nat.eqb negb].
    clear. induction codes as [|x codes IH]; [reflexivity|]. exact IH.
Qed.


(** *** Placeholder tokens *)

Lemma takePayload_split : forall x,
  x = takePayload x ++ skipn (List.length (takePayload x)) x
  /\ forallb isPayloadChar (takePayload x) = true
  /\ headIsPayload (skipn (List.length (takePayload x)) x) = false.
Proof.
  induction x as [|c x IH]; [repeat split; reflexivity|].
  cbn [takePayload]. destruct (isPayloadChar c) eqn:Ec.
  - destruct IH as (E & Hp & Hh). cbn [List.length skipn app forallb].
    rewrite Ec, Hp. repeat split; [|exact Hh]. f_equal. exact E.
  - cbn [List.length skipn app forallb headIsPayload]. auto.
Qed.

Lemma placeholderRegex_split s payload n :
  placeholderRegex s = Some (payload, n) ->
  s = placeholderPrefix ++ payload ++ skipn n s
  /\ n = (28 + List.length payload)%nat
  /\ payload <> []
  /\ forallb isPayloadChar payload = true
  /\ headIsPayload (skipn n s) = false.
Proof.
  unfold placeholderRegex.
  destruct (startsWith placeholderPrefix s) eqn:Hs; [|discriminate].
  destruct (takePayload (skipn 28 s)) as [|c p] eqn:Ht; [discriminate|].
  intros H. inversion H; subst payload n. clear H.
  destruct (takePayload_split (skipn 28 s)) as (E & Hp & Hh).
  rewrite Ht in E, Hp, Hh. rewrite skipn_skipn in E, Hh.
  replace (List.length (c :: p) + 28)%nat
    with (28 + List.length (c :: p))%nat in E, Hh by lia.
  apply startsWith_split in Hs.
  change (List.length placeholderPrefix) with 28%nat in Hs.
  split; [|split; [reflexivity|split; [discriminate|split; assumption]]].
  rewrite Hs at 1. f_equal. exact E.
Qed.

Lemma tokenStartsAt_iff s : tokenStartsAt s <-> placeholderRegex s <> None.
Proof.
  split.
  - intros (c & rest & Hc & ->). unfold placeholderRegex.
    rewrite startsWith_app.
    change 28%nat with (List.length placeholderPrefix) at 1.
    rewrite skipn_prefix. cbn [takePayload]. rewrite Hc. discriminate.
  - intros H. destruct (placeholderRegex s) as [[p n]|] eqn:E;
      [|contradiction].
    apply placeholderRegex_split in E.
    destruct E as (E & _ & Hne & Hp & _).
    destruct p as [|c p]; [contradiction|].
    cbn [forallb] in Hp. apply andb_prop in Hp as [Hc _].
    exists c, (p ++ skipn n s). split; [exact Hc | exact E].
Qed.

Lemma placeholderRegex_none s : ~ tokenStartsAt s -> placeholderRegex s = None.
Proof.
  intros H. destruct (placeholderRegex s) eqn:E; [|reflexivity].
  exfalso. apply H, tokenStartsAt_iff. rewrite E. discriminate.
Qed.

(** The token expression finds the tokens of the relation, and only
    those. *)
Lemma Tokenized_pieces html ps :
  Tokenized html ps -> pieces placeholderRegex 0 html = ps.
Proof.
  induction 1 as [|c s ps Hno _ IH|payload rest ps Hne Hp Hh _ IH];
    [reflexivity| |].
  - rewrite pieces_lit by (apply placeholderRegex_none, Hno).
    rewrite IH. reflexivity.
  - destruct payload as [|c payload]; [contradiction|].
    rewrite (pieces_token c payload rest Hp Hh), IH. reflexivity.
Qed.

Lemma pieces_Tokenized_of : forall ps html,
  pieces placeholderRegex 0 html = ps -> Tokenized html ps.
Proof.
  induction ps as [|[c|payload] ps IH]; intros html H.
  - apply pieces_nil_inv in H. subst. constructor.
  - apply pieces_lit_inv in H. destruct H as (s & -> & Hn & Hp).
    apply Tokenized_text; [|apply IH, Hp].
    intros Hs. apply tokenStartsAt_iff in Hs. contradiction.
  - apply pieces_match_inv in H. destruct H as (n & Hm & Hp).
    destruct (placeholderRegex_split _ _ _ Hm) as (E & Hn & Hne & Hc & Hh).
    assert (Hk : skipn (n - 1) (tl html) = skipn n html).
    { destruct html as [|x html]; [discriminate|]. cbn [tl].
      replace n with (S (n - 1)) at 2 by lia. reflexivity. }
    rewrite Hk in Hp. rewrite E.
    apply Tokenized_token; [exact Hne | exact Hc | exact Hh | apply IH, Hp].
Qed.

Lemma pieces_Tokenized html : Tokenized html (pieces placeholderRegex 0 html).
Proof. apply pieces_Tokenized_of. reflexivity. Qed.

(** Every text reads as code units and tokens, in one way. *)
Lemma Tokenized_unique html ps ps' :
  Tokenized html ps -> Tokenized html ps' -> ps = ps'.
Proof.
  intros H H'. apply Tokenized_pieces in H, H'. congruence.
Qed.


(** ** Protect, render, restore *)

Lemma mermaidDiv_inj a b : mermaidDiv a = mermaidDiv b -> a = b.
Proof.
  unfold mermaidDiv. rewrite !app_assoc. intros H.
  apply app_inv_tail in H. repeat rewrite <- app_assoc in H.
  repeat apply app_inv_head in H. exact H.
Qed.

(** X17.  In a well delimited document (text that holds no fence and no
    token; bodies that hold no closing fence, are not blank and have no
    unpaired surrogate; no character of the token alphabet behind a block)
    protect then restore gives the text back unchanged with, for every block,
    a container holding exactly the trimmed body; a body that differs from
    its trimmed form is therefore not given back character for character. *)
Theorem protect_restore_trims (d : list segment) :
  wellDelimited d = true ->
  diagramBlocks (markdownOf d) = codesOf d
  /\ restoreMermaidDiagrams
       (processedMarkdown (processMermaidDiagrams (markdownOf d)))
     = restoredOf d
  /\ (forall code, In code (codesOf d) -> trim code <> code ->
                   mermaidDiv (trim code) <> mermaidDiv code).
Proof.
  intros H. destruct (pieces_markdownOf d H) as [Hb Hp].
  split; [exact Hb|]. split.
  - rewrite Hp. apply restore_protectedOf, H.
  - intros code _ Hd E. apply Hd, mermaidDiv_inj, E.
Qed.

Lemma protect_restore_trims_witness :
  restoreMermaidDiagrams
    (processedMarkdown (processMermaidDiagrams (markdownOf report)))
  = js "# Flow" ++ [10; 10] ++ mermaidDiv (js "graph TD; A-->B")
    ++ [10] ++ js "Some `code` and " ++ mermaidDiv (js "C-->D") ++ [10]
  /\ mermaidDiv (js "graph TD; A-->B")
     <> mermaidDiv (js "  graph TD; A-->B " ++ [10]).
Proof.
  destruct (protect_restore_trims report) as (_ & H1 & H2);
    [vm_compute; reflexivity|].
  split.
  - rewrite H1. vm_compute. reflexivity.
  - change (js "graph TD; A-->B")
      with (trim (js "  graph TD; A-->B " ++ [10])).
    apply H2; [vm_compute; auto | vm_compute; discriminate].
Defined.

(** C10 (the code departs from it).  A block with the body [abc], which
    is not blank and equals its trimmed form, followed directly by the text
    [QUJD]: the token the protector writes runs into that text, restore
    decodes both together, and the one container of the result holds
    [abcABC], not the trimmed body [abc]; the text [QUJD] is gone. *)
Theorem adjacent_text_joins_token :
  diagramBlocks (fenceOpen ++ js "abc" ++ fenceClose ++ js "QUJD")
  = [js "abc"]
  /\ trim (js "abc") = js "abc"
  /\ processedMarkdown
       (processMermaidDiagrams
          (fenceOpen ++ js "abc" ++ fenceClose ++ js "QUJD"))
     = placeholderPrefix ++ js "YWJj" ++ js "QUJD"
  /\ restoreMermaidDiagrams
       (processedMarkdown
          (processMermaidDiagrams
             (fenceOpen ++ js "abc" ++ fenceClose ++ js "QUJD")))
     = mermaidDiv (js "abcABC")
  /\ mermaidContainers
       (restoreMermaidDiagrams
          (processedMarkdown
             (processMermaidDiagrams
                (fenceOpen ++ js "abc" ++ fenceClose ++ js "QUJD"))))
     = [(js "div", Some (js "abcABC"))]
  /\ js "abcABC" <> trim (js "abc").
Proof.
  repeat split; try (vm_compute; reflexivity). vm_compute. discriminate.
Qed.

(** *** The containers of a restored document *)

Lemma mermaidDiv_open code :
  mermaidDiv code = mermaidOpen ++ code ++ js "</div>".
Proof. unfold mermaidDiv, mermaidOpen. repeat rewrite <- app_assoc. reflexivity. Qed.

Lemma restore_tokenPieces : forall d,
  Forall (fun code => wellFormed (trim code) = true) (codesOf d) ->
  flat_map (pieceText (fun t => mermaidDiv (utf8_decode (base64_decode t))))
           (tokenPieces d)
  = restoredOf d.
Proof.
  induction d as [|[t|code] d IH]; intros H; [reflexivity| |].
  - cbn [tokenPieces flat_map restoredOf]. fold (tokenPieces d).
    rewrite flat_map_lits, (IH H). reflexivity.
  - cbn [codesOf flat_map app] in H. fold (codesOf d) in H.
    inversion H as [|? ? Hw Hd]; subst.
    cbn [tokenPieces flat_map restoredOf app pieceText].
    fold (tokenPieces d). rewrite (IH Hd), (decode_placeholder_payload _ Hw).
    reflexivity.
Qed.

Lemma restoredOf_containers : forall d,
  Forall (fun t => completeMarkup t = true /\ mermaidContainers t = [])
         (textsOf d) ->
  Forall (fun code => plainText (trim code)) (codesOf d) ->
  fst (htmlScan Data (restoredOf d)) = Data
  /\ classContents (js "mermaid") (snd (htmlScan Data (restoredOf d)))
     = map (fun code => (js "div", Some (trim code))) (codesOf d).
Proof.
  induction d as [|[t|code] d IH]; intros Ht Hc; [split; reflexivity| |].
  - cbn [textsOf flat_map app] in Ht. fold (textsOf d) in Ht.
    inversion Ht as [|? ? [Hm Hn] Hd]; subst.
    destruct (IH Hd Hc) as [IH1 IH2].
    cbn [restoredOf codesOf flat_map app]. fold (codesOf d).
    rewrite htmlScan_app, (completeMarkup_scan _ Hm). cbn [fst snd].
    split; [exact IH1|].
    rewrite classContents_none by exact Hn. exact IH2.
  - cbn [codesOf flat_map app] in Hc. fold (codesOf d) in Hc.
    inversion Hc as [|? ? [Hs Hw] Hd]; subst.
    destruct (IH Ht Hd) as [IH1 IH2].
    cbn [restoredOf codesOf flat_map app map]. fold (codesOf d).
    rewrite mermaidDiv_open. repeat rewrite <- app_assoc.
    rewrite htmlScan_app.
    replace (htmlScan Data mermaidOpen)
      with (Data, [StartTag (js "div") (Some (js "mermaid"))])
      by (vm_compute; reflexivity).
    cbn [fst snd]. rewrite app_assoc, htmlScan_app, Hs. cbn [fst snd].
    split; [exact IH1|].
    cbn [app]. rewrite <- app_assoc. cbn [app].
    rewrite classContents_element by (vm_compute; reflexivity).
    rewrite Hw, IH2. reflexivity.
Qed.




(** X22.  Protect then restore, without the markdown engine between them:
    when the markdown reads as the document [d], the protected text reads as
    the tokens of [d] and nothing else (no token runs into what follows it,
    no body is blank, the text holds nothing that reads as a token), and the
    trimmed bodies are well formed, the result is the text of [d] with a
    container around the trimmed body in the place of every block. *)
Theorem protect_then_restore (md : jsstring) (d : list segment) :
  Blocks md d ->
  Tokenized (protectedOf d) (tokenPieces d) ->
  Forall (fun code => wellFormed (trim code) = true) (codesOf d) ->
  restoreMermaidDiagrams (processedMarkdown (processMermaidDiagrams md))
  = restoredOf d.
Proof.
  intros HB HT Hw. destruct (Blocks_protect md d HB) as (_ & _ & Hp & _).
  rewrite Hp, restoreMermaidDiagrams_pieces, (Tokenized_pieces _ _ HT).
  apply restore_tokenPieces, Hw.
Qed.

Lemma protect_then_restore_witness :
  restoreMermaidDiagrams
    (processedMarkdown (processMermaidDiagrams (markdownOf report)))
  = js "# Flow" ++ [10; 10] ++ mermaidDiv (js "graph TD; A-->B")
    ++ [10] ++ js "Some `code` and " ++ mermaidDiv (js "C-->D") ++ [10].
Proof.
  rewrite (protect_then_restore (markdownOf report) report).
  - vm_compute. reflexivity.
  - apply pieces_Blocks. vm_compute. reflexivity.
  - apply pieces_Tokenized_of. vm_compute. reflexivity.
  - repeat constructor.
Defined.



Lemma renderDelayFor_long md :
  renderDelayFor md = 10000 <-> containsDiagram md.
Proof.
  unfold renderDelayFor. rewrite <- hasMermaidDiagrams_iff.
  destruct (hasMermaidDiagrams (processMermaidDiagrams md)); split; intros H;
    try reflexivity; discriminate.
Qed.

Lemma renderDelayFor_base md :
  renderDelayFor md = 5000 <-> ~ containsDiagram md.
Proof.
  unfold renderDelayFor. rewrite <- hasMermaidDiagrams_iff.
  destruct (hasMermaidDiagrams (processMermaidDiagrams md)); split; intros H;
    try reflexivity; try discriminate.
  exfalso. apply H. reflexivity.
Qed.

Lemma tmpFileCallback_render world options html o :
  In (RenderPDF o) (fst (tmpFileCallback world options html)) ->
  exists tmpHtmlPath, o = options tmpHtmlPath.
Proof.
  unfold tmpFileCallback.
  destruct (tmpFile world) as [tmpHtmlPath|]; [|intros []].
  destruct (closeSync world); [|cbn; intros [H|[]]; discriminate].
  destruct (writeFile world tmpHtmlPath html);
    [|cbn; intros [H|[H|[]]]; discriminate].
  destruct (importRenderer world);
    [|cbn; intros [H|[H|[]]]; discriminate].
  cbn. intros [H|[H|[H|[]]]]; try discriminate.
  inversion H. eauto.
Qed.

Lemma convertToPdf_render path moduleDir world fuel md out pf po pb wm o :
  In (RenderPDF o)
     (fst (convertToPdf path moduleDir world fuel md out pf po pb wm)) ->
  renderDelay o = renderDelayFor md.
Proof.
  unfold convertToPdf.
  destruct (getIncrementalPath path (existsSync world) fuel out) as [free|];
    [|intros []].
  destruct (mkdirSync world _); [|cbn; intros [H|[]]; discriminate].
  destruct (renderBody world md) as [htmlContent|];
    [|cbn; intros [H|[]]; discriminate].
  destruct (tmpFileCallback world _ _) as [effects p] eqn:E.
  cbn [fst]. intros [H|H]; [discriminate|].
  assert (H' : In (RenderPDF o) (fst (effects, p))) by exact H.
  rewrite <- E in H'. apply tmpFileCallback_render in H'.
  destruct H' as [t Ht]. subst o. reflexivity.
Qed.

(** C4.  The [renderDelay] given to the PDF renderer is 10000 exactly when
    the markdown contains a fenced diagram block, and 5000 exactly when it
    contains none. *)
Theorem renderDelay_follows_diagrams path moduleDir world fuel
        md out pf po pb wm o :
  In (RenderPDF o)
     (fst (convertToPdf path moduleDir world fuel md out pf po pb wm)) ->
  (renderDelay o = 10000 <-> containsDiagram md)
  /\ (renderDelay o = 5000 <-> ~ containsDiagram md).
Proof.
  intros H. rewrite (convertToPdf_render _ _ _ _ _ _ _ _ _ _ _ H).
  split; [apply renderDelayFor_long | apply renderDelayFor_base].
Qed.

Lemma renderDelay_follows_diagrams_witness :
  (renderDelay
     (optionsFor posixPath (js "/app") twoDiagrams (js "/home/user/output.pdf")
                 (js "letter") (js "portrait") (js "2cm")
                 (js "/tmp/tmp-1.html")) = 10000
   <-> containsDiagram twoDiagrams)
  /\ (renderDelay
        (optionsFor posixPath (js "/app") twoDiagrams
                    (js "/home/user/output.pdf")
                    (js "letter") (js "portrait") (js "2cm")
                    (js "/tmp/tmp-1.html")) = 5000
      <-> ~ containsDiagram twoDiagrams).
Proof.
  apply (renderDelay_follows_diagrams posixPath (js "/app") quietWorld 2
           twoDiagrams (js "/home/user/output.pdf")
           (js "letter") (js "portrait") (js "2cm") []).
  vm_compute. do 3 right. left. reflexivity.
Defined.

(** ** Highlighter and call handler *)

(** C6.  The highlighter never throws: it always completes normally, with
    the markup of the tagged language when the tag is recognized and
    highlighting succeeds, else with the markup of automatic detection, else
    with the empty string. *)
Theorem highlight_never_throws
        (getLanguage : jsstring -> bool)
        (hljsHighlight : jsstring -> jsstring -> completion jsstring)
        (hljsHighlightAuto : jsstring -> completion jsstring)
        (str language : jsstring) :
  highlight getLanguage hljsHighlight hljsHighlightAuto str language
  = Normal (highlightSpec getLanguage hljsHighlight hljsHighlightAuto
                          str language).
Proof.
  unfold highlight, highlightSpec, highlightAuto, tryCatch.
  destruct (truthy language && getLanguage language).
  - destruct (hljsHighlight str language); [reflexivity|].
    destruct (hljsHighlightAuto str); reflexivity.
  - destruct (hljsHighlightAuto str); reflexivity.
Qed.

Lemma handler_reports_rejection path toLowerCase moduleDir world fuel proc
      request a md outputPath pf po pb wm e :
  jseqb (name request) toolName = true ->
  arguments request = Some a ->
  convertArguments path toLowerCase proc a
  = Normal (md, outputPath, pf, po, pb, wm) ->
  snd (convertToPdfOf path moduleDir world fuel md outputPath pf po pb wm)
  = Rejected e ->
  snd (callToolHandler path toLowerCase moduleDir world fuel proc request)
  = Returns {| text := js "Failed to create PDF: " ++ errorMessageOf e;
               isError := true |}.
Proof.
  intros Hname Ha Hc. unfold callToolHandler. rewrite Hname, Ha, Hc.
  cbn [negb].
  destruct (convertToPdfOf path moduleDir world fuel md outputPath pf po pb wm)
    as [effects p].
  cbn [snd]. intros ->. reflexivity.
Qed.

(** What the handler throws is thrown before its [try]: for an unknown
    tool, for missing arguments, or for a file name that is no string. *)
Lemma handler_throws_before_try path toLowerCase moduleDir world fuel proc
      request e :
  snd (callToolHandler path toLowerCase moduleDir world fuel proc request)
  = Throws e ->
  jseqb (name request) toolName = false
  \/ arguments request = None
  \/ exists a, arguments request = Some a
               /\ convertArguments path toLowerCase proc a = Throw e.
Proof.
  unfold callToolHandler.
  destruct (jseqb (name request) toolName); cbn [negb]; [|auto].
  destruct (arguments request) as [a|]; [|auto].
  destruct (convertArguments path toLowerCase proc a)
    as [[[[[[md outputPath] pf] po] pb] wm]|e'] eqn:Ec.
  - destruct (convertToPdfOf path moduleDir world fuel md outputPath pf po pb wm)
      as [effects [ |err| ]]; cbn [snd]; discriminate.
  - cbn [snd]. intros H. inversion H; subst. right. right. eauto.
Qed.

(** C7 (the code departs from it).  When closing the temporary file
    throws, the error is raised inside [convertToPdf] outside every [try]:
    the promise is never settled and the handler gives no answer, neither a
    result flagged as an error nor any other. *)
Theorem close_failure_gets_no_answer :
  callToolHandler posixPath asciiLowerCase (js "/app") closeFailsWorld 2
                  homeProcess (requestWith (js "hello") None)
  = ([MkdirSync (js "/home/user"); CloseSync], NoAnswer).
Proof. vm_compute. reflexivity. Qed.

(** C8 (the code departs from it).  A request whose watermark has twenty
    characters is not rejected: the handler passes the watermark unchanged to
    [convertToPdf], which writes it into the composed document and answers
    with success. *)
Theorem long_watermark_reaches_pipeline :
  (15 < List.length tooLong)%nat
  /\ option_map (convertArguments posixPath asciiLowerCase homeProcess)
       (arguments (requestWith (js "hello") (Some tooLong)))
     = Some (Normal (Str (js "hello"), js "/home/user/output.pdf", js "letter",
                     js "portrait", js "2cm", tooLong))
  /\ snd (callToolHandler posixPath asciiLowerCase (js "/app") quietWorld 2
            homeProcess (requestWith (js "hello") (Some tooLong)))
     = Returns {| text := js "Successfully created PDF at: /home/user/output.pdf";
                  isError := false |}
  /\ In (WriteFile (js "/tmp/tmp-1.html")
           (composeHtml (js "letter") (js "portrait") false
              (renderParagraph (js "hello")) tooLong))
        (fst (callToolHandler posixPath asciiLowerCase (js "/app") quietWorld 2
                homeProcess (requestWith (js "hello") (Some tooLong)))).
Proof.
  split; [cbn; lia|]. split; [vm_compute; reflexivity|].
  split; [vm_compute; reflexivity|].
  vm_compute. right. right. left. reflexivity.
Qed.

(** ** Further properties of the code *)

(** X1.  Round trip of the token payload: for a text without unpaired
    surrogates, the decoding [restoreMermaidDiagrams] performs on the payload
    [processMermaidDiagrams] writes gives the text back. *)
Theorem payload_round_trip (text : jsstring) :
  wellFormed text = true ->
  bufferDecode (base64_encode (utf8_encode text)) = Some text.
Proof.
  intros H. unfold bufferDecode. rewrite decode_placeholder_payload by exact H.
  reflexivity.
Qed.

Lemma payload_round_trip_witness :
  bufferDecode (base64_encode (utf8_encode [103; 233; 8364; 55357; 56832]))
  = Some [103; 233; 8364; 55357; 56832].
Proof. apply payload_round_trip. vm_compute. reflexivity. Defined.

Lemma trimStart_suffix : forall s, exists ws, s = ws ++ trimStart s.
Proof.
  induction s as [|c s [ws IH]]; [exists []; reflexivity|].
  cbn [trimStart]. destruct (isWhiteSpace c).
  - exists (c :: ws). cbn [app]. f_equal. exact IH.
  - exists []. reflexivity.
Qed.

Lemma trimStart_idem : forall s, trimStart (trimStart s) = trimStart s.
Proof.
  induction s as [|c s IH]; [reflexivity|]. cbn [trimStart].
  destruct (isWhiteSpace c) eqn:E; [exact IH|].
  cbn [trimStart]. rewrite E. reflexivity.
Qed.

Lemma trimStart_snoc c : forall l,
  isWhiteSpace c = false -> trimStart (l ++ [c]) = trimStart l ++ [c].
Proof.
  intros l Hc. induction l as [|x l IH]; cbn [app trimStart].
  - rewrite Hc. reflexivity.
  - destruct (isWhiteSpace x); [exact IH | reflexivity].
Qed.

Lemma trimEnd_idem s : trimEnd (trimEnd s) = trimEnd s.
Proof. unfold trimEnd. rewrite rev_involutive, trimStart_idem. reflexivity. Qed.

Lemma trimStart_head s :
  match trimStart s with [] => True | c :: _ => isWhiteSpace c = false end.
Proof.
  induction s as [|c s IH]; [exact I|]. cbn [trimStart].
  destruct (isWhiteSpace c) eqn:E; [exact IH | exact E].
Qed.

Lemma trimStart_trimEnd t :
  match t with [] => True | c :: _ => isWhiteSpace c = false end ->
  trimStart (trimEnd t) = trimEnd t.
Proof.
  destruct t as [|c t]; [reflexivity|]. intros Hc.
  unfold trimEnd. cbn [rev]. rewrite trimStart_snoc by exact Hc.
  rewrite rev_app_distr. cbn [rev app trimStart]. rewrite Hc. reflexivity.
Qed.

Lemma trim_idem s : trim (trim s) = trim s.
Proof.
  unfold trim. rewrite trimStart_trimEnd by apply trimStart_head.
  apply trimEnd_idem.
Qed.

(** X3.  White space around a diagram body does not change its
    placeholder, and the text that is encoded has none at either end. *)
Theorem placeholder_ignores_outer_space (code : jsstring) :
  placeholderOf (trim code) = placeholderOf code
  /\ trimStart (trim code) = trim code
  /\ trimEnd (trim code) = trim code.
Proof.
  unfold placeholderOf. rewrite trim_idem. split; [reflexivity|]. split.
  - unfold trim. apply trimStart_trimEnd, trimStart_head.
  - unfold trim. apply trimEnd_idem.
Qed.

Lemma Forall_trimStart (P : Z -> Prop) : forall s,
  Forall P s -> Forall P (trimStart s).
Proof.
  induction s as [|c s IH]; intros H; [constructor|].
  cbn [trimStart]. destruct (isWhiteSpace c); [|exact H].
  inversion H; subst. apply IH. assumption.
Qed.

Lemma Forall_trim (P : Z -> Prop) s : Forall P s -> Forall P (trim s).
Proof.
  intros H. unfold trim, trimEnd.
  apply Forall_rev, Forall_trimStart, Forall_rev, Forall_trimStart, H.
Qed.

Lemma base64_encode_length_upto (n : nat) : forall bs,
  (List.length bs <= n)%nat ->
  List.length (base64_encode bs) = (4 * ((List.length bs + 2) / 3))%nat.
Proof.
  induction n as [|n IH]; intros bs Hn.
  - destruct bs; [reflexivity | cbn in Hn; lia].
  - destruct bs as [|a [|b [|c rest]]]; [reflexivity | reflexivity | reflexivity |].
    cbn [base64_encode List.length app] in *.
    rewrite IH by lia.
    replace (S (S (S (List.length rest))) + 2)%nat
      with (1 * 3 + (List.length rest + 2))%nat by lia.
    rewrite Nat.div_add_l by lia. lia.
Qed.

(** X2.  A placeholder is the fixed prefix followed by characters of the
    token alphabet only, four for every three bytes of the trimmed body
    (rounded up): nothing the markdown engine treats as markup. *)
Theorem placeholder_alphabet (code : jsstring) :
  Forall (fun c => 0 <= c < 65536) code ->
  forallb isPayloadChar (skipn 28 (placeholderOf code)) = true
  /\ firstn 28 (placeholderOf code) = placeholderPrefix
  /\ List.length (placeholderOf code)
     = (28 + 4 * ((List.length (utf8_encode (trim code)) + 2) / 3))%nat.
Proof.
  intros H. unfold placeholderOf.
  change 28%nat with (List.length placeholderPrefix) at 1 2.
  rewrite skipn_prefix, firstn_app, Nat.sub_diag, firstn_all.
  cbn [firstn]. rewrite app_nil_r, length_app.
  rewrite (base64_encode_length_upto _ _ (Nat.le_refl _)).
  split; [|split; reflexivity].
  apply base64_encode_payload, utf8_encode_bytes, Forall_trim, H.
Qed.

Lemma placeholder_alphabet_witness :
  forallb isPayloadChar (skipn 28 (placeholderOf (js " A-->B "))) = true
  /\ firstn 28 (placeholderOf (js " A-->B ")) = placeholderPrefix
  /\ List.length (placeholderOf (js " A-->B ")) = 36%nat.
Proof.
  apply (placeholder_alphabet (js " A-->B ")).
  repeat constructor; vm_compute; try discriminate; reflexivity.
Defined.

Section NoMatch.
Context {A : Type}.
Variable matchAt : jsstring -> option (A * nat).

Lemma pieces_without_match : forall s,
matches (pieces matchAt 0 s) = [] ->
pieces matchAt 0 s = map (fun c => Lit c) s.
Proof.
induction s as [|c s IH]; intros H; [reflexivity|].
cbn [pieces] in *. destruct (matchAt (c :: s)) as [[a n]|].
- discriminate.
- cbn [map]. f_equal. apply IH. exact H.
Qed.
End NoMatch.

Lemma flat_map_lits_only {A} (out : A -> jsstring) (s : jsstring) :
  flat_map (pieceText out) (map (fun c => Lit c) s) = s.
Proof.
  induction s as [|c s IH]; [reflexivity|]. cbn [map flat_map pieceText app].
  rewrite IH. reflexivity.
Qed.

(** X4.  A document without a fenced diagram block goes to the markdown
    engine unchanged, with the diagram flag off. *)
Theorem no_diagram_no_change (md : jsstring) :
  ~ containsDiagram md ->
  processMermaidDiagrams md
  = {| processedMarkdown := md; hasMermaidDiagrams := false |}.
Proof.
  intros Hno.
  assert (Hb : diagramBlocks md = []).
  { destruct (diagramBlocks md) eqn:E; [reflexivity|].
    exfalso. apply Hno, diagramBlocks_contains. rewrite E. discriminate. }
  pose proof (processedMarkdown_pieces md) as Hp.
  pose proof (hasMermaidDiagrams_blocks md) as Hh.
  rewrite Hb in Hh. unfold diagramBlocks in Hb.
  rewrite (pieces_without_match _ _ Hb), flat_map_lits_only in Hp.
  destruct (processMermaidDiagrams md) as [out flag].
  cbn in Hp, Hh. subst. reflexivity.
Qed.

Lemma no_diagram_no_change_witness :
  processMermaidDiagrams (js "```js" ++ [10] ++ js "let mermaid = 1;```")
  = {| processedMarkdown := js "```js" ++ [10] ++ js "let mermaid = 1;```";
       hasMermaidDiagrams := false |}.
Proof.
  apply no_diagram_no_change. intros H.
  apply hasMermaidDiagrams_iff in H. vm_compute in H. discriminate.
Defined.

Lemma pieces_without_prefix : forall html,
  countOccurrences placeholderPrefix html = 0%nat ->
  pieces placeholderRegex 0 html = map (fun c => Lit c) html.
Proof.
  induction html as [|c html IH]; intros H; [reflexivity|].
  cbn [countOccurrences] in H.
  destruct (startsWith placeholderPrefix (c :: html)) eqn:E; [discriminate|].
  rewrite pieces_lit by (apply placeholderRegex_starts, E).
  cbn [map]. f_equal. apply IH. exact H.
Qed.

(** X5.  HTML that does not contain the placeholder prefix is returned
    unchanged by the restore step, whatever the decoder does, and nothing is
    logged. *)
Theorem restore_without_token (decode : jsstring -> option jsstring)
        (html : jsstring) :
  countOccurrences placeholderPrefix html = 0%nat ->
  restoreWith decode html = (html, [])
  /\ restoreMermaidDiagrams html = html.
Proof.
  intros H.
  assert (E : forall d, restoreWith d html = (html, [])).
  { intros d. rewrite restoreWith_pieces. unfold placeholderTokens.
    rewrite (pieces_without_prefix html H), flat_map_lits_only.
    f_equal. unfold matches.
    induction html as [|c l IH]; [reflexivity|].
    cbn [map flat_map app].
    cbn [countOccurrences] in H.
    destruct (startsWith placeholderPrefix (c :: l)); [discriminate|].
    apply IH. exact H. }
  split; [apply E|]. unfold restoreMermaidDiagrams. rewrite E. reflexivity.
Qed.

Lemma restore_without_token_witness :
  restoreWith (fun _ => None) (js "<p>MERMAID_DIAGRAM of a PLACEHOLDER_</p>")
  = (js "<p>MERMAID_DIAGRAM of a PLACEHOLDER_</p>", [])
  /\ restoreMermaidDiagrams (js "<p>MERMAID_DIAGRAM of a PLACEHOLDER_</p>")
     = js "<p>MERMAID_DIAGRAM of a PLACEHOLDER_</p>".
Proof.
  apply restore_without_token. vm_compute. reflexivity.
Defined.

(** X6.  Placeholders identify bodies: two bodies with well-formed trimmed
    text get the same placeholder only if their trimmed texts are equal. *)
Theorem placeholder_identifies_body (a b : jsstring) :
  wellFormed (trim a) = true -> wellFormed (trim b) = true ->
  placeholderOf a = placeholderOf b -> trim a = trim b.
Proof.
  intros Ha Hb H. unfold placeholderOf in H. apply app_inv_head in H.
  rewrite <- (decode_placeholder_payload (trim a) Ha).
  rewrite <- (decode_placeholder_payload (trim b) Hb).
  rewrite H. reflexivity.
Qed.

Lemma placeholder_identifies_body_witness :
  trim (js " A-->B ") = trim (js "A-->B" ++ [10]).
Proof.
  apply placeholder_identifies_body; vm_compute; reflexivity.
Defined.

Section LoopFacts.
Variable path : PathModule.
Variable existsSync : jsstring -> bool.
Variable basePath : jsstring.

Lemma loop_result : forall fuel k p,
(forall j, (1 <= j < k)%nat -> existsSync (candidate path basePath j) = true) ->
incrementalLoop path existsSync fuel basePath (S k) (candidate path basePath k)
= Some p ->
exists n, (k <= n)%nat /\ p = candidate path basePath n
          /\ existsSync p = false
          /\ forall j, (1 <= j < n)%nat ->
               existsSync (candidate path basePath j) = true.
Proof.
induction fuel as [|fuel IH]; intros k p Hbelow H; [discriminate|].
cbn [incrementalLoop] in H.
destruct (existsSync (candidate path basePath k)) eqn:E.
- destruct (IH (S k) p) as (n & Hn & Hp & Hfree & Hall); [|exact H|].
  + intros j Hj. destruct (Nat.eq_dec j k) as [->|Hne]; [exact E|].
    apply Hbelow. lia.
  + exists n. repeat split; try assumption. lia.
- inversion H; subst p. exists k. repeat split; try assumption. lia.
Qed.
End LoopFacts.

Lemma incrementalPath_result (path : PathModule)
        (existsSync : jsstring -> bool) (fuel : nat) (basePath p : jsstring) :
  getIncrementalPath path existsSync fuel basePath = Some p ->
  existsSync p = false
  /\ (if existsSync basePath then
        exists n, (1 <= n)%nat /\ p = candidate path basePath n
                  /\ forall j, (1 <= j < n)%nat ->
                       existsSync (candidate path basePath j) = true
      else p = basePath).
Proof.
  unfold getIncrementalPath. destruct fuel as [|fuel]; [discriminate|].
  cbn [incrementalLoop]. destruct (existsSync basePath) eqn:E; intros H.
  - destruct (loop_result path existsSync basePath fuel 1 p) as
        (n & Hn & Hp & Hfree & Hall); [intros j Hj; lia | exact H |].
    split; [exact Hfree|]. exists n. repeat split; assumption.
  - inversion H; subst p. split; [exact E | reflexivity].
Qed.

(** X7.  Whatever [fs.existsSync] answers, when [getIncrementalPath]
    returns a path, that path does not exist; it is the requested path when
    that one does not exist, and otherwise a candidate whose smaller counters
    all exist. *)
Theorem getIncrementalPath_result (path : PathModule)
        (existsSync : jsstring -> bool) (fuel : nat) (basePath p : jsstring) :
  getIncrementalPath path existsSync fuel basePath = Some p ->
  existsSync p = false
  /\ (if existsSync basePath then
        exists n, (1 <= n)%nat /\ p = candidate path basePath n
                  /\ forall j, (1 <= j < n)%nat ->
                       existsSync (candidate path basePath j) = true
      else p = basePath).
Proof. apply incrementalPath_result. Qed.

Lemma getIncrementalPath_result_witness :
  existsIn [outputPdf] (js "/home/user/output-1.pdf") = false
  /\ (if existsIn [outputPdf] outputPdf then
        exists n, (1 <= n)%nat
                  /\ js "/home/user/output-1.pdf" = candidate posixPath outputPdf n
                  /\ forall j, (1 <= j < n)%nat ->
                       existsIn [outputPdf] (candidate posixPath outputPdf j) = true
      else js "/home/user/output-1.pdf" = outputPdf).
Proof.
  apply (getIncrementalPath_result posixPath (existsIn [outputPdf]) 2 outputPdf).
  vm_compute. reflexivity.
Defined.

(** X8.  Normalizing a file name twice is normalizing it once: the suffix is
    never appended a second time. *)
Theorem normalizeFilename_idempotent
        (toLowerCase : jsstring -> jsstring) (outputFilename : jsstring) :
  (forall s, endsWith dotPdf (toLowerCase (s ++ dotPdf)) = true) ->
  normalizeFilename toLowerCase (normalizeFilename toLowerCase outputFilename)
  = normalizeFilename toLowerCase outputFilename.
Proof.
  intros Hlow. unfold normalizeFilename.
  destruct (hasPdfSuffix toLowerCase outputFilename) eqn:E.
  - rewrite E. reflexivity.
  - assert (H : hasPdfSuffix toLowerCase (outputFilename ++ dotPdf) = true)
      by apply Hlow.
    rewrite H. reflexivity.
Qed.

Lemma normalizeFilename_idempotent_witness :
  normalizeFilename asciiLowerCase (normalizeFilename asciiLowerCase (js "Notes.Pdf"))
  = normalizeFilename asciiLowerCase (js "Notes.Pdf").
Proof.
  apply normalizeFilename_idempotent. apply asciiLowerCase_pdf.
Defined.

Lemma render_call_shape path moduleDir world fuel
        md out pf po pb wm o :
  In (RenderPDF o)
     (fst (convertToPdf path moduleDir world fuel md out pf po pb wm)) ->
  exists free rendered,
    getIncrementalPath path (existsSync world) fuel out = Some free
    /\ existsSync world free = false
    /\ mdRender world (processedMarkdown (processMermaidDiagrams md))
       = Normal rendered
    /\ o = optionsFor path moduleDir md (resolve path [free]) pf po pb (htmlPath o)
    /\ fst (convertToPdf path moduleDir world fuel md out pf po pb wm)
       = [MkdirSync (dirname path (pdfPath o));
          CloseSync;
          WriteFile (htmlPath o)
            (composeHtml pf po
               (hasMermaidDiagrams (processMermaidDiagrams md))
               (restoreMermaidDiagrams rendered) wm);
          RenderPDF o].
Proof.
  unfold convertToPdf.
  destruct (getIncrementalPath path (existsSync world) fuel out) as [free|] eqn:Ef;
    [|intros []].
  destruct (incrementalPath_result _ _ _ _ _ Ef) as [Hfree _].
  destruct (mkdirSync world _); [|cbn; intros [H|[]]; discriminate].
  unfold renderBody, bindC.
  destruct (mdRender world _) as [rendered|] eqn:Er;
    [|cbn; intros [H|[]]; discriminate].
  unfold tmpFileCallback.
  destruct (tmpFile world) as [tmpHtmlPath|]; [|cbn; intros [H|[]]; discriminate].
  destruct (closeSync world); [|cbn; intros [H|[H|[]]]; discriminate].
  destruct (writeFile world tmpHtmlPath _);
    [|cbn; intros [H|[H|[H|[]]]]; discriminate].
  destruct (importRenderer world);
    [|cbn; intros [H|[H|[H|[]]]]; discriminate].
  cbn [fst]. intros [H|[H|[H|[H|[]]]]]; try discriminate.
  inversion H as [Ho]. exists free, rendered.
  repeat split; try assumption; reflexivity.
Qed.

(** X9.  When the PDF renderer is called, it is the last thing
    [convertToPdf] does, after creating the directory of the PDF, closing the
    temporary file and writing the composed document to the very file whose
    path the renderer receives; the PDF path it receives does not exist when
    it is chosen. *)
Theorem render_call_is_prepared path moduleDir world fuel
        md out pf po pb wm o :
  In (RenderPDF o)
     (fst (convertToPdf path moduleDir world fuel md out pf po pb wm)) ->
  exists free rendered,
    getIncrementalPath path (existsSync world) fuel out = Some free
    /\ existsSync world free = false
    /\ mdRender world (processedMarkdown (processMermaidDiagrams md))
       = Normal rendered
    /\ o = optionsFor path moduleDir md (resolve path [free]) pf po pb (htmlPath o)
    /\ fst (convertToPdf path moduleDir world fuel md out pf po pb wm)
       = [MkdirSync (dirname path (pdfPath o));
          CloseSync;
          WriteFile (htmlPath o)
            (composeHtml pf po
               (hasMermaidDiagrams (processMermaidDiagrams md))
               (restoreMermaidDiagrams rendered) wm);
          RenderPDF o].
Proof. apply render_call_shape. Qed.

Lemma render_call_is_prepared_witness :
  exists free rendered,
    getIncrementalPath posixPath (existsSync quietWorld) 2 outputPdf = Some free
    /\ existsSync quietWorld free = false
    /\ mdRender quietWorld (processedMarkdown (processMermaidDiagrams (js "hello")))
       = Normal rendered
    /\ optionsFor posixPath (js "/app") (js "hello") outputPdf (js "letter")
         (js "portrait") (js "2cm") (js "/tmp/tmp-1.html")
       = optionsFor posixPath (js "/app") (js "hello") (resolve posixPath [free])
           (js "letter") (js "portrait") (js "2cm")
           (htmlPath (optionsFor posixPath (js "/app") (js "hello") outputPdf
                        (js "letter") (js "portrait") (js "2cm")
                        (js "/tmp/tmp-1.html")))
    /\ fst (convertToPdf posixPath (js "/app") quietWorld 2 (js "hello") outputPdf
              (js "letter") (js "portrait") (js "2cm") [])
       = [MkdirSync (dirname posixPath
                       (pdfPath (optionsFor posixPath (js "/app") (js "hello")
                                   outputPdf (js "letter") (js "portrait")
                                   (js "2cm") (js "/tmp/tmp-1.html"))));
          CloseSync;
          WriteFile (htmlPath (optionsFor posixPath (js "/app") (js "hello")
                                 outputPdf (js "letter") (js "portrait")
                                 (js "2cm") (js "/tmp/tmp-1.html")))
            (composeHtml (js "letter") (js "portrait")
               (hasMermaidDiagrams (processMermaidDiagrams (js "hello")))
               (restoreMermaidDiagrams rendered) []);
          RenderPDF (optionsFor posixPath (js "/app") (js "hello") outputPdf
                       (js "letter") (js "portrait") (js "2cm")
                       (js "/tmp/tmp-1.html"))].
Proof.
  apply (render_call_is_prepared posixPath (js "/app") quietWorld 2 (js "hello")
           outputPdf (js "letter") (js "portrait") (js "2cm") []).
  vm_compute. do 3 right. left. reflexivity.
Defined.

Lemma convertArguments_normal path toLowerCase proc a md outputPath pf po pb wm :
  convertArguments path toLowerCase proc a
  = Normal (md, outputPath, pf, po, pb, wm) ->
  requestedPath path toLowerCase proc a = Normal outputPath.
Proof.
  unfold convertArguments, bindC.
  destruct (requestedPath path toLowerCase proc a); [|discriminate].
  intros H. inversion H. reflexivity.
Qed.

Lemma convertToPdfNoString_fails path world fuel outputPath error :
  snd (convertToPdfNoString path world fuel outputPath error) <> Fulfilled.
Proof.
  unfold convertToPdfNoString.
  destruct (getIncrementalPath path (existsSync world) fuel outputPath);
    [|discriminate].
  destruct (mkdirSync world _); discriminate.
Qed.



(** X11.  When the tool name is right, the arguments are there, the file
    name is a string or missing, the path loop ends and closing the temporary
    file succeeds, the handler returns a result: flagged as an error with the
    text [Failed to create PDF: ...], or a success after a renderer call that
    returned normally. *)
Theorem handler_answers_when_close_succeeds
        path toLowerCase moduleDir world fuel proc request a requested :
  jseqb (name request) toolName = true ->
  arguments request = Some a ->
  requestedPath path toLowerCase proc a = Normal requested ->
  closeSync world = Normal tt ->
  getIncrementalPath path (existsSync world) fuel requested <> None ->
  exists r,
    snd (callToolHandler path toLowerCase moduleDir world fuel proc request)
    = Returns r
    /\ (if isError r then
          exists e, text r = js "Failed to create PDF: " ++ errorMessageOf e
        else
          exists o b,
            renderPDF world o = Normal b
            /\ In (RenderPDF o)
                  (fst (callToolHandler path toLowerCase moduleDir world fuel
                          proc request))).
Proof.
  intros Hname Ha Hreq Hclose Hfuel.
  unfold callToolHandler. rewrite Hname, Ha. cbn [negb].
  unfold convertArguments, bindC. rewrite Hreq.
  destruct (convertToPdfOf path moduleDir world fuel (markdown a) requested
              (orDefault (argPaperFormat a) (js "letter"))
              (orDefault (argPaperOrientation a) (js "portrait"))
              (orDefault (argPaperBorder a) (js "2cm"))
              (orDefault (watermark a) []))
    as [effects p] eqn:Ec.
  cbn [snd fst]. unfold convertToPdfOf in Ec.
  destruct (stringReceiver (markdown a) (js "markdownContent") (js "replace"))
    as [md|error].
  - unfold convertToPdf in Ec.
    destruct (getIncrementalPath path (existsSync world) fuel requested)
      as [free|]; [clear Hfuel | contradiction].
    destruct (mkdirSync world _).
    2:{ inversion Ec; subst. eexists. split; [reflexivity|]. cbn. eauto. }
    destruct (renderBody world md).
    2:{ inversion Ec; subst. eexists. split; [reflexivity|]. cbn. eauto. }
    unfold tmpFileCallback in Ec. rewrite Hclose in Ec.
    destruct (tmpFile world) as [tmpHtmlPath|].
    2:{ inversion Ec; subst. eexists. split; [reflexivity|]. cbn. eauto. }
    destruct (writeFile world tmpHtmlPath _).
    2:{ inversion Ec; subst. eexists. split; [reflexivity|]. cbn. eauto. }
    destruct (importRenderer world).
    2:{ inversion Ec; subst. eexists. split; [reflexivity|]. cbn. eauto. }
    destruct (renderPDF world _) as [b|] eqn:Er.
    + inversion Ec; subst. eexists. split; [reflexivity|]. cbn [isError].
      eexists. exists b. split; [exact Er|]. cbn. auto.
    + inversion Ec; subst. eexists. split; [reflexivity|]. cbn. eauto.
  - unfold convertToPdfNoString in Ec.
    destruct (getIncrementalPath path (existsSync world) fuel requested)
      as [free|]; [clear Hfuel | contradiction].
    destruct (mkdirSync world _); inversion Ec; subst;
      eexists; (split; [reflexivity|]); cbn; eauto.
Qed.

(** A request with the right tool name whose markdown is missing. *)
Lemma handler_answers_when_close_succeeds_witness :
  exists r,
    snd (callToolHandler posixPath asciiLowerCase (js "/app") quietWorld 2
           homeProcess noMarkdown)
    = Returns r
    /\ (if isError r then
          exists e, text r = js "Failed to create PDF: " ++ errorMessageOf e
        else
          exists o b,
            renderPDF quietWorld o = Normal b
            /\ In (RenderPDF o)
                  (fst (callToolHandler posixPath asciiLowerCase (js "/app")
                          quietWorld 2 homeProcess noMarkdown))).
Proof.
  apply (handler_answers_when_close_succeeds posixPath asciiLowerCase (js "/app")
           quietWorld 2 homeProcess noMarkdown
           {| markdown := Undefined;
              outputFilename := Str (js "notes");
              argPaperFormat := None;
              argPaperOrientation := None;
              argPaperBorder := None;
              watermark := None |}
           (js "/home/user/notes.pdf")).
  - vm_compute. reflexivity.
  - reflexivity.
  - vm_compute. reflexivity.
  - reflexivity.
  - vm_compute. discriminate.
Defined.

Example missing_markdown_is_reported :
  callToolHandler posixPath asciiLowerCase (js "/app") quietWorld 2
                  homeProcess noMarkdown
  = ([MkdirSync (js "/home/user")],
     Returns {| text := js "Failed to create PDF: Cannot read properties of undefined (reading 'replace')";
                isError := true |}).
Proof. vm_compute. reflexivity. Qed.

Lemma scriptOpen_head : scriptOpen = 60 :: tl scriptOpen.
Proof. reflexivity. Qed.

Ltac script_free H :=
  rewrite scriptOpen_head; rewrite (count_skip_without 60 _ _ _ H);
  rewrite <- scriptOpen_head.

Ltac inner_piece :=
  rewrite count_app_safeTail by (vm_compute; reflexivity);
  match goal with
  | |- context [(countOccurrences ?p ?a + _)%nat] =>
    replace (countOccurrences p a) with 0%nat by (vm_compute; reflexivity)
  end; cbn [Nat.add].

Lemma truthy_false_nil s : truthy s = false -> s = [].
Proof. destruct s; [reflexivity | discriminate]. Qed.

Lemma scripts_watermarkLayer wm :
  countOccurrences scriptOpen (watermarkLayer wm ++ tplBodyClose)
  = countOccurrences scriptOpen wm.
Proof.
  unfold watermarkLayer. destruct (truthy wm) eqn:E.
  - rewrite <- !app_assoc.
    rewrite count_app_safeTail by (vm_compute; reflexivity).
    replace (countOccurrences scriptOpen watermarkOpen) with 0%nat
      by (vm_compute; reflexivity).
    cbn [Nat.add].
    change (js "</div>" ++ tplBodyClose)
      with (60 :: tl (js "</div>" ++ tplBodyClose)).
    rewrite scriptOpen_head.
    rewrite count_app_stranger by (vm_compute; reflexivity).
    rewrite <- scriptOpen_head.
    replace (countOccurrences scriptOpen
               (60 :: tl (js "</div>" ++ tplBodyClose)))
      with 0%nat by (vm_compute; reflexivity).
    lia.
  - apply truthy_false_nil in E. subst wm. vm_compute. reflexivity.
Qed.

(** X12.  With a paper format and an orientation free of ['<'], the
    composed document has the two script elements of the diagram library
    when the document has diagrams and none of its own otherwise: its script
    elements are those, the ones of the rendered body and the ones of the
    watermark text. *)
Theorem mermaid_script_only_with_diagrams pf po has html wm :
  without 60 pf = true -> without 60 po = true ->
  countOccurrences scriptOpen (composeHtml pf po has html wm)
  = ((if has then 2 else 0)
     + countOccurrences scriptOpen html + countOccurrences scriptOpen wm)%nat.
Proof.
  intros Hpf Hpo. unfold composeHtml.
  fixed_piece. script_free Hpf. fixed_piece. script_free Hpo. fixed_piece.
  unfold pageWidth, pageHeight, mermaidScript.
  destruct (jseqb pf letter); destruct has; repeat fixed_piece; cbn [app].
  all: try (rewrite count_app_safeTail by (vm_compute; reflexivity);
            replace (countOccurrences scriptOpen mermaidScriptText) with 2%nat
              by (vm_compute; reflexivity)).
  all: repeat inner_piece.
  all: change tplContentClose with (10 :: tl tplContentClose);
    rewrite <- ?app_comm_cons;
    rewrite scriptOpen_head;
    rewrite count_app_stranger by (vm_compute; reflexivity);
    rewrite <- scriptOpen_head;
    change (10 :: tl tplContentClose ++ watermarkLayer wm ++ tplBodyClose)
      with (tplContentClose ++ watermarkLayer wm ++ tplBodyClose);
    inner_piece; rewrite scripts_watermarkLayer; lia.
Qed.

Lemma mermaid_script_only_with_diagrams_witness :
  countOccurrences scriptOpen
    (composeHtml (js "a4") (js "landscape") true
       (renderParagraph (js "hello")) (js "DRAFT")) = 2%nat.
Proof.
  rewrite (mermaid_script_only_with_diagrams (js "a4") (js "landscape") true
             (renderParagraph (js "hello")) (js "DRAFT"));
    vm_compute; reflexivity.
Defined.

Lemma utf8_replacement : utf8_of_scalar 65533 = [239; 191; 189].
Proof. reflexivity. Qed.

Lemma utf8_decode_replacement rest :
  utf8_decode_go None ([239; 191; 189] ++ rest)
  = 65533 :: utf8_decode_go None rest.
Proof.
  rewrite <- utf8_replacement.
  rewrite utf8_decode_scalar by (unfold isScalar; lia).
  reflexivity.
Qed.

Lemma utf8_sanitizes_upto (n : nat) : forall s,
  (List.length s <= n)%nat ->
  Forall (fun c => 0 <= c < 65536) s ->
  utf8_decode (utf8_encode s) = toWellFormed s.
Proof.
  unfold utf8_decode.
  induction n as [|n IH]; intros s Hn Hs.
  - destruct s; [reflexivity | cbn in Hn; lia].
  - destruct s as [|c s']; [reflexivity|].
    inversion Hs as [|? ? Hc Hs']; subst.
    cbn [utf8_encode toWellFormed List.length] in *.
    unfold isHighSurrogate, isLowSurrogate in *.
    destruct ((55296 <=? c) && (c <=? 56319)) eqn:Hhi.
    + destruct s' as [|d s''].
      * change [239; 191; 189] with ([239; 191; 189] ++ []).
        rewrite utf8_decode_replacement. reflexivity.
      * inversion Hs' as [|? ? Hd Hs'']; subst. cbn [List.length] in Hn.
        destruct ((56320 <=? d) && (d <=? 57343)) eqn:Hlo.
        -- rewrite utf8_decode_scalar by (unfold isScalar; lia).
           rewrite utf16_of_pair by lia.
           rewrite IH; [reflexivity | lia | assumption].
        -- rewrite utf8_decode_replacement.
           rewrite IH; [reflexivity | cbn [List.length]; lia | assumption].
    + destruct ((56320 <=? c) && (c <=? 57343)) eqn:Hlo.
      * rewrite utf8_decode_replacement.
        rewrite IH; [reflexivity | lia | assumption].
      * rewrite utf8_decode_scalar by (unfold isScalar; lia).
        rewrite utf16_of_bmp by lia.
        rewrite IH; [reflexivity | lia | assumption].
Qed.

(** X13.  For every body, the container restore writes for its payload
    holds the trimmed body with every unpaired surrogate replaced by U+FFFD. *)
Theorem restored_text_is_well_formed_body (code : jsstring) :
  Forall (fun c => 0 <= c < 65536) code ->
  restoredToken bufferDecode (base64_encode (utf8_encode (trim code)))
  = mermaidDiv (toWellFormed (trim code)).
Proof.
  intros H. unfold restoredToken, bufferDecode.
  assert (Ht : Forall (fun c => 0 <= c < 65536) (trim code))
    by (apply Forall_trim, H).
  rewrite base64_roundtrip by (apply utf8_encode_bytes, Ht).
  rewrite (utf8_sanitizes_upto _ _ (Nat.le_refl _) Ht). reflexivity.
Qed.

Lemma restored_text_is_well_formed_body_witness :
  restoredToken bufferDecode
    (base64_encode (utf8_encode (trim [32; 65; 55357; 66; 56832; 10])))
  = mermaidDiv [65; 65533; 66; 65533].
Proof.
  rewrite (restored_text_is_well_formed_body [32; 65; 55357; 66; 56832; 10]).
  - vm_compute. reflexivity.
  - repeat constructor; lia.
Defined.

(** X14.  The restore step replaces every text that looks like a token,
    whether or not the protector wrote it: after text free of the prefix, the
    prefix followed by token characters becomes a container with whatever
    they decode to. *)
Theorem token_like_text_is_replaced (pre payload rest : jsstring) :
  clean placeholderPrefix pre = true ->
  payload <> [] ->
  forallb isPayloadChar payload = true ->
  headIsPayload rest = false ->
  restoreMermaidDiagrams (pre ++ placeholderPrefix ++ payload ++ rest)
  = pre ++ mermaidDiv (utf8_decode (base64_decode payload))
        ++ restoreMermaidDiagrams rest.
Proof.
  intros Hpre Hne Hp Hr. rewrite !restoreMermaidDiagrams_pieces.
  rewrite (pieces_clean_text placeholderRegex placeholderPrefix
             placeholderRegex_starts _ _ Hpre).
  rewrite flat_map_lits. f_equal.
  destruct payload as [|c payload]; [contradiction|].
  rewrite pieces_token by assumption. reflexivity.
Qed.

Lemma token_like_text_is_replaced_witness :
  restoreMermaidDiagrams (js "<p>see MERMAID_DIAGRAM_PLACEHOLDER_QUJD</p>")
  = js "<p>see " ++ mermaidDiv (js "ABC") ++ js "</p>".
Proof.
  change (js "<p>see MERMAID_DIAGRAM_PLACEHOLDER_QUJD</p>")
    with (js "<p>see " ++ placeholderPrefix ++ js "QUJD" ++ js "</p>").
  rewrite token_like_text_is_replaced;
    try (vm_compute; reflexivity).
  vm_compute. discriminate.
Defined.

Lemma filenameOf_throws toLowerCase a :
  (exists e, filenameOf toLowerCase a = Throw e)
  <-> outputFilename a = Null \/ outputFilename a = Other.
Proof.
  unfold filenameOf, bindC, stringReceiver, valueOrDefault.
  destruct (outputFilename a); split; intros H;
    try (destruct H as [e H]; discriminate);
    try (destruct H as [H|H]; discriminate);
    auto; eexists; reflexivity.
Qed.

(** X15.  As long as [process.cwd()] and the functions of [path] return,
    the handler throws exactly when the tool name is not
    [create_pdf_from_markdown], the request has no arguments, or the file
    name is neither a string nor missing; and then it has done nothing else:
    these are the steps before its [try]. *)
Theorem handler_throws_only_before_try
        path toLowerCase moduleDir world fuel proc request :
  ((exists e,
      snd (callToolHandler path toLowerCase moduleDir world fuel proc request)
      = Throws e)
   <-> jseqb (name request) toolName = false
       \/ arguments request = None
       \/ exists a, arguments request = Some a
                    /\ (outputFilename a = Null \/ outputFilename a = Other))
  /\ ((exists e,
        snd (callToolHandler path toLowerCase moduleDir world fuel proc request)
        = Throws e) ->
      fst (callToolHandler path toLowerCase moduleDir world fuel proc request)
      = []).
Proof.
  unfold callToolHandler.
  destruct (jseqb (name request) toolName) eqn:En; cbn [negb].
  2:{ split; [|reflexivity]. split; [auto | intros _; eexists; reflexivity]. }
  destruct (arguments request) as [a|].
  2:{ split; [|reflexivity]. split; [auto | intros _; eexists; reflexivity]. }
  unfold convertArguments, requestedPath, bindC.
  destruct (filenameOf toLowerCase a) as [filename|e0] eqn:Ef.
  - assert (Hno : ~ (outputFilename a = Null \/ outputFilename a = Other)).
    { intros H. apply (filenameOf_throws toLowerCase a) in H.
      destruct H as [e H]. rewrite Ef in H. discriminate. }
    destruct (convertToPdfOf path moduleDir world fuel (markdown a) _ _ _ _ _)
      as [effects [ |err| ]]; cbn [snd fst];
      (split; [split|]);
      try (intros [e H]; discriminate);
      intros [H|[H|(a' & Ha & H)]]; try discriminate;
      inversion Ha; subst a'; contradiction.
  - cbn [snd fst]. split; [|reflexivity]. split.
    + intros _. right. right. exists a. split; [reflexivity|].
      apply (filenameOf_throws toLowerCase a). eauto.
    + intros _. eexists. reflexivity.
Qed.

Example missing_arguments_throw :
  callToolHandler posixPath asciiLowerCase (js "/app") quietWorld 2 homeProcess
                  {| name := toolName; arguments := None |}
  = ([], Throws cannotDestructure).
Proof. reflexivity. Qed.

Example numeric_file_name_throws :
  callToolHandler posixPath asciiLowerCase (js "/app") quietWorld 2 homeProcess
    {| name := toolName;
       arguments := Some {| markdown := Str (js "hello");
                            outputFilename := Other;
                            argPaperFormat := None;
                            argPaperOrientation := None;
                            argPaperBorder := None;
                            watermark := None |} |}
  = ([], Throws (ErrorObject (js "outputFilename.toLowerCase is not a function"))).
Proof. vm_compute. reflexivity. Qed.

Lemma without_clean x pat : forall t,
  without x t = true -> clean (x :: pat) t = true.
Proof.
  unfold clean. induction t as [|c t IH]; intros H; [reflexivity|].
  cbn [without forallb] in H. apply andb_prop in H. destruct H as [Hc Ht].
  apply negb_true_iff in Hc. specialize (IH Ht).
  apply andb_prop in IH. destruct IH as [IH1 IH2].
  cbn [countOccurrences safeTail startsWith].
  rewrite (Z.eqb_sym x c), Hc. cbn [andb negb]. rewrite orb_true_r, IH2.
  cbn [Nat.add andb]. rewrite IH1. reflexivity.
Qed.

Lemma payload_without_backquote : forall s,
  forallb isPayloadChar s = true -> without 96 s = true.
Proof.
  induction s as [|c s IH]; intros H; [reflexivity|].
  cbn [forallb without] in *. apply andb_prop in H. destruct H as [Hc Hs].
  fold (without 96 s). rewrite (IH Hs).
  unfold isPayloadChar in Hc.
  assert (Hne : (c =? 96) = false) by lia.
  rewrite Hne. reflexivity.
Qed.

Lemma without_app x a b :
  without x (a ++ b) = without x a && without x b.
Proof. unfold without. apply forallb_app. Qed.

Lemma placeholder_without_backquote code :
  wellFormed (trim code) = true -> without 96 (placeholderOf code) = true.
Proof.
  intros H. unfold placeholderOf. rewrite without_app.
  replace (without 96 placeholderPrefix) with true by (vm_compute; reflexivity).
  apply payload_without_backquote, base64_encode_payload, utf8_encode_bytes,
    wellFormed_units, H.
Qed.

Lemma pieces_protectedOf : forall d,
  wellDelimited d = true ->
  pieces mermaidRegex 0 (protectedOf d) = map (fun c => Lit c) (protectedOf d).
Proof.
  induction d as [|[t|code] d IH]; intros H; [reflexivity| |];
    cbn [wellDelimited] in H.
  - apply andb_prop in H. destruct H as [H Hd].
    apply andb_prop in H. destruct H as [Hf _].
    cbn [protectedOf].
    rewrite (pieces_clean_text mermaidRegex fenceOpen mermaidRegex_starts _ _ Hf).
    rewrite (IH Hd), map_app. reflexivity.
  - apply andb_prop in H. destruct H as [H Hd].
    apply andb_prop in H. destruct H as [H _].
    apply andb_prop in H. destruct H as [_ Hw].
    cbn [protectedOf].
    rewrite (pieces_clean_text mermaidRegex fenceOpen mermaidRegex_starts).
    + rewrite (IH Hd), map_app. reflexivity.
    + change fenceOpen with (96 :: tl fenceOpen).
      apply without_clean, placeholder_without_backquote, Hw.
Qed.

(** X16.  Protecting twice changes nothing: in a well delimited document
    the placeholders hold no fence, so a second pass finds no diagram block
    and returns the protected text as it is. *)
Theorem protect_twice_changes_nothing (d : list segment) :
  wellDelimited d = true ->
  processMermaidDiagrams
    (processedMarkdown (processMermaidDiagrams (markdownOf d)))
  = {| processedMarkdown := protectedOf d; hasMermaidDiagrams := false |}.
Proof.
  intros H. destruct (pieces_markdownOf d H) as [_ Hp]. rewrite Hp.
  pose proof (processedMarkdown_pieces (protectedOf d)) as Hq.
  pose proof (hasMermaidDiagrams_blocks (protectedOf d)) as Hh.
  unfold diagramBlocks in Hh.
  rewrite (pieces_protectedOf d H) in Hq, Hh.
  rewrite flat_map_lits_only in Hq.
  replace (matches (map (fun c => Lit c) (protectedOf d)))
    with (@nil jsstring) in Hh.
  - destruct (processMermaidDiagrams (protectedOf d)) as [out flag].
    cbn in Hq, Hh. subst. reflexivity.
  - symmetry. rewrite <- (app_nil_r (map _ _)).
    exact (matches_lits (protectedOf d) (@nil (@piece jsstring))).
Qed.

Lemma protect_twice_changes_nothing_witness :
  processMermaidDiagrams
    (processedMarkdown (processMermaidDiagrams (markdownOf report)))
  = {| processedMarkdown := protectedOf report; hasMermaidDiagrams := false |}.
Proof. apply protect_twice_changes_nothing. vm_compute. reflexivity. Defined.

